(** * mod_auth: the authentication module of ouistiti

    A shallow embedding of [src/mod_auth.c] and the properties of its
    connectors.  The C functions are translated one by one; mutable
    objects reached through pointers (the connection context, the
    response under construction, the backends' private contexts, the
    process random generator) are fields of one explicit [state] that
    is threaded through a state-and-failure monad.  [None] stands for
    a run that dereferences or calls a NULL pointer. *)

From Stdlib Require Import ZArith List String Ascii Bool Lia.
Import ListNotations.

Set Implicit Arguments.

Local Open Scope string_scope.
Local Open Scope Z_scope.

(** ** The C string functions used by the module *)

Module CString.

(** [strlen] as an [int]. *)
Definition strlen (s : string) : Z := Z.of_nat (String.length s).

(** [strncmp(s1, s2, n)]: only the sign of the result is specified
    by C, so the model returns a [comparison].  The end of a string
    is the terminating NUL, smaller than every character. *)
Fixpoint strncmp (s1 s2 : string) (n : nat) : comparison :=
  match n with
  | O => Eq
  | S n' =>
      match s1, s2 with
      | EmptyString, EmptyString => Eq
      | EmptyString, String _ _ => Lt
      | String _ _, EmptyString => Gt
      | String c1 r1, String c2 r2 =>
          if Ascii.eqb c1 c2 then strncmp r1 r2 n'
          else Nat.compare (nat_of_ascii c1) (nat_of_ascii c2)
      end
  end.

(** [strchr(s, c)]: the suffix of [s] that starts at the first [c],
    or NULL. *)
Fixpoint strchr (s : string) (c : ascii) : option string :=
  match s with
  | EmptyString => None
  | String a r => if Ascii.eqb a c then Some s else strchr r c
  end.

(** [strstr(haystack, needle)]: the suffix of [haystack] that starts
    at the first occurrence of [needle], or NULL. *)
Fixpoint strstr (haystack needle : string) : option string :=
  if String.prefix needle haystack then Some haystack
  else match haystack with
       | EmptyString => None
       | String _ r => strstr r needle
       end.

(** Pointer arithmetic [s + n] inside a string. *)
Fixpoint advance (n : nat) (s : string) : string :=
  match n, s with
  | O, _ => s
  | S n', String _ r => advance n' r
  | S _, EmptyString => EmptyString
  end.

(** [strncpy(dst, src, sizeof(dst))] into a zeroed array of [size]
    bytes: the characters that the array holds.  They are the string
    read back at [dst] when [src] is shorter than [size].  A longer
    [src] fills the array and leaves no NUL in it, and a read at [dst]
    then runs on into what follows the array; the properties that
    read the string back take a [src] that fits. *)
Fixpoint strncpy (size : nat) (src : string) : string :=
  match size, src with
  | S n, String c r => String c (strncpy n r)
  | _, _ => EmptyString
  end.

End CString.

(** ** URL-safe base64 *)

Module Base64.

Definition alphabet : string :=
  "ABCDEFGHIJKLMNOPQRSTUVWXYZabcdefghijklmnopqrstuvwxyz0123456789-_".

Definition digit (n : Z) : ascii :=
  match String.get (Z.to_nat n) alphabet with
  | Some c => c
  | None => "="%char
  end.

(** Modelled from the spec: [base64_urlencoding->encode] of
    httpserver/hash.h is not part of the source.  The spec calls it
    URL-safe base64; this is the encoding of RFC 4648 section 5, three
    bytes to four characters, a trailing group of one or two bytes to
    two or three characters without padding. *)
Fixpoint encode (bytes : list Z) : string :=
  match bytes with
  | b0 :: b1 :: b2 :: rest =>
      String (digit (Z.shiftr b0 2))
     (String (digit (Z.lor (Z.shiftl (Z.land b0 3) 4) (Z.shiftr b1 4)))
     (String (digit (Z.lor (Z.shiftl (Z.land b1 15) 2) (Z.shiftr b2 6)))
     (String (digit (Z.land b2 63)) (encode rest))))
  | [b0; b1] =>
      String (digit (Z.shiftr b0 2))
     (String (digit (Z.lor (Z.shiftl (Z.land b0 3) 4) (Z.shiftr b1 4)))
     (String (digit (Z.shiftl (Z.land b1 15) 2)) EmptyString))
  | [b0] =>
      String (digit (Z.shiftr b0 2))
     (String (digit (Z.shiftl (Z.land b0 3) 4)) EmptyString)
  | [] => EmptyString
  end.

End Base64.

(** ** The httpserver interface seen by the module *)

(** Modelled from the spec: the return codes of a connector, which
    httpserver/httpserver.h defines and the source only names.
    ECONTINUE lets the later connectors run, ESUCCESS claims the
    request, EINCOMPLETE waits for more of it, EREJECT passes it
    through. *)
Inductive retcode : Set := ESUCCESS | EINCOMPLETE | ECONTINUE | EREJECT.

Definition retcode_eqb (a b : retcode) : bool :=
  match a, b with
  | ESUCCESS, ESUCCESS | EINCOMPLETE, EINCOMPLETE
  | ECONTINUE, ECONTINUE | EREJECT, EREJECT => true
  | _, _ => false
  end.

(** Modelled from the spec: the status codes behind the RESULT_ macros
    of httpserver.h. *)
Definition RESULT_200 : Z := 200.
Definition RESULT_301 : Z := 301.
Definition RESULT_302 : Z := 302.
Definition RESULT_401 : Z := 401.
Definition RESULT_403 : Z := 403.

(** Modelled from the spec: two strings that the source takes from
    httpserver.h, the name of the redirection header and the fixed
    method of a verification behind a login page. *)
Definition str_location : string := "Location".
Definition str_head : string := "HEAD".

Definition fields := list (string * string).

Fixpoint lookup (key : string) (l : fields) : option string :=
  match l with
  | [] => None
  | (k, v) :: r => if String.eqb k key then Some v else lookup key r
  end.

(** Modelled from the spec: a request as the source reads it through
    httpserver.h.  Method and uri are always present; [req_uri] is what
    [httpmessage_REQUEST(request, "uri")] returns, still url-encoded
    and without the leading slash, [req_method] what it returns for
    "method". *)
Record http_request : Type := {
  req_method : string;
  req_uri : string;
  req_headers : fields;
  req_cookies : fields
}.

(** Modelled from the spec: [httpmessage_REQUEST(request, key)] for a
    header, NULL when the request has none of that name. *)
Definition httpmessage_REQUEST (request : http_request) (key : string)
  : option string := lookup key (req_headers request).

(** Modelled from the spec: [cookie_get(request, key)]. *)
Definition cookie_get (request : http_request) (key : string)
  : option string := lookup key (req_cookies request).

(** Modelled from the spec: a response under construction, with the
    status, the headers and the cookies in the order they are set. *)
Record http_response : Type := {
  result : option Z;
  headers : fields;
  cookies : fields
}.

Definition empty_response : http_response :=
  {| result := None; headers := []; cookies := [] |}.

(** Modelled from the spec: [httpmessage_result(response, code)]. *)
Definition httpmessage_result (r : http_response) (code : Z) : http_response :=
  {| result := Some code; headers := headers r; cookies := cookies r |}.

(** The type [_httpmessage_set] of the source, for the two setters
    that [_authn_setauthorization] receives. *)
Definition _httpmessage_set := http_response -> string -> string -> http_response.

(** Modelled from the spec: [httpmessage_addheader] and [cookie_set]
    of httpserver.h, each adding one field. *)
Definition httpmessage_addheader : _httpmessage_set :=
  fun r key value =>
    {| result := result r; headers := (headers r ++ [(key, value)])%list;
       cookies := cookies r |}.

Definition cookie_set : _httpmessage_set :=
  fun r key value =>
    {| result := result r; headers := headers r;
       cookies := (cookies r ++ [(key, value)])%list |}.

(** C truth of a possibly NULL string: [s != NULL && s[0] != '\0']. *)
Definition nonempty (s : option string) : bool :=
  match s with
  | Some (String _ _) => true
  | _ => false
  end.

(** [x & flag] used as a C condition. *)
Definition has_flag (x flag : Z) : bool := negb (Z.land x flag =? 0).

(** ** The module's data *)

Section ModAuth.

(** The private memory of the two backends: [mod->authn->ctx] and
    [mod->authz->ctx] point into it, and the credential scheme keeps
    a pointer to the identity store, so one memory serves both. *)
Variable backends : Type.
(** The opaque configurations handed to the backends' [create]. *)
Variables authn_config_t authz_config_t : Type.
(** The state behind [srandom] and [random]. *)
Variable rand_state : Type.

Record hash_t : Type := { hash_name : string }.

(** Modelled from the spec: [authsession_t], the Identity of the spec,
    declared in mod_auth.h which is not part of the source.  [type],
    [user], [group] and [home] are character arrays inside the
    structure (the source fills them with [strncpy] and [sizeof], and
    main.c casts them to strings); [token] is a pointer. *)
Record authsession_t : Type := {
  info_type : string;
  info_user : string;
  info_group : string;
  info_home : string;
  info_token : option string
}.

(** Modelled from the spec: [mod_auth_t], the AuthConfig of the spec,
    declared in mod_auth.h; the fields are those the source reads. *)
Record mod_auth_t : Type := {
  authn_type : nat;
  authz_type : Z;
  authn_config : authn_config_t;
  authz_config : authz_config_t;
  algo : option string;
  protect : option string;
  unprotect : option string;
  redirect : option string;
  expire : Z
}.

(** Modelled from the spec: [authz_rules_t], the contract of an identity
    store, with the entries the source calls.  Optional entries are
    function pointers that may be NULL. *)
Record authz_rules_t : Type := {
  authz_create : authz_config_t -> option backends;
  authz_group : option (backends -> string -> option string);
  authz_home : option (backends -> string -> option string);
  authz_join : option (backends -> string -> string -> Z -> Z * backends);
  authz_destroy : option (backends -> backends)
}.

(** Modelled from the spec: [authn_rules_t], the contract of a
    credential scheme.  [check] and [challenge] may change the memory
    of the backends.  [setup] receives the client of the new
    connection: it gives the names of the connectors that it adds to
    this client, in order, and the memory it leaves. *)
Record authn_rules_t : Type := {
  authn_create : option hash_t -> authn_config_t -> backends -> option backends;
  authn_setup : option (backends -> list string * backends);
  authn_check : backends -> string -> string -> string -> option string * backends;
  authn_challenge :
    backends -> http_request -> http_response -> retcode * http_response * backends;
  authn_destroy : option (backends -> backends)
}.

(** The two generators that [mod->authz->generatetoken] can hold. *)
Inductive generatetoken_t : Set := Authz_generatetoken | Authz_generatejwtoken.

(** [authn_t] and [authz_t]; [an_ctx] tells whether [authn->ctx] is
    not NULL. *)
Record authn_t : Type := {
  an_type : nat;
  an_rules : option authn_rules_t;
  an_ctx : bool;
  an_hash : option hash_t
}.

Record authz_t : Type := {
  az_type : Z;
  az_rules : authz_rules_t;
  az_generatetoken : option generatetoken_t
}.

(** [_mod_auth_t]; [mod_config] is the configuration as
    [mod_auth_create] left it. *)
Record _mod_auth_t : Type := {
  mod_config : mod_auth_t;
  mod_type : string;
  mod_typelength : nat;
  mod_authn : authn_t;
  mod_authz : authz_t
}.

(** What the module does to the outside, in order. *)
Inductive event : Type :=
| EvErr (msg : string)
| EvWarn (msg : string)
| EvAddmod
| EvCheck (method uri authentication : string)
| EvChallenge
| EvJoin (user token : string) (expiry : Z)
| EvSeteuid (uid : Z)
| EvSetegid (gid : Z).

(** Everything the source takes from its headers, its build and the
    operating system. *)
Record platform : Type := {
  (* mod_auth.h: the bits of authz_type *)
  AUTHZ_TYPE_MASK : Z;
  AUTHZ_UNIX_E : Z;
  AUTHZ_HOME_E : Z;
  AUTHZ_TOKEN_E : Z;
  AUTHZ_HEADER_E : Z;
  AUTHZ_COOKIE_E : Z;
  sizeof_type : nat;
  sizeof_user : nat;
  sizeof_group : nat;
  sizeof_home : nat;
  (* build switches *)
  AUTH_TOKEN : bool;
  AUTHZ_JWT : bool;
  have_RESULT_301 : bool;
  (* the tables authn_rules[] and authz_rules[] after the #ifdef's;
     authz_rules[0] is NULL in the source *)
  authn_rules : list (option authn_rules_t);
  authz_rules_from_1 : list (option authz_rules_t);
  authz_generatejwtoken : mod_auth_t -> authsession_t -> string;
  (* httpserver/utils.h and hash.h *)
  utils_searchexp : string -> option string -> retcode;
  utils_urldecode : string -> string;
  hash_sha1 : option hash_t;
  hash_sha224 : option hash_t;
  hash_sha256 : option hash_t;
  hash_sha512 : option hash_t;
  hash_md5 : option hash_t;
  (* libc *)
  srandom : Z -> rand_state;
  random : rand_state -> Z * rand_state;
  getpwnam : string -> option (Z * Z);
  getuid : Z;
  seteuid : Z -> bool;
  setegid : Z -> bool
}.

Variable P : platform.

Definition authz_rules : list (option authz_rules_t) :=
  None :: authz_rules_from_1 P.

(** A table entry, for an index of the table.  The source does not
    compare the index with the size of the table; the properties of
    [mod_auth_create] that depend on an entry take an index of the
    table, where the model gives NULL past the end. *)
Definition entry {A : Type} (table : list (option A)) (i : nat) : option A :=
  match nth_error table i with
  | Some e => e
  | None => None
  end.

Definition str_authenticate_types : list string :=
  ["None"; "Basic"; "Digest"; "Bearer"; "oAuth2"].

Definition str_auth : string := "auth".
Definition str_cachecontrol : string := "Cache-Control".
Definition str_authenticate : string := "WWW-Authenticate".
Definition str_authorization : string := "Authorization".
Definition str_xtoken : string := "X-Auth-Token".
Definition str_xuser : string := "X-Remote-User".
Definition str_xgroup : string := "X-Remote-Group".
Definition str_xhome : string := "X-Remote-Home".
Definition str_wilcard : string := "*".

(** ** The mutable state and its monad *)

Record state : Type := {
  ctx_info : option authsession_t;   (* ctx->info *)
  session : option authsession_t;    (* the client's session entry "auth" *)
  response : http_response;
  memory : backends;
  rand : rand_state;
  trace : list event
}.

Definition M (A : Type) : Type := state -> option (A * state).

Definition ret {A : Type} (a : A) : M A := fun s => Some (a, s).

Definition bind {A B : Type} (m : M A) (k : A -> M B) : M B :=
  fun s => match m s with
           | Some (a, s') => k a s'
           | None => None
           end.

(** A NULL pointer is dereferenced or called. *)
Definition crash {A : Type} : M A := fun _ => None.

Definition gets {A : Type} (f : state -> A) : M A := fun s => Some (f s, s).

Definition modify (f : state -> state) : M unit := fun s => Some (tt, f s).

(** The assignments to the fields of the state. *)
Definition add_event (e : event) (s : state) : state :=
  {| ctx_info := ctx_info s; session := session s; response := response s;
     memory := memory s; rand := rand s; trace := (trace s ++ [e])%list |}.

Definition put_ctx_info (i : option authsession_t) (s : state) : state :=
  {| ctx_info := i; session := session s; response := response s;
     memory := memory s; rand := rand s; trace := trace s |}.

Definition put_session (i : option authsession_t) (s : state) : state :=
  {| ctx_info := ctx_info s; session := i; response := response s;
     memory := memory s; rand := rand s; trace := trace s |}.

Definition put_response (r : http_response) (s : state) : state :=
  {| ctx_info := ctx_info s; session := session s; response := r;
     memory := memory s; rand := rand s; trace := trace s |}.

Definition put_memory (b : backends) (s : state) : state :=
  {| ctx_info := ctx_info s; session := session s; response := response s;
     memory := b; rand := rand s; trace := trace s |}.

Definition put_rand (g : rand_state) (s : state) : state :=
  {| ctx_info := ctx_info s; session := session s; response := response s;
     memory := memory s; rand := g; trace := trace s |}.

Definition emit (e : event) : M unit := modify (add_event e).
Definition err (msg : string) : M unit := emit (EvErr msg).
Definition warn (msg : string) : M unit := emit (EvWarn msg).
Definition set_ctx_info (i : option authsession_t) : M unit := modify (put_ctx_info i).
Definition set_response (r : http_response) : M unit := modify (put_response r).
Definition set_memory (b : backends) : M unit := modify (put_memory b).
Definition set_rand (g : rand_state) : M unit := modify (put_rand g).

Notation "x <- c1 ;; c2" := (bind c1 (fun x => c2))
  (at level 61, c1 at next level, right associativity).
Notation "c1 ;; c2" := (bind c1 (fun _ => c2))
  (at level 61, right associativity).

(** A setter applied to the response of the current request. *)
Definition on_response (f : http_response -> http_response) : M unit :=
  r <- gets response ;; set_response (f r).

(** Modelled from the spec: [httpmessage_SESSION(request, "auth", value)]
    of httpserver.h stores [value] in the session of the client when
    it is not NULL, and returns what the entry holds. *)
Definition httpmessage_SESSION (value : option authsession_t)
  : M (option authsession_t) :=
  match value with
  | Some v => modify (put_session (Some v)) ;; ret (Some v)
  | None => gets session
  end.

Definition is_eq (c : comparison) : bool :=
  match c with Eq => true | _ => false end.

(** The C test [if (info->group)] on an array member: its address is
    never NULL, whatever the array holds. *)
Definition array_not_null (a : string) : bool := true.

(** ** The connectors *)

Section Connectors.

(** [ctx->mod]; [mod] is a keyword of the arithmetic notations. *)
Variable amod : _mod_auth_t.

Definition _home_connector (request : http_request) : M retcode :=
  info <- httpmessage_SESSION None ;;
  match info with
  | Some info =>
      let home := info_home info in
      let websocket := httpmessage_REQUEST request "Sec-WebSocket-Version" in
      if nonempty websocket then ret EREJECT
      else
        let uri := utils_urldecode P (req_uri request) in
        let homelength := CString.strlen home in
        if (0 <? homelength)
           && negb (is_eq (CString.strncmp (CString.advance 1 home) uri
                             (Z.to_nat (homelength - 1))))
        then
          if have_RESULT_301 P then
            let location := home ++ "/" in
            on_response (fun r => httpmessage_addheader r str_location location) ;;
            on_response (fun r => httpmessage_result r RESULT_301) ;;
            ret ESUCCESS
          else ret EREJECT
        else ret EREJECT
  | None => ret EREJECT
  end.

(** One [random()] stored as an [int] at [_nonce + i * 4]: the four
    bytes of the low 32 bits, least significant first. *)
Definition int_bytes (r : Z) : list Z :=
  [Z.land r 255; Z.land (Z.shiftr r 8) 255;
   Z.land (Z.shiftr r 16) 255; Z.land (Z.shiftr r 24) 255].

Definition call_random : M Z :=
  g <- gets rand ;;
  let (r, g') := random P g in
  set_rand g' ;; ret r.

(** The loop that fills [_nonce]: [n] draws, four bytes each. *)
Fixpoint fill_nonce (n : nat) : M (list Z) :=
  match n with
  | O => ret []
  | S n' =>
      r <- call_random ;;
      rest <- fill_nonce n' ;;
      ret (int_bytes r ++ rest)%list
  end.

(** The encoder writes into a zeroed buffer of 36 bytes, which the
    32 characters of 24 encoded bytes do not fill. *)
Definition authz_generatetoken (config : mod_auth_t) (info : authsession_t)
  : M string :=
  _nonce <- fill_nonce 6 ;;
  ret (Base64.encode _nonce).

(** The call through [mod->authz->generatetoken]. *)
Definition call_generatetoken (config : mod_auth_t) (info : authsession_t)
  : M string :=
  match az_generatetoken (mod_authz amod) with
  | Some Authz_generatetoken => authz_generatetoken config info
  | Some Authz_generatejwtoken => ret (authz_generatejwtoken P config info)
  | None => crash
  end.

Definition _authn_getauthorization (request : http_request)
  : M (option string) :=
  let authorization : option string := None in
  let authorization :=
    if negb (nonempty authorization)
    then httpmessage_REQUEST request str_authorization
    else authorization in
  authorization <-
    (if negb (nonempty authorization)
     then err "cookie get" ;; ret (cookie_get request str_authorization)
     else ret authorization) ;;
  authorization <-
    (match authorization with
     | Some a =>
         if negb (is_eq (CString.strncmp a (mod_type amod) (mod_typelength amod)))
         then err "authorization type" ;; ret None
         else ret (Some a)
     | None => ret None
     end) ;;
  if AUTH_TOKEN P && negb (nonempty authorization)
     && has_flag (az_type (mod_authz amod)) (AUTHZ_TOKEN_E P)
  then
    if has_flag (az_type (mod_authz amod)) (AUTHZ_HEADER_E P)
    then ret (httpmessage_REQUEST request str_xtoken)
    else ret (cookie_get request str_xtoken)
  else ret authorization.

Definition _authn_setauthorization (authorization : option string)
    (info : authsession_t) (httpmessage_set : _httpmessage_set) : M retcode :=
  match (if AUTH_TOKEN P then info_token info else None) with
  | Some token => on_response (fun r => httpmessage_set r str_xtoken token)
  | None =>
      match authorization with
      | Some a => on_response (fun r => httpmessage_set r str_authorization a)
      | None => ret tt
      end
  end ;;
  on_response (fun r => httpmessage_set r str_xuser (info_user info)) ;;
  (if array_not_null (info_group info)
   then on_response (fun r => httpmessage_set r str_xgroup (info_group info))
   else ret tt) ;;
  (if array_not_null (info_home info)
   then on_response (fun r => httpmessage_set r str_xhome "~/")
   else ret tt) ;;
  ret ESUCCESS.

(** The calls through the backends' tables of functions. *)
Definition authn_rules_of_mod : M authn_rules_t :=
  match an_rules (mod_authn amod) with
  | Some rules => ret rules
  | None => crash
  end.

Definition call_check (method uri authentication : string)
  : M (option string) :=
  rules <- authn_rules_of_mod ;;
  emit (EvCheck method uri authentication) ;;
  b <- gets memory ;;
  let (user, b') := authn_check rules b method uri authentication in
  set_memory b' ;; ret user.

Definition call_challenge (request : http_request) : M retcode :=
  rules <- authn_rules_of_mod ;;
  emit EvChallenge ;;
  b <- gets memory ;;
  r <- gets response ;;
  let '(code, r', b') := authn_challenge rules b request r in
  set_response r' ;; set_memory b' ;; ret code.

Definition call_join
    (join : backends -> string -> string -> Z -> Z * backends)
    (user token : string) (expiry : Z) : M unit :=
  emit (EvJoin user token expiry) ;;
  b <- gets memory ;;
  let (_, b') := join b user token expiry in
  set_memory b'.

(** The privilege transition of [_authn_checkauthorization]. *)
Definition change_user (user : string) : M unit :=
  match getpwnam P user with
  | Some (pw_uid, pw_gid) =>
      let uid := getuid P in
      emit (EvSeteuid uid) ;;
      (if seteuid P uid then ret tt
       else warn "not enought rights to change user") ;;
      emit (EvSetegid pw_gid) ;;
      (if setegid P pw_gid then ret tt
       else warn "not enought rights to change group") ;;
      emit (EvSeteuid pw_uid) ;;
      (if seteuid P pw_uid then ret tt
       else warn "not enought rights to change user")
  | None => ret tt
  end.

(** The block that builds the session of a first verification. *)
Definition new_session (user : string) : M authsession_t :=
  let config := mod_config amod in
  let authz := mod_authz amod in
  let info :=
    {| info_type := CString.strncpy (sizeof_type P) (mod_type amod);
       info_user := CString.strncpy (sizeof_user P) user;
       info_group := EmptyString;
       info_home := EmptyString;
       info_token := None |} in
  info <-
    (if AUTH_TOKEN P && has_flag (az_type authz) (AUTHZ_TOKEN_E P)
     then
       token <- call_generatetoken config info ;;
       match authz_join (az_rules authz) with
       | Some join => call_join join (info_user info) token (expire config)
       | None => ret tt
       end ;;
       ret {| info_type := info_type info; info_user := info_user info;
              info_group := info_group info; info_home := info_home info;
              info_token := Some token |}
     else ret info) ;;
  b <- gets memory ;;
  let info :=
    match authz_group (az_rules authz) with
    | Some group_of =>
        match group_of b user with
        | Some group =>
            {| info_type := info_type info; info_user := info_user info;
               info_group := CString.strncpy (sizeof_group P) group;
               info_home := info_home info; info_token := info_token info |}
        | None => info
        end
    | None => info
    end in
  let info :=
    match authz_home (az_rules authz) with
    | Some home_of =>
        match home_of b user with
        | Some home =>
            {| info_type := info_type info; info_user := info_user info;
               info_group := info_group info;
               info_home := CString.strncpy (sizeof_home P) home;
               info_token := info_token info |}
        | None => info
        end
    | None => info
    end in
  set_ctx_info (Some info) ;;
  ret info.

Definition _authn_checkauthorization
    (authorization method uri : string) : M retcode :=
  let config := mod_config amod in
  let authz := mod_authz amod in
  let authentication :=
    match CString.strchr authorization " " with
    | Some at_space => CString.advance 1 at_space
    | None => authorization
    end in
  let method :=
    match redirect config with
    | Some _ => str_head
    | None => method
    end in
  user <- call_check method uri authentication ;;
  match user with
  | Some user =>
      cached <- gets ctx_info ;;
      info <-
        (match cached with
         | Some info => ret info
         | None => new_session user
         end) ;;
      (if has_flag (az_type authz) (AUTHZ_HEADER_E P)
       then _authn_setauthorization (Some authorization) info httpmessage_addheader ;;
            ret tt
       else if has_flag (az_type authz) (AUTHZ_COOKIE_E P)
       then _authn_setauthorization (Some authorization) info cookie_set ;;
            ret tt
       else ret tt) ;;
      (if has_flag (az_type authz) (AUTHZ_UNIX_E P)
       then change_user (info_user info)
       else ret tt) ;;
      warn "user accepted" ;;
      ret EREJECT
  | None => ret ECONTINUE
  end.

(** The path component of the redirection that [_authn_challenge]
    compares with the uri; NULL when the url has a scheme and no
    slash after the host. *)
Definition redirect_path (url : string) : option string :=
  match CString.strstr url "://" with
  | Some at_scheme => CString.strchr (CString.advance 3 at_scheme) "/"
  | None => Some url
  end.

Definition skip_slash (s : string) : string :=
  match s with
  | String "/" r => r
  | _ => s
  end.

Definition is_xhr (request : http_request) : bool :=
  match httpmessage_REQUEST request "X-Requested-With" with
  | Some x =>
      match CString.strstr x "XMLHttpRequest" with
      | Some _ => true
      | None => false
      end
  | None => false
  end.

Definition _authn_challenge (uri : string) (request : http_request)
  : M retcode :=
  let config := mod_config amod in
  code <- call_challenge request ;;
  if retcode_eqb code ECONTINUE then
    (* the value of [ret] at the end of the three branches *)
    code <-
      (if is_xhr request then
         on_response (fun r => httpmessage_result r RESULT_403) ;; ret code
       else
         match redirect config with
         | Some url =>
             match redirect_path url with
             | Some path =>
                 let path := skip_slash path in
                 let protect := utils_searchexp P uri (Some path) in
                 if retcode_eqb protect ESUCCESS then
                   on_response (fun r => httpmessage_result r RESULT_200) ;;
                   ret EREJECT
                 else
                   on_response (fun r =>
                     httpmessage_addheader r str_location url) ;;
                   on_response (fun r =>
                     httpmessage_addheader r str_cachecontrol "no-cache") ;;
                   on_response (fun r => httpmessage_result r RESULT_302) ;;
                   ret code
             | None => crash
             end
         | None =>
             on_response (fun r => httpmessage_result r RESULT_401) ;; ret code
         end) ;;
    (* [ret = ESUCCESS;] closes the block, whatever [ret] held *)
    let code := ESUCCESS in
    ret code
  else ret code.

(** The connector up to the verification: the logout header, the
    search for credentials and their check.  Returns [ret]. *)
Definition _authn_connector_verify (request : http_request) : M retcode :=
  let uriencoded := req_uri request in
  let authorization := httpmessage_REQUEST request str_authenticate in
  let code := if nonempty authorization then ESUCCESS else ECONTINUE in
  if retcode_eqb code ECONTINUE then
    authorization <- _authn_getauthorization request ;;
    match authorization with
    | Some authorization =>
        if an_ctx (mod_authn amod)
        then _authn_checkauthorization authorization
               (req_method request) uriencoded
        else ret code
    | None => ret code
    end
  else ret code.

Definition _authn_connector (request : http_request) : M retcode :=
  let config := mod_config amod in
  let authz := mod_authz amod in
  bound <- gets ctx_info ;;
  match bound with
  | Some info =>
      (if has_flag (az_type authz) (AUTHZ_HEADER_E P)
       then _authn_setauthorization None info httpmessage_addheader ;; ret tt
       else if has_flag (az_type authz) (AUTHZ_COOKIE_E P)
       then _authn_setauthorization None info cookie_set ;; ret tt
       else ret tt) ;;
      ret EREJECT
  | None =>
      let uri := utils_urldecode P (req_uri request) in
      code <- _authn_connector_verify request ;;
      code <-
        (if retcode_eqb code EREJECT then
           info <- gets ctx_info ;;
           httpmessage_SESSION info ;;
           ret code
         else
           let protect := utils_searchexp P uri (protect config) in
           if negb (retcode_eqb protect ESUCCESS) then ret EREJECT
           else
             let protect := utils_searchexp P uri (unprotect config) in
             if retcode_eqb protect ESUCCESS then ret EREJECT
             else ret code) ;;
      if negb (retcode_eqb code EREJECT)
      then _authn_challenge uri request
      else ret code
  end.

(** The connectors that a new connection gets from [_mod_auth_getctx],
    in the order of the calls of [httpclient_addconnector]: the two of
    the module, then those that the scheme's [setup] adds to the
    client when the scheme has one; and the memory after [setup].  The
    server calls [_mod_auth_getctx] for the modules that
    [httpserver_addmod] has registered. *)
Inductive connector : Set :=
| Home_connector
| Authn_connector
| Scheme_connector (name : string).

Definition _mod_auth_getctx (b : backends) : option (list connector * backends) :=
  let connectors :=
    ((if has_flag (az_type (mod_authz amod)) (AUTHZ_HOME_E P)
      then [Home_connector] else [])
     ++ [Authn_connector])%list in
  match an_rules (mod_authn amod) with
  | Some rules =>
      match authn_setup rules with
      | Some setup =>
          let (added, b') := setup b in
          Some ((connectors ++ map Scheme_connector added)%list, b')
      | None => Some (connectors, b)
      end
  | None => None
  end.

(** The requests of one connection, one after the other, each with
    a new response.  Returns, for each request, the connector's
    result and the response it left. *)
Definition start_response : M unit := set_response empty_response.

Fixpoint serve (requests : list http_request)
  : M (list (retcode * http_response)) :=
  match requests with
  | [] => ret []
  | request :: rest =>
      start_response ;;
      code <- _authn_connector request ;;
      r <- gets response ;;
      outcomes <- serve rest ;;
      ret ((code, r) :: outcomes)
  end.

End Connectors.

(** ** Construction of the module *)

(** What a call of [mod_auth_create] leaves: the module returned
    (NULL is [None]), the configuration object, the memory of the
    backends that were created, the seeded generator and the
    messages and registrations, in order. *)
Record created : Type := {
  cr_mod : option _mod_auth_t;
  cr_config : option mod_auth_t;
  cr_memory : option backends;
  cr_rand : rand_state;
  cr_trace : list event
}.

Definition hash_named (h : option hash_t) (name : string) : bool :=
  match h with
  | Some h => String.eqb name (hash_name h)
  | None => false
  end.

(** The choice of [mod->authn->hash], with the warning it may print. *)
Definition select_hash (algo : option string) : option hash_t * list event :=
  let '(hash, log) :=
    match algo with
    | Some name =>
        if hash_named (hash_sha1 P) name then (hash_sha1 P, [])
        else if hash_named (hash_sha224 P) name then (hash_sha224 P, [])
        else if hash_named (hash_sha256 P) name then (hash_sha256 P, [])
        else if hash_named (hash_sha512 P) name then (hash_sha512 P, [])
        else (None, [EvWarn "auth: bad algorithm"])
    | None => (None, [])
    end in
  match hash with
  | Some _ => (hash, log)
  | None => (hash_md5 P, log)
  end.

Definition with_authz_type (config : mod_auth_t) (t : Z) : mod_auth_t :=
  {| authn_type := authn_type config; authz_type := t;
     authn_config := authn_config config; authz_config := authz_config config;
     algo := algo config; protect := protect config;
     unprotect := unprotect config; redirect := redirect config;
     expire := expire config |}.

Definition with_protect (config : mod_auth_t) (p : option string) : mod_auth_t :=
  {| authn_type := authn_type config; authz_type := authz_type config;
     authn_config := authn_config config; authz_config := authz_config config;
     algo := algo config; protect := p;
     unprotect := unprotect config; redirect := redirect config;
     expire := expire config |}.

Definition mod_auth_create (now : Z) (config : option mod_auth_t) : created :=
  let seeded := srandom P now in
  match config with
  | None =>
      {| cr_mod := None; cr_config := None; cr_memory := None;
         cr_rand := seeded; cr_trace := [] |}
  | Some config =>
      let type_of_authz := authz_type config in
      match entry authz_rules
              (Z.to_nat (Z.land (authz_type config) (AUTHZ_TYPE_MASK P))) with
      | None =>
          {| cr_mod := None; cr_config := Some config; cr_memory := None;
             cr_rand := seeded;
             cr_trace :=
               [EvErr "authentication storage not set, change configuration"] |}
      | Some rules_of_authz =>
          let '(generatetoken, config, log_token) :=
            if AUTHZ_JWT P then (Some Authz_generatejwtoken, config, [])
            else
              if has_flag (authz_type config) (AUTHZ_TOKEN_E P)
                 && match authz_join rules_of_authz with
                    | None => true
                    | Some _ => false
                    end
              then
                (None,
                 with_authz_type config
                   (Z.land (authz_type config) (Z.lnot (AUTHZ_TOKEN_E P))),
                 [EvErr "Please use other authz module (sqlite) to enable token"])
              else (Some Authz_generatetoken, config, []) in
          match authz_create rules_of_authz (authz_config config) with
          | None =>
              {| cr_mod := None; cr_config := Some config; cr_memory := None;
                 cr_rand := seeded; cr_trace := log_token |}
          | Some store =>
              let rules_of_authn := entry (authn_rules P) (authn_type config) in
              let log_rules :=
                match rules_of_authn with
                | None =>
                    [EvErr "authentication type is not availlable, change configuration"]
                | Some _ => []
                end in
              let '(hash, log_hash) := select_hash (algo config) in
              let ctx_of_authn :=
                match rules_of_authn with
                | Some rules => authn_create rules hash (authn_config config) store
                | None => None
                end in
              match ctx_of_authn with
              | Some b =>
                  let type := nth (authn_type config) str_authenticate_types "" in
                  let config :=
                    if negb (nonempty (protect config))
                    then with_protect config (Some str_wilcard)
                    else config in
                  {| cr_mod :=
                       Some
                         {| mod_config := config;
                            mod_type := type;
                            mod_typelength := String.length type;
                            mod_authn :=
                              {| an_type := authn_type config;
                                 an_rules := rules_of_authn;
                                 an_ctx := true;
                                 an_hash := hash |};
                            mod_authz :=
                              {| az_type := type_of_authz;
                                 az_rules := rules_of_authz;
                                 az_generatetoken := generatetoken |} |};
                     cr_config := Some config;
                     cr_memory := Some b;
                     cr_rand := seeded;
                     cr_trace := (log_token ++ log_rules ++ log_hash ++ [EvAddmod])%list |}
              | None =>
                  let store :=
                    match rules_of_authn, authz_destroy rules_of_authz with
                    | Some _, Some destroy => destroy store
                    | _, _ => store
                    end in
                  {| cr_mod := None; cr_config := Some config;
                     cr_memory := Some store; cr_rand := seeded;
                     cr_trace := (log_token ++ log_rules ++ log_hash)%list |}
              end
          end
      end
  end.

(** The connection state with which the first request of a new
    connection starts ([_mod_auth_getctx] zeroes the context). *)
Definition new_connection (b : backends) (g : rand_state) : state :=
  {| ctx_info := None; session := None; response := empty_response;
     memory := b; rand := g; trace := [] |}.

(** ** Vocabulary of the properties *)

(** A list of fields written through one of the two setters. *)
Definition set_fields (httpmessage_set : _httpmessage_set) (l : fields)
    (r : http_response) : http_response :=
  fold_left (fun r kv => httpmessage_set r (fst kv) (snd kv)) l r.

(** The identity as it is shown to the client: the token, or else the
    authorization when there is one, then user, group and home. *)
Definition identity_fields (authorization : option string)
    (info : authsession_t) : fields :=
  (match (if AUTH_TOKEN P then info_token info else None) with
   | Some token => [(str_xtoken, token)]
   | None =>
       match authorization with
       | Some a => [(str_authorization, a)]
       | None => []
       end
   end ++ [(str_xuser, info_user info); (str_xgroup, info_group info);
           (str_xhome, "~/")])%list.

(** The identity propagated through the configured transport. *)
Definition propagate (amod : _mod_auth_t) (authorization : option string)
    (info : authsession_t) (r : http_response) : http_response :=
  if has_flag (az_type (mod_authz amod)) (AUTHZ_HEADER_E P)
  then set_fields httpmessage_addheader (identity_fields authorization info) r
  else if has_flag (az_type (mod_authz amod)) (AUTHZ_COOKIE_E P)
  then set_fields cookie_set (identity_fields authorization info) r
  else r.

(** The path needs no authentication: it does not match [protect], or
    it matches [unprotect]. *)
Definition unprotected (config : mod_auth_t) (uri : string) : bool :=
  negb (retcode_eqb (utils_searchexp P uri (protect config)) ESUCCESS)
  || retcode_eqb (utils_searchexp P uri (unprotect config)) ESUCCESS.

(** The part of string after the credential scheme's name, which is
    what [check] receives. *)
Definition credential (authorization : string) : string :=
  match CString.strchr authorization " " with
  | Some at_space => CString.advance 1 at_space
  | None => authorization
  end.

(** The bytes that [n] calls of [random] put into the nonce, and the
    generator they leave. *)
Fixpoint draw (n : nat) (g : rand_state) : list Z * rand_state :=
  match n with
  | O => ([], g)
  | S n' =>
      let (r, g1) := random P g in
      let (rest, g2) := draw n' g1 in
      ((int_bytes r ++ rest)%list, g2)
  end.

Definition add_events (evs : list event) (s : state) : state :=
  fold_left (fun s e => add_event e s) evs s.

(** The calls and warnings of the privilege transition. *)
Definition change_user_events (user : string) : list event :=
  match getpwnam P user with
  | Some (pw_uid, pw_gid) =>
      ([EvSeteuid (getuid P)]
       ++ (if seteuid P (getuid P) then []
           else [EvWarn "not enought rights to change user"])
       ++ [EvSetegid pw_gid]
       ++ (if setegid P pw_gid then []
           else [EvWarn "not enought rights to change group"])
       ++ [EvSeteuid pw_uid]
       ++ (if seteuid P pw_uid then []
           else [EvWarn "not enought rights to change user"]))%list
  | None => []
  end.

(** The session that a first verification of [user] builds, given the
    token it was issued and the memory in which the store is read. *)
Definition session_info (amod : _mod_auth_t) (token : option string)
    (b : backends) (user : string) : authsession_t :=
  {| info_type := CString.strncpy (sizeof_type P) (mod_type amod);
     info_user := CString.strncpy (sizeof_user P) user;
     info_group :=
       match authz_group (az_rules (mod_authz amod)) with
       | Some group_of =>
           match group_of b user with
           | Some group => CString.strncpy (sizeof_group P) group
           | None => EmptyString
           end
       | None => EmptyString
       end;
     info_home :=
       match authz_home (az_rules (mod_authz amod)) with
       | Some home_of =>
           match home_of b user with
           | Some home => CString.strncpy (sizeof_home P) home
           | None => EmptyString
           end
       | None => EmptyString
       end;
     info_token := token |}.

(** The state once the store has joined [token] to [user], when the
    store has a [join]. *)
Definition joined (amod : _mod_auth_t) (user token : string) (s : state)
  : state :=
  match authz_join (az_rules (mod_authz amod)) with
  | Some join =>
      put_memory
        (snd (join (memory s) user token (expire (mod_config amod))))
        (add_event (EvJoin user token (expire (mod_config amod))) s)
  | None => s
  end.

(** [m] only appends to the trace, and only events that satisfy [q]. *)
Definition steps {A : Type} (q : event -> bool) (m : M A) : Prop :=
  forall s a s',
    m s = Some (a, s') ->
    exists evs, trace s' = (trace s ++ evs)%list /\ forallb q evs = true.

(** The method that [check] receives. *)
Definition method_checked (amod : _mod_auth_t) (method : string) : string :=
  match redirect (mod_config amod) with
  | Some _ => str_head
  | None => method
  end.

(** The state in which [check] leaves the connection. *)
Definition checked (amod : _mod_auth_t) (rules : authn_rules_t)
    (authorization method uri : string) (s : state) : state :=
  put_memory
    (snd (authn_check rules (memory s) (method_checked amod method) uri
            (credential authorization)))
    (add_event (EvCheck (method_checked amod method) uri (credential authorization)) s).

Definition is_check (e : event) : bool :=
  match e with EvCheck _ _ _ => true | _ => false end.

Definition is_challenge (e : event) : bool :=
  match e with EvChallenge => true | _ => false end.

Definition is_addmod (e : event) : bool :=
  match e with EvAddmod => true | _ => false end.

End ModAuth.

(** ** A small installation, to run the module on

    One identity store without [join] and one with it, the schemes
    None and Basic, a pattern matcher with a final star, and a linear
    congruential generator. *)

Module Scenario.

Definition store : Type := list (string * string).

Definition group_of (_ : store) (user : string) : option string :=
  if String.eqb user "alice" then Some "users" else None.

Definition home_of (_ : store) (user : string) : option string :=
  if String.eqb user "alice" then Some "/home/alice" else None.

Definition simple_rules : authz_rules_t store unit :=
  {| authz_create := fun _ => Some [];
     authz_group := Some group_of;
     authz_home := Some home_of;
     authz_join := None;
     authz_destroy := None |}.

Definition sqlite_rules : authz_rules_t store unit :=
  {| authz_create := fun _ => Some [];
     authz_group := Some group_of;
     authz_home := Some home_of;
     authz_join := Some (fun b user token _ => (0, (token, user) :: b));
     authz_destroy := None |}.

Definition none_rules : authn_rules_t store unit :=
  {| authn_create := fun _ _ b => Some b;
     authn_setup := None;
     authn_check := fun b _ _ _ => (None, b);
     authn_challenge := fun b _ r => (ECONTINUE, r, b);
     authn_destroy := None |}.

(** [YWxpY2U6c2VjcmV0] is alice:secret. *)
Definition basic_rules : authn_rules_t store unit :=
  {| authn_create := fun _ _ b => Some b;
     authn_setup := None;
     authn_check := fun b _ _ material =>
       (if String.eqb material "YWxpY2U6c2VjcmV0" then Some "alice"
        else lookup material b, b);
     authn_challenge := fun b _ r =>
       (ESUCCESS,
        httpmessage_result
          (httpmessage_addheader r "WWW-Authenticate" "Basic realm=ouistiti")
          RESULT_401, b);
     authn_destroy := None |}.

Fixpoint wildcard (pattern s : string) : bool :=
  match pattern with
  | EmptyString => match s with EmptyString => true | _ => false end
  | String "*" EmptyString => true
  | String c pattern' =>
      match s with
      | String d s' => Ascii.eqb c d && wildcard pattern' s'
      | EmptyString => false
      end
  end.

Definition searchexp (s : string) (pattern : option string) : retcode :=
  match pattern with
  | Some p => if wildcard p s then ESUCCESS else EREJECT
  | None => EREJECT
  end.

Definition lcg (g : Z) : Z * Z :=
  let g' := (g * 1103515245 + 12345) mod 2147483648 in (g', g').

Definition linux : platform store unit unit Z :=
  {| AUTHZ_TYPE_MASK := 15;
     AUTHZ_UNIX_E := 3;
     AUTHZ_HOME_E := 16;
     AUTHZ_TOKEN_E := 32;
     AUTHZ_HEADER_E := 64;
     AUTHZ_COOKIE_E := 128;
     sizeof_type := 8;
     sizeof_user := 32;
     sizeof_group := 32;
     sizeof_home := 128;
     AUTH_TOKEN := true;
     AUTHZ_JWT := false;
     have_RESULT_301 := true;
     authn_rules := [Some none_rules; Some basic_rules; None; None; None];
     authz_rules_from_1 := [Some simple_rules; None; None; Some sqlite_rules; None];
     authz_generatejwtoken := fun _ _ => EmptyString;
     utils_searchexp := searchexp;
     utils_urldecode := fun s => s;
     hash_sha1 := None;
     hash_sha224 := None;
     hash_sha256 := Some {| hash_name := "SHA-256" |};
     hash_sha512 := None;
     hash_md5 := Some {| hash_name := "MD5" |};
     srandom := fun seed => seed;
     random := lcg;
     getpwnam := fun _ => None;
     getuid := 0;
     seteuid := fun _ => true;
     setegid := fun _ => true |}.

Definition configuration (scheme : nat) (flags : Z) (login : option string)
  : mod_auth_t unit unit :=
  {| authn_type := scheme; authz_type := flags;
     authn_config := tt; authz_config := tt;
     algo := None; protect := None; unprotect := Some "public/*";
     redirect := login; expire := 3600 |}.

(** Basic over the simple store, identity in the headers. *)
Definition basic_simple := configuration 1 (Z.lor 1 64) None.
(** No scheme, a login page. *)
Definition login_page := configuration 0 (Z.lor 1 64) (Some "/login").
(** No scheme, a login url without path. *)
Definition login_host := configuration 0 (Z.lor 1 64) (Some "http://host").
(** Tokens asked of a store that cannot join them. *)
Definition token_simple := configuration 1 (Z.lor 1 (Z.lor 32 64)) None.
(** Tokens with a store that joins them. *)
Definition token_sqlite := configuration 1 (Z.lor 4 (Z.lor 32 64)) None.

Definition no_engine : _mod_auth_t store unit unit :=
  {| mod_config := configuration 0 0 None;
     mod_type := EmptyString; mod_typelength := 0;
     mod_authn := {| an_type := 0; an_rules := None; an_ctx := false;
                     an_hash := None |};
     mod_authz := {| az_type := 0; az_rules := simple_rules;
                     az_generatetoken := None |} |}.

(** The module that [mod_auth_create] returns for a configuration. *)
Definition engine (config : mod_auth_t unit unit) : _mod_auth_t store unit unit :=
  match cr_mod (mod_auth_create linux 2026 (Some config)) with
  | Some m => m
  | None => no_engine
  end.

Definition request (method uri : string) (hdrs : fields) : http_request :=
  {| req_method := method; req_uri := uri; req_headers := hdrs;
     req_cookies := [] |}.

(** The Authorization header of alice:secret. *)
Definition alice_basic : string := "Basic YWxpY2U6c2VjcmV0".

Definition fresh : state store Z := new_connection [] 2026.

Definition alice : authsession_t :=
  {| info_type := "Basic"; info_user := "alice"; info_group := "users";
     info_home := "/home/alice"; info_token := None |}.

(** A connection on which alice has been verified. *)
Definition bound : state store Z :=
  put_session (Some alice) (put_ctx_info (Some alice) fresh).

End Scenario.

(** * The callers in main.c *)

Module LibC.

(** [strcmp(s1, s2)], as the sign of its result. *)
Fixpoint strcmp (s1 s2 : string) : comparison :=
  match s1, s2 with
  | EmptyString, EmptyString => Eq
  | EmptyString, String _ _ => Lt
  | String _ _, EmptyString => Gt
  | String c1 r1, String c2 r2 =>
      if Ascii.eqb c1 c2 then strcmp r1 r2
      else Nat.compare (nat_of_ascii c1) (nat_of_ascii c2)
  end.

(** The C condition [!strcmp(s1, s2)]. *)
Definition same (s1 s2 : string) : bool :=
  match strcmp s1 s2 with Eq => true | _ => false end.

(** [s[0]]: the first character, or the final NUL of an empty string. *)
Definition first_char (s : string) : ascii :=
  match s with
  | EmptyString => zero
  | String c _ => c
  end.

(** The last character of [s]; none when [s] is empty, where
    [s[strlen(s) - 1]] is the byte in front of the string. *)
Fixpoint last_char (s : string) : option ascii :=
  match s with
  | EmptyString => None
  | String c EmptyString => Some c
  | String _ r => last_char r
  end.

End LibC.

Section Callers.

Variables backends authn_config_t authz_config_t rand_state : Type.
Variable P : platform backends authn_config_t authz_config_t rand_state.

Local Notation "x <- c1 ;; c2" := (bind c1 (fun x => c2))
  (at level 61, c1 at next level, right associativity).
Local Notation "c1 ;; c2" := (bind c1 (fun _ => c2))
  (at level 61, right associativity).

(** [auth_info(request, key)]: the field of the session that the auth
    connector stored, or NULL. *)
Definition auth_info (key : string) : M backends rand_state (option string) :=
  info <- httpmessage_SESSION None ;;
  match info with
  | None => ret None
  | Some info =>
      let value : option string := None in
      let value := if LibC.same key "user" then Some (info_user info) else value in
      let value := if LibC.same key "group" then Some (info_group info) else value in
      let value := if LibC.same key "type" then Some (info_type info) else value in
      let value := if LibC.same key "home" then Some (info_home info) else value in
      ret value
  end.

(** [auth_setowner(user)], the change of owner at startup; [HAVE_PWD]
    is the build switch. *)
Definition auth_setowner (HAVE_PWD : bool) (user : string)
  : M backends rand_state retcode :=
  if HAVE_PWD then
    match getpwnam P user with
    | Some (pw_uid, pw_gid) =>
        let uid := getuid P in
        emit (EvSeteuid uid) ;;
        if negb (seteuid P uid)
        then warn "not enought rights to change user" ;; ret EREJECT
        else
          emit (EvSetegid pw_gid) ;;
          if negb (setegid P pw_gid)
          then warn "not enought rights to change group" ;; ret EREJECT
          else
            emit (EvSeteuid pw_uid) ;;
            if negb (seteuid P pw_uid)
            then warn "not enought rights to change user" ;; ret EREJECT
            else ret ESUCCESS
    | None => ret EREJECT
    end
  else ret ESUCCESS.

(** The calls that change the owner of the process. *)
Definition is_setid (e : event) : bool :=
  match e with
  | EvSeteuid _ | EvSetegid _ => true
  | _ => false
  end.

End Callers.

(** ** The modules of a server *)

Section Modules.

(** The object of a module, the configuration it is created from, the
    parser of the configuration file. *)
Variables obj cfg parser : Type.

(** Modelled from the spec: [module_t] of ouistiti.h, which is not
    part of the source, with the fields that main.c reads. *)
Record module_t : Type := {
  module_name : string;
  module_version : Z;
  module_configure : option (parser -> option cfg);
  module_create : option cfg -> option obj;
  module_destroy : bool
}.

(** [configure_t], the configuration callback of the caller. *)
Definition configure_t : Type := parser -> module_t -> option cfg.

(** [mod_t], one entry of [server->modules]. *)
Record mod_t : Type := {
  slot_obj : option obj;
  slot_ops : option module_t
}.

Definition MAX_MODULES : nat := 16.

(** What main.c takes from ouistiti.h. *)
Record main_platform : Type := {
  MAX_SERVERS : nat;
  MODULE_VERSION_DEPRECATED : Z;
  MODULE_VERSION_CURRENT : Z
}.

Variable Q : main_platform.

(** The array [server->modules] as [calloc] leaves it. *)
Definition no_module : mod_t := {| slot_obj := None; slot_ops := None |}.

Definition empty_modules : list mod_t := repeat no_module (MAX_MODULES + MAX_SERVERS Q).

Inductive main_event : Type :=
| MWarn (msg name : string)
| MCreate (name : string) (config : option cfg)
| MDestroy (name : string) (o : obj).

(** The loop of [ouistiti_loadmodule]: the index of the first entry
    without object, or [limit] when the first [limit] entries have
    one. *)
Fixpoint first_free (modules : list mod_t) (limit : nat) : nat :=
  match limit with
  | O => O
  | S limit' =>
      match modules with
      | m :: rest =>
          match slot_obj m with
          | Some _ => S (first_free rest limit')
          | None => O
          end
      | [] => O
      end
  end.

(** [modules[i] = m]. *)
Fixpoint store_at (modules : list mod_t) (i : nat) (m : mod_t) : list mod_t :=
  match modules, i with
  | [], _ => []
  | _ :: rest, O => m :: rest
  | x :: rest, S i' => x :: store_at rest i' m
  end.

Definition ouistiti_loadmodule (modules : list mod_t) (module : module_t)
    (configure : option configure_t) (p : parser)
  : retcode * list mod_t * list main_event :=
  let i := first_free modules MAX_MODULES in
  if Nat.eqb i MAX_MODULES then (EREJECT, modules, [])
  else if has_flag (module_version module) (MODULE_VERSION_DEPRECATED Q)
  then (EREJECT, modules, [MWarn "module deprecated" (module_name module)])
  else
    let log :=
      if module_version module <? MODULE_VERSION_CURRENT Q
      then [MWarn "module old. Please check" (module_name module)] else [] in
    let config :=
      match module_configure module with
      | Some own => own p
      | None =>
          match configure with
          | Some given => given p module
          | None => None
          end
      end in
    let o := module_create module config in
    ((match o with Some _ => ESUCCESS | None => EREJECT end),
     store_at modules i {| slot_obj := o; slot_ops := Some module |},
     (log ++ [MCreate (module_name module) config])%list).

(** [ouistiti_setmodules]: every registered module in the order of
    [g_modules], whatever [ouistiti_loadmodule] returns. *)
Fixpoint ouistiti_setmodules (g_modules : list module_t) (modules : list mod_t)
    (configure : option configure_t) (p : parser)
  : list mod_t * list main_event :=
  match g_modules with
  | [] => (modules, [])
  | module :: next =>
      let '(_, modules1, log1) := ouistiti_loadmodule modules module configure p in
      let '(modules2, log2) := ouistiti_setmodules next modules1 configure p in
      (modules2, (log1 ++ log2)%list)
  end.

(** The search of [ouistiti_registermodule] in [g_modules]. *)
Fixpoint registered (g_modules : list module_t) (name : string) : bool :=
  match g_modules with
  | [] => false
  | m :: next =>
      if LibC.same (module_name m) name then true else registered next name
  end.

(** [ouistiti_registermodule]: the new list [g_modules]. *)
Definition ouistiti_registermodule (g_modules : list module_t) (module : module_t)
  : list module_t * list main_event :=
  if registered g_modules (module_name module)
  then (g_modules, [MWarn "module loaded twice" (module_name module)])
  else (module :: g_modules, []).

(** The inner loop of [main_destroy] on the modules of one server.
    [None] when the scan leaves the array or reads the operations of
    an entry that has none. *)
Fixpoint destroy_modules (modules : list mod_t) : option (list main_event) :=
  match modules with
  | [] => None
  | m :: rest =>
      match slot_obj m with
      | None => Some []
      | Some o =>
          match slot_ops m with
          | None => None
          | Some ops =>
              match destroy_modules rest with
              | Some log =>
                  Some ((if module_destroy ops
                         then [MDestroy (module_name ops) o] else [])
                        ++ log)%list
              | None => None
              end
          end
      end
  end.

(** The modules registered one after the other, from an empty list. *)
Definition register_all (modules : list module_t) : list module_t :=
  fold_left (fun g m => fst (ouistiti_registermodule g m)) modules [].

(** The entries that hold an object. *)
Definition loaded (modules : list mod_t) : list mod_t :=
  filter (fun m => match slot_obj m with Some _ => true | None => false end) modules.

(** The configuration that a module is created with. *)
Definition config_of (configure : option configure_t) (p : parser)
    (module : module_t) : option cfg :=
  match module_configure module with
  | Some own => own p
  | None =>
      match configure with
      | Some given => given p module
      | None => None
      end
  end.

(** The entries that the modules of [g_modules] would fill one after
    the other in an array without end: one for each module that is not
    deprecated and whose [create] gives an object. *)
Definition entries_of (configure : option configure_t) (p : parser)
    (g_modules : list module_t) : list mod_t :=
  flat_map
    (fun module =>
       if has_flag (module_version module) (MODULE_VERSION_DEPRECATED Q)
       then []
       else
         match module_create module (config_of configure p module) with
         | Some o => [{| slot_obj := Some o; slot_ops := Some module |}]
         | None => []
         end)
    g_modules.

(** The calls of [destroy] for a list of entries. *)
Definition destroyed (entries : list mod_t) : list main_event :=
  flat_map
    (fun e =>
       match slot_obj e, slot_ops e with
       | Some o, Some ops =>
           if module_destroy ops then [MDestroy (module_name ops) o] else []
       | _, _ => []
       end)
    entries.

(** An entry with its object and its operations, and an entry
    without object. *)
Definition is_full (e : mod_t) : bool :=
  match slot_obj e, slot_ops e with
  | Some _, Some _ => true
  | _, _ => false
  end.

Definition is_free (e : mod_t) : bool :=
  match slot_obj e with
  | Some _ => false
  | None => true
  end.

(** *** The servers *)

(** The handle of an http server and the settings it is created from,
    apart from the port. *)
Variables srv settings : Type.
Variable httpserver_create : Z -> settings -> option srv.

(** Modelled from the spec: [serverconfig_t] of ouistiti.h, with the
    port and the other settings of [config->server] and the
    configuration of the modules. *)
Record serverconfig_t : Type := {
  port : Z;
  server_settings : settings;
  modulesconfig : parser
}.

(** [server_t]; the list of the servers is a list of these. *)
Record server_t : Type := {
  server_config : serverconfig_t;
  server_http : srv;
  server_modules : list mod_t;
  server_id : Z
}.

(** [ouistiti_loadserver(config, id)], with the global variables it
    reads: the registered modules, the default port and [first]. *)
Definition ouistiti_loadserver (g_modules : list module_t) (g_default_port : Z)
    (first : option server_t) (config : serverconfig_t) (id : Z)
  : option server_t * list main_event :=
  let id :=
    match first with
    | None => if id =? -1 then 0 else id
    | Some _ => id
    end in
  if match first with
     | Some f => server_id f =? Z.of_nat (MAX_SERVERS Q)
     | None => false
     end
  then (None, [])
  else
    let config :=
      if port config =? 0
      then {| port := g_default_port; server_settings := server_settings config;
              modulesconfig := modulesconfig config |}
      else config in
    match httpserver_create (port config) (server_settings config) with
    | None => (None, [])
    | Some httpserver =>
        let sid :=
          if id =? -1
          then match first with
               | Some f => server_id f + 1
               | None => id
               end
          else id in
        let '(modules, log) :=
          ouistiti_setmodules g_modules empty_modules None (modulesconfig config) in
        (Some {| server_config := config; server_http := httpserver;
                 server_modules := modules; server_id := sid |}, log)
    end.

(** The loop of [ouistiti_loadservers] from entry [i] of the array of
    configurations, with the local [id] and the local list [first]. *)
Fixpoint loadservers_from (g_modules : list module_t) (g_default_port : Z)
    (g_first : option server_t) (configs : list (option serverconfig_t))
    (serverid : Z) (i : Z) (id : Z) (first : list server_t) : list server_t :=
  match configs with
  | [] => first
  | entry_i :: rest =>
      if negb (serverid =? -1) && negb (i =? serverid)
      then loadservers_from g_modules g_default_port g_first rest serverid
             (i + 1) id first
      else
        match entry_i with
        | Some config =>
            let server :=
              fst (ouistiti_loadserver g_modules g_default_port g_first config id) in
            loadservers_from g_modules g_default_port g_first rest serverid
              (i + 1) (id + 1)
              (match server with
               | Some server => server :: first
               | None => first
               end)
        | None =>
            loadservers_from g_modules g_default_port g_first rest serverid
              (i + 1) id first
        end
  end.

Definition ouistiti_loadservers (g_modules : list module_t) (g_default_port : Z)
    (g_first : option server_t) (configs : list (option serverconfig_t))
    (serverid : Z) : list server_t :=
  loadservers_from g_modules g_default_port g_first configs serverid 0 0 [].

(** The configured entries of the array with their ranks, counted from
    [id]. *)
Fixpoint ranked (configs : list (option serverconfig_t)) (id : Z)
  : list (Z * serverconfig_t) :=
  match configs with
  | [] => []
  | Some config :: more => (id, config) :: ranked more (id + 1)
  | None :: more => ranked more id
  end.

End Modules.

(** * mod_filestorage.c *)

Definition RESULT_400 : Z := 400.

Section FileStorage.

(** A literal of the source that holds double quotes, written with
    single quotes in their place. *)
Fixpoint quoted (s : string) : string :=
  match s with
  | EmptyString => EmptyString
  | String c r =>
      String (if Ascii.eqb c "'"%char then "034"%char else c) (quoted r)
  end.

(** Modelled from the spec: [static_file_connector_t] of
    mod_static_file.h, which is not part of the source, with the fields
    that the connector uses. *)
Record static_file_connector_t : Type := {
  path_info : option string;
  filepath : option string;
  fd : Z
}.

(** What the connector does, in order: its messages, its calls on the
    response, with the arguments of the source, and its calls on the
    files. *)
Inductive file_event : Type :=
| FWarn (msg text : string)
| FErr (msg text : string)
| FResult (code : Z)
| FAddcontent (type content : string) (length : Z)
| FAppendcontent (content : string) (length : Z)
| FMkdir (path : string)
| FOpen (path : string)
| FWrite (descriptor : Z) (input : string) (inputlen : Z)
| FClose (descriptor : Z)
| FUnlink (path : string).

(** The request: its method, and what [httpmessage_content] gives,
    the part of the content at hand, its length and the rest. *)
Record file_request : Type := {
  file_method : string;
  input : string;
  inputlen : Z;
  rest : Z
}.

(** The build, the system calls and httpserver/utils.h; and the byte
    that the memory holds in front of [private->path_info], which the
    connector reads when the name is empty. *)
Record file_platform : Type := {
  have_RESULT_403 : bool;
  utils_buildpath : string -> string -> string;
  sys_mkdir : string -> Z;
  sys_open : string -> Z;
  sys_unlink : string -> Z;
  byte_before_path_info : ascii
}.

Variable F : file_platform.
(** [config->docroot]. *)
Variable docroot : string.

Record file_state : Type := {
  private : static_file_connector_t;
  file_trace : list file_event
}.

Definition FM (A : Type) : Type := file_state -> option (A * file_state).

Definition fret {A : Type} (a : A) : FM A := fun s => Some (a, s).

Definition fbind {A B : Type} (m : FM A) (k : A -> FM B) : FM B :=
  fun s => match m s with
           | Some (a, s') => k a s'
           | None => None
           end.

Local Notation "x <- c1 ;; c2" := (fbind c1 (fun x => c2))
  (at level 61, c1 at next level, right associativity).
Local Notation "c1 ;; c2" := (fbind c1 (fun _ => c2))
  (at level 61, right associativity).

(** A read through a NULL pointer. *)
Definition file_crash {A : Type} : FM A := fun _ => None.

Definition fgets {A : Type} (f : file_state -> A) : FM A :=
  fun s => Some (f s, s).

Definition log_file (e : file_event) : FM unit :=
  fun s => Some (tt, {| private := private s;
                        file_trace := (file_trace s ++ [e])%list |}).

Definition set_private (p : static_file_connector_t) : FM unit :=
  fun s => Some (tt, {| private := p; file_trace := file_trace s |}).

(** The status of a refusal: RESULT_403 when it is defined. *)
Definition refusal : Z := if have_RESULT_403 F then RESULT_403 else RESULT_400.

(** The two [free] followed by [= NULL], with the new descriptor. *)
Definition release (descriptor : Z) : FM unit :=
  set_private {| path_info := None; filepath := None; fd := descriptor |}.

Definition filestorage_checkname : FM retcode :=
  p <- fgets private ;;
  match path_info p with
  | Some name =>
      if Ascii.eqb (LibC.first_char name) "."
      then
        log_file (FWarn "file name not allowed" name) ;;
        log_file (FResult refusal) ;;
        release (fd p) ;;
        fret ESUCCESS
      else fret EREJECT
  | None => file_crash
  end.

Definition filestorage_connector (request : file_request) : FM retcode :=
  p <- fgets private ;;
  match path_info p with
  | None => fret EREJECT
  | Some name =>
      let method := file_method request in
      if LibC.same method "PUT" then
        checked <- filestorage_checkname ;;
        if retcode_eqb checked ESUCCESS then fret ESUCCESS
        else if fd p =? 0 then
          let path := utils_buildpath F docroot name in
          set_private {| path_info := Some name; filepath := Some path; fd := fd p |} ;;
          (* [private->path_info[length - 1]] *)
          let last :=
            match LibC.last_char name with
            | Some last => last
            | None => byte_before_path_info F
            end in
          if Ascii.eqb last "/" then
            log_file (FAddcontent "text/json"
                        (quoted "{'method':'PUT','name':'") (-1)) ;;
            log_file (FAppendcontent name (-1)) ;;
            log_file (FAppendcontent (quoted "','result':'") (-1)) ;;
            log_file (FMkdir path) ;;
            (if 0 <? sys_mkdir F path then
               log_file (FErr "directory creation not allowed" name) ;;
               log_file (FAppendcontent (quoted "KO'}") (-1)) ;;
               log_file (FResult refusal)
             else
               log_file (FWarn "directory creation" name) ;;
               log_file (FAppendcontent (quoted "OK'}") (-1))) ;;
            release (fd p) ;;
            fret ESUCCESS
          else
            log_file (FOpen path) ;;
            let descriptor := sys_open F path in
            set_private {| path_info := Some name; filepath := Some path;
                           fd := descriptor |} ;;
            if 0 <? descriptor then fret EINCOMPLETE
            else
              log_file (FErr "file creation not allowed" name) ;;
              log_file (FAddcontent "text/json"
                          (quoted "{'method':'PUT','result':'KO','name':'")
                          (-1)) ;;
              log_file (FAppendcontent name (-1)) ;;
              log_file (FAppendcontent (quoted "'}") (-1)) ;;
              log_file (FResult refusal) ;;
              release 0 ;;
              fret ESUCCESS
        else if 0 <? fd p then
          if (0 <? inputlen request) && (0 <? rest request) then
            log_file (FWrite (fd p) (input request) (inputlen request)) ;;
            fret EINCOMPLETE
          else
            log_file (FAddcontent "text/json"
                        (quoted "{'method':'PUT','result':'OK','name':'")
                        (-1)) ;;
            log_file (FAppendcontent name (-1)) ;;
            log_file (FAppendcontent (quoted "'}") (-1)) ;;
            log_file (FClose (fd p)) ;;
            release 0 ;;
            fret ESUCCESS
        else fret EREJECT
      else if LibC.same method "POST" && (fd p =? 0) then
        checked <- filestorage_checkname ;;
        if retcode_eqb checked ESUCCESS then fret ESUCCESS
        else
          let path := utils_buildpath F docroot name in
          set_private {| path_info := Some name; filepath := Some path; fd := fd p |} ;;
          log_file (FWarn "change" path) ;;
          log_file (FAddcontent "text/json"
                      (quoted "{'method':'POST','result':'OK','name':'")
                      (-1)) ;;
          log_file (FAppendcontent name (-1)) ;;
          log_file (FAppendcontent (quoted "'}") 2) ;;
          release 0 ;;
          fret ESUCCESS
      else if LibC.same method "DELETE" && (fd p =? 0) then
        checked <- filestorage_checkname ;;
        if retcode_eqb checked ESUCCESS then fret ESUCCESS
        else
          let path := utils_buildpath F docroot name in
          set_private {| path_info := Some name; filepath := Some path; fd := fd p |} ;;
          log_file (FAddcontent "text/json"
                      (quoted "{'method':'DELETE','name':'") (-1)) ;;
          log_file (FAppendcontent name (-1)) ;;
          log_file (FAppendcontent (quoted "','result':'") (-1)) ;;
          log_file (FUnlink path) ;;
          (if 0 <? sys_unlink F path then
             log_file (FErr "file removing not allowed" name) ;;
             log_file (FAppendcontent (quoted "KO'}") (-1)) ;;
             log_file (FResult refusal)
           else
             log_file (FWarn "remove file :" name) ;;
             log_file (FAppendcontent (quoted "OK'}") (-1))) ;;
          release 0 ;;
          fret ESUCCESS
      else fret EREJECT
  end.

(** The state once a request is answered: the names are released. *)
Definition answered (descriptor : Z) (events : list file_event)
    (s : file_state) : file_state :=
  {| private := {| path_info := None; filepath := None; fd := descriptor |};
     file_trace := (file_trace s ++ events)%list |}.

(** The calls on the files among the events. *)
Definition touches_files (e : file_event) : bool :=
  match e with
  | FMkdir _ | FOpen _ | FWrite _ _ _ | FClose _ | FUnlink _ => true
  | _ => false
  end.

(** The calls on the response among the events. *)
Definition answers (e : file_event) : bool :=
  match e with
  | FResult _ | FAddcontent _ _ _ | FAppendcontent _ _ => true
  | _ => false
  end.

(** The calls of [httpmessage_result] among the events. *)
Definition sets_status (e : file_event) : bool :=
  match e with
  | FResult _ => true
  | _ => false
  end.

(** The characters that the events give to the response, in order:
    all those of a string given with the length -1, the first
    [length] otherwise. *)
Fixpoint content_of (events : list file_event) : string :=
  match events with
  | [] => EmptyString
  | (FAddcontent _ content length | FAppendcontent content length) :: more =>
      (if length <? 0 then content
       else String.substring 0 (Z.to_nat length) content)
      ++ content_of more
  | _ :: more => content_of more
  end.

(** The connector called again and again while the content arrives:
    the results, one for each request. *)
Fixpoint file_calls (requests : list file_request) : FM (list retcode) :=
  match requests with
  | [] => fret []
  | request :: more =>
      code <- filestorage_connector request ;;
      codes <- file_calls more ;;
      fret (code :: codes)
  end.

End FileStorage.

(** * Samples for main.c and mod_filestorage.c *)

Module Samples.

Import Scenario.

(** A request of alice with her credentials. *)
Definition alice_request : http_request :=
  request "GET" "private/doc" [(str_authorization, alice_basic)].

(** The auth connector on a sample, with [s] when it does not return. *)
Definition after (m : _mod_auth_t store unit unit) (r : http_request)
    (s : state store Z) : retcode * state store Z :=
  match _authn_connector linux m r s with
  | Some x => x
  | None => (ECONTINUE, s)
  end.

(** The session of alice as a first verification builds it. *)
Definition session_after : authsession_t * state store Z :=
  match new_session linux (engine basic_simple) "alice" fresh with
  | Some x => x
  | None => (alice, fresh)
  end.

(** A system that knows alice and runs the server without the right
    to change the group. *)
Definition host : platform store unit unit Z :=
  {| AUTHZ_TYPE_MASK := AUTHZ_TYPE_MASK linux;
     AUTHZ_UNIX_E := AUTHZ_UNIX_E linux;
     AUTHZ_HOME_E := AUTHZ_HOME_E linux;
     AUTHZ_TOKEN_E := AUTHZ_TOKEN_E linux;
     AUTHZ_HEADER_E := AUTHZ_HEADER_E linux;
     AUTHZ_COOKIE_E := AUTHZ_COOKIE_E linux;
     sizeof_type := sizeof_type linux;
     sizeof_user := sizeof_user linux;
     sizeof_group := sizeof_group linux;
     sizeof_home := sizeof_home linux;
     AUTH_TOKEN := AUTH_TOKEN linux;
     AUTHZ_JWT := AUTHZ_JWT linux;
     have_RESULT_301 := have_RESULT_301 linux;
     authn_rules := authn_rules linux;
     authz_rules_from_1 := authz_rules_from_1 linux;
     authz_generatejwtoken := authz_generatejwtoken linux;
     utils_searchexp := utils_searchexp linux;
     utils_urldecode := utils_urldecode linux;
     hash_sha1 := hash_sha1 linux;
     hash_sha224 := hash_sha224 linux;
     hash_sha256 := hash_sha256 linux;
     hash_sha512 := hash_sha512 linux;
     hash_md5 := hash_md5 linux;
     srandom := srandom linux;
     random := random linux;
     getpwnam := fun user =>
       if String.eqb user "alice" then Some (1000, 100) else None;
     getuid := 33;
     seteuid := fun uid => uid =? 33;
     setegid := fun _ => false |}.

(** The constants of ouistiti.h. *)
Definition build : main_platform :=
  {| MAX_SERVERS := 4;
     MODULE_VERSION_DEPRECATED := 32768;
     MODULE_VERSION_CURRENT := 1 |}.

(** A module whose object is the length of its name, when [create]
    succeeds. *)
Definition sample_module (name : string) (version : Z) (succeeds : bool)
  : module_t Z string unit :=
  {| module_name := name;
     module_version := version;
     module_configure := None;
     module_create := fun _ =>
       if succeeds then Some (Z.of_nat (String.length name)) else None;
     module_destroy := true |}.

Definition sample_modules : list (module_t Z string unit) :=
  [sample_module "auth" 1 true; sample_module "cgi" 32769 true;
   sample_module "document" 1 false; sample_module "filestorage" 1 true].

(** Two configured servers, the second on the default port, around an
    entry that is not configured; no server can be created on the
    port 0. *)
Definition sample_servers : list (option (serverconfig_t unit unit)) :=
  [Some {| port := 8080; server_settings := tt; modulesconfig := tt |};
   None;
   Some {| port := 0; server_settings := tt; modulesconfig := tt |};
   None].

Definition sample_httpserver_create (port : Z) (_ : unit) : option Z :=
  if port =? 0 then None else Some port.

(** A disk on which nothing can be created or removed, but files can
    be opened. *)
Definition disk : file_platform :=
  {| have_RESULT_403 := true;
     utils_buildpath := fun root name => root ++ "/" ++ name;
     sys_mkdir := fun _ => -1;
     sys_open := fun _ => 5;
     sys_unlink := fun _ => -1;
     byte_before_path_info := "000"%char |}.

(** The start of an exchange on [name]. *)
Definition exchange (name : string) : file_state :=
  {| private := {| path_info := Some name; filepath := None; fd := 0 |};
     file_trace := [] |}.

(** A call of the connector with [content] at hand and [rest] to
    come. *)
Definition part (method content : string) (rest : Z) : file_request :=
  {| file_method := method; input := content;
     inputlen := Z.of_nat (String.length content); rest := rest |}.

(** The connector on a sample, with [s] when it does not return. *)
Definition file_after (request : file_request) (s : file_state)
  : retcode * file_state :=
  match filestorage_connector disk "/srv" request s with
  | Some x => x
  | None => (ECONTINUE, s)
  end.

End Samples.

(** * Properties *)

(** ** Strings *)

Lemma strncmp_prefix (p s : string) :
  CString.strncmp p s (String.length p) = Eq <-> String.prefix p s = true.
Proof.
  revert s; induction p as [|c p IH]; intros s; simpl.
  - destruct s; split; reflexivity.
  - destruct s as [|d s].
    + split; discriminate.
    + simpl. destruct (Ascii.eqb_spec c d) as [->|Hne].
      * destruct (ascii_dec d d) as [_|N]; [apply IH | contradiction].
      * destruct (ascii_dec c d) as [E|_]; [contradiction|].
        split; [|discriminate].
        intros H. apply Nat.compare_eq in H.
        apply (f_equal ascii_of_nat) in H.
        rewrite !ascii_nat_embedding in H. contradiction.
Qed.

Lemma encode_length (k : nat) (bytes : list Z) :
  List.length bytes = (3 * k)%nat ->
  String.length (Base64.encode bytes) = (4 * k)%nat.
Proof.
  revert bytes; induction k as [|k IH]; intros bytes H.
  - destruct bytes; [reflexivity | discriminate].
  - destruct bytes as [|b0 [|b1 [|b2 rest]]]; simpl in H; try lia.
    cbn [Base64.encode String.length]. rewrite (IH rest); lia.
Qed.

(** A string that fits the array is the string read back. *)
Lemma strncpy_fits (size : nat) (s : string) :
  (String.length s <= size)%nat -> CString.strncpy size s = s.
Proof.
  revert s; induction size as [|n IH]; intros [|c r] H; simpl in *;
    try reflexivity; try lia.
  f_equal. apply IH. lia.
Qed.

Lemma retcode_eqb_spec (a b : retcode) : reflect (a = b) (retcode_eqb a b).
Proof. destruct a, b; constructor; congruence. Qed.


(** ** The monad *)

Section Properties.

Variables backends authn_config_t authz_config_t rand_state : Type.
Variable P : platform backends authn_config_t authz_config_t rand_state.
Variable amod : _mod_auth_t backends authn_config_t authz_config_t.

Local Abbreviation State := (state backends rand_state).
Local Abbreviation Monad := (M backends rand_state).

Lemma bind_inv (A B : Type) (m : Monad A) (k : A -> Monad B)
    (s s' : State) (b : B) :
  bind m k s = Some (b, s') ->
  exists a s0, m s = Some (a, s0) /\ k a s0 = Some (b, s').
Proof.
  unfold bind. destruct (m s) as [[a s0]|]; [|discriminate].
  intros H. exists a, s0. split; [reflexivity | exact H].
Qed.

Lemma bind_run (A B : Type) (m : Monad A) (k : A -> Monad B)
    (s s0 : State) (a : A) (H : m s = Some (a, s0)) :
  bind m k s = k a s0.
Proof. unfold bind. rewrite H. reflexivity. Qed.

Arguments bind_run [A B m] k [s s0 a] H.

Lemma bind_gets (A B : Type) (f : State -> A) (k : A -> Monad B) (s : State) :
  bind (gets f) k s = k (f s) s.
Proof. reflexivity. Qed.

Lemma bind_ret (A B : Type) (a : A) (k : A -> Monad B) (s : State) :
  bind (ret a) k s = k a s.
Proof. reflexivity. Qed.

Lemma bind_bind (A B C : Type) (m : Monad A) (k : A -> Monad B)
    (h : B -> Monad C) (s : State) :
  bind (bind m k) h s = bind m (fun a => bind (k a) h) s.
Proof. unfold bind. destruct (m s) as [[a s0]|]; reflexivity. Qed.

Lemma bind_modify (B : Type) (f : State -> State) (k : unit -> Monad B)
    (s : State) :
  bind (modify f) k s = k tt (f s).
Proof. reflexivity. Qed.

Lemma bind_emit (B : Type) (e : event) (k : unit -> Monad B) (s : State) :
  bind (emit e) k s = k tt (add_event e s).
Proof. reflexivity. Qed.

Ltac monad_simpl :=
  repeat (cbn beta;
          first [ rewrite bind_bind | rewrite bind_ret | rewrite bind_gets
                | rewrite bind_modify | rewrite bind_emit ]).

Lemma put_response_same (s : State) : put_response (response s) s = s.
Proof. destruct s; reflexivity. Qed.

Lemma put_rand_same (s : State) : put_rand (rand s) s = s.
Proof. destruct s; reflexivity. Qed.

Lemma add_events_trace (evs : list (event)) (s : State) :
  trace (add_events evs s) = (trace s ++ evs)%list.
Proof.
  revert s; induction evs as [|e evs IH]; intros s; simpl.
  - now rewrite app_nil_r.
  - rewrite IH. simpl. now rewrite <- app_assoc.
Qed.

Lemma add_events_fields (evs : list event) (s : State) :
  ctx_info (add_events evs s) = ctx_info s
  /\ session (add_events evs s) = session s
  /\ response (add_events evs s) = response s
  /\ memory (add_events evs s) = memory s
  /\ rand (add_events evs s) = rand s.
Proof.
  revert s; induction evs as [|e evs IH]; intros s; simpl.
  - repeat split.
  - destruct (IH (add_event e s)) as (H1 & H2 & H3 & H4 & H5).
    rewrite H1, H2, H3, H4, H5. repeat split.
Qed.

(** ** Propagation of the identity *)

Lemma set_fields_cons (setter : _httpmessage_set) (k v : string) (l : fields)
    (r : http_response) :
  set_fields setter ((k, v) :: l) r = set_fields setter l (setter r k v).
Proof. reflexivity. Qed.

Lemma set_fields_addheader (l : fields) (r : http_response) :
  set_fields httpmessage_addheader l r
  = {| result := result r; headers := (headers r ++ l)%list; cookies := cookies r |}.
Proof.
  revert r; induction l as [|[k v] l IH]; intros r.
  - cbn [set_fields fold_left]. rewrite app_nil_r. now destruct r.
  - rewrite set_fields_cons, IH.
    cbn [httpmessage_addheader result headers cookies].
    now rewrite <- app_assoc.
Qed.

Lemma set_fields_cookie_set (l : fields) (r : http_response) :
  set_fields cookie_set l r
  = {| result := result r; headers := headers r; cookies := (cookies r ++ l)%list |}.
Proof.
  revert r; induction l as [|[k v] l IH]; intros r.
  - cbn [set_fields fold_left]. rewrite app_nil_r. now destruct r.
  - rewrite set_fields_cons, IH.
    cbn [cookie_set result headers cookies].
    now rewrite <- app_assoc.
Qed.

Lemma _authn_setauthorization_run (authorization : option string)
    (info : authsession_t) (setter : _httpmessage_set) (s : State) :
  _authn_setauthorization P authorization info setter s
  = Some (ESUCCESS,
          put_response
            (set_fields setter (identity_fields P authorization info) (response s))
            s).
Proof.
  unfold _authn_setauthorization, identity_fields.
  destruct (AUTH_TOKEN P), (info_token info), authorization; reflexivity.
Qed.

Lemma xhome_of_identity_fields (authorization : option string)
    (info : authsession_t) :
  filter (fun kv => String.eqb (fst kv) str_xhome)
         (identity_fields P authorization info)
  = [(str_xhome, "~/"%string)].
Proof.
  unfold identity_fields.
  destruct (AUTH_TOKEN P), (info_token info), authorization; reflexivity.
Qed.

(** On a bound connection the connector only propagates the cached
    identity. *)
Lemma _authn_connector_bound (request : http_request) (s : State)
    (info : authsession_t) :
  ctx_info s = Some info ->
  _authn_connector P amod request s
  = Some (EREJECT, put_response (propagate P amod None info (response s)) s).
Proof.
  intros H. unfold _authn_connector, propagate.
  unfold bind at 1. unfold gets. rewrite H.
  destruct (has_flag _ (AUTHZ_HEADER_E P)).
  - unfold bind. rewrite _authn_setauthorization_run. reflexivity.
  - destruct (has_flag _ (AUTHZ_COOKIE_E P)).
    + unfold bind. rewrite _authn_setauthorization_run. reflexivity.
    + unfold bind, ret. now rewrite put_response_same.
Qed.

(** ** The bound connection *)

(** C1.  On a connection whose context holds an identity, every request of
    any sequence of requests returns EREJECT, its response carries the
    cached identity through the configured transport (headers with
    AUTHZ_HEADER_E, else cookies with AUTHZ_COOKIE_E), the identity
    stays, and the trace and the memory of the backends are left as
    they were: [check] is not called, nor any other backend function. *)
Theorem bound_connection_never_checks (requests : list http_request)
    (s : State) (info : authsession_t) :
  ctx_info s = Some info ->
  exists s',
    serve P amod requests s
    = Some (map (fun _ => (EREJECT, propagate P amod None info empty_response))
                requests, s')
    /\ ctx_info s' = Some info
    /\ memory s' = memory s
    /\ trace s' = trace s
    /\ filter is_check (trace s') = filter is_check (trace s)
    /\ (has_flag (az_type (mod_authz amod)) (AUTHZ_HEADER_E P) = true ->
        propagate P amod None info empty_response
        = {| result := None; headers := identity_fields P None info;
             cookies := [] |})
    /\ (has_flag (az_type (mod_authz amod)) (AUTHZ_HEADER_E P) = false ->
        has_flag (az_type (mod_authz amod)) (AUTHZ_COOKIE_E P) = true ->
        propagate P amod None info empty_response
        = {| result := None; headers := [];
             cookies := identity_fields P None info |}).
Proof.
  assert (Hh : has_flag (az_type (mod_authz amod)) (AUTHZ_HEADER_E P) = true ->
               propagate P amod None info empty_response
               = {| result := None; headers := identity_fields P None info;
                    cookies := [] |}).
  { intros E. unfold propagate. rewrite E. apply set_fields_addheader. }
  assert (Hc : has_flag (az_type (mod_authz amod)) (AUTHZ_HEADER_E P) = false ->
               has_flag (az_type (mod_authz amod)) (AUTHZ_COOKIE_E P) = true ->
               propagate P amod None info empty_response
               = {| result := None; headers := [];
                    cookies := identity_fields P None info |}).
  { intros E1 E2. unfold propagate. rewrite E1, E2. apply set_fields_cookie_set. }
  revert s. induction requests as [|request rest IH]; intros s H.
  - exists s. repeat split; try reflexivity; try exact H; assumption.
  - pose (s1 := put_response
                  (propagate P amod None info empty_response) s).
    destruct (IH s1 H) as (s' & Hrun & Hinfo & Hmem & Htrace & _).
    exists s'. split.
    + cbn [serve map]. unfold bind at 1. unfold start_response, set_response, modify.
      unfold bind at 1.
      rewrite (@_authn_connector_bound request (put_response empty_response s) info H).
      unfold bind at 1. unfold gets.
      change (put_response _ (put_response empty_response s)) with s1.
      unfold bind at 1. rewrite Hrun. reflexivity.
    + rewrite Hinfo, Hmem, Htrace. repeat split; try reflexivity; assumption.
Qed.

(** ** The home connector *)

Lemma advance_1_length (s : string) :
  String.length (CString.advance 1 s) = Z.to_nat (CString.strlen s - 1).
Proof.
  unfold CString.strlen. destruct s as [|c r]; [reflexivity|].
  cbn [CString.advance String.length]. lia.
Qed.

Lemma under_home_test (home uri : string) :
  is_eq (CString.strncmp (CString.advance 1 home) uri
           (Z.to_nat (CString.strlen home - 1)))
  = String.prefix (CString.advance 1 home) uri.
Proof.
  rewrite <- advance_1_length.
  pose proof (strncmp_prefix (CString.advance 1 home) uri) as H.
  destruct (CString.strncmp _ _ _), (String.prefix _ _); simpl;
    try reflexivity; destruct H as [H1 H2];
    try (now discriminate (H1 eq_refl)); now discriminate (H2 eq_refl).
Qed.


(** ** The challenge *)

Lemma call_challenge_trace (request : http_request) (s s1 : State)
    (code : retcode) :
  call_challenge amod request s = Some (code, s1) ->
  trace s1 = (trace s ++ [EvChallenge])%list
  /\ ctx_info s1 = ctx_info s /\ session s1 = session s.
Proof.
  unfold call_challenge, authn_rules_of_mod.
  destruct (an_rules (mod_authn amod)) as [rules|]; [|discriminate].
  rewrite bind_ret, bind_emit, !bind_gets.
  destruct (authn_challenge rules _ request _) as [[c r'] b'].
  unfold set_response, set_memory. rewrite !bind_modify. unfold ret.
  intros H. injection H as _ <-. repeat split.
Qed.

(** The login page itself: the status is 200 and the function still
    returns ESUCCESS, the assignment of EREJECT being overwritten. *)
Lemma login_page_is_claimed (uri : string) (request : http_request)
    (s s1 : State) (url path : string) :
  call_challenge amod request s = Some (ECONTINUE, s1) ->
  is_xhr request = false ->
  redirect (mod_config amod) = Some url ->
  redirect_path url = Some path ->
  utils_searchexp P uri (Some (skip_slash path)) = ESUCCESS ->
  _authn_challenge P amod uri request s
  = Some (ESUCCESS,
          put_response (httpmessage_result (response s1) RESULT_200) s1).
Proof.
  intros Hc Hx Hr Hp Hm. unfold _authn_challenge. rewrite (bind_run _ Hc).
  cbn [retcode_eqb]. rewrite Hx, Hr, Hp, Hm. reflexivity.
Qed.

(** A login url with a scheme and no slash after the host: the search
    for its path gives NULL, which is read. *)
Lemma redirect_without_path (uri : string) (request : http_request)
    (s s1 : State) (url : string) :
  call_challenge amod request s = Some (ECONTINUE, s1) ->
  is_xhr request = false ->
  redirect (mod_config amod) = Some url ->
  redirect_path url = None ->
  _authn_challenge P amod uri request s = None.
Proof.
  intros Hc Hx Hr Hp. unfold _authn_challenge. rewrite (bind_run _ Hc).
  cbn [retcode_eqb]. rewrite Hx, Hr, Hp. reflexivity.
Qed.

(** X29.  The fallback of the challenge, case by case.  When the scheme's
    challenge returns ECONTINUE: 403 for a request whose
    X-Requested-With contains XMLHttpRequest; otherwise, with a login
    url that has a path component, 302 with Location set to the
    configured url and Cache-Control to no-cache when the path of the
    request is not that component; otherwise, without login url, 401.
    Each case sets one status and the connector claims the request
    (ESUCCESS).  A login url with a scheme and no slash after the
    host has no path component: the NULL that [strchr] returns is
    read, and there is no result. *)
Theorem generic_challenge_fallback (uri : string) (request : http_request)
    (s s1 : State) :
  call_challenge amod request s = Some (ECONTINUE, s1) ->
  (is_xhr request = true ->
   _authn_challenge P amod uri request s
   = Some (ESUCCESS,
           put_response (httpmessage_result (response s1) RESULT_403) s1))
  /\ (is_xhr request = false ->
      forall url path,
        redirect (mod_config amod) = Some url ->
        redirect_path url = Some path ->
        utils_searchexp P uri (Some (skip_slash path)) <> ESUCCESS ->
        _authn_challenge P amod uri request s
        = Some (ESUCCESS,
                put_response
                  (httpmessage_result
                     (httpmessage_addheader
                        (httpmessage_addheader (response s1) str_location url)
                        str_cachecontrol "no-cache")
                     RESULT_302) s1))
  /\ (is_xhr request = false ->
      redirect (mod_config amod) = None ->
      _authn_challenge P amod uri request s
      = Some (ESUCCESS,
              put_response (httpmessage_result (response s1) RESULT_401) s1))
  /\ (is_xhr request = false ->
      forall url,
        redirect (mod_config amod) = Some url ->
        redirect_path url = None ->
        _authn_challenge P amod uri request s = None).
Proof.
  intros Hc. split; [|split; [|split]].
  - intros Hx. unfold _authn_challenge. rewrite (bind_run _ Hc).
    cbn [retcode_eqb]. rewrite Hx. reflexivity.
  - intros Hx url path Hr Hp Hne. unfold _authn_challenge.
    rewrite (bind_run _ Hc). cbn [retcode_eqb]. rewrite Hx, Hr, Hp.
    destruct (retcode_eqb_spec (utils_searchexp P uri (Some (skip_slash path)))
                ESUCCESS) as [E|_]; [contradiction|].
    reflexivity.
  - intros Hx Hr. unfold _authn_challenge. rewrite (bind_run _ Hc).
    cbn [retcode_eqb]. rewrite Hx, Hr. reflexivity.
  - intros Hx url Hr Hp. exact (@redirect_without_path uri request s s1 url Hc Hx Hr Hp).
Qed.

(** ** The decision on the path *)

(** What the connector does after a verification that left [code]. *)
Lemma _authn_connector_after_verify (request : http_request) (s s1 : State)
    (code : retcode) :
  ctx_info s = None ->
  _authn_connector_verify P amod request s = Some (code, s1) ->
  code <> EREJECT ->
  _authn_connector P amod request s
  = if unprotected P (mod_config amod) (utils_urldecode P (req_uri request))
    then Some (EREJECT, s1)
    else _authn_challenge P amod (utils_urldecode P (req_uri request)) request s1.
Proof.
  intros Hinfo Hv Hne. unfold _authn_connector, unprotected.
  rewrite bind_gets, Hinfo. rewrite (bind_run _ Hv).
  destruct (retcode_eqb_spec code EREJECT) as [E|_]; [contradiction|].
  destruct (retcode_eqb (utils_searchexp P _ (protect _)) ESUCCESS); simpl.
  - destruct (retcode_eqb (utils_searchexp P _ (unprotect _)) ESUCCESS); simpl.
    + reflexivity.
    + rewrite bind_ret.
      destruct (retcode_eqb_spec code EREJECT) as [E|_]; [contradiction|].
      reflexivity.
  - reflexivity.
Qed.

(** C6, amended.  On a connection without identity, a request with a
    non-empty WWW-Authenticate header is not verified: the check of the
    scheme is not called and nothing changes in the state; the request
    goes to the decision on the path, and to the challenge when the
    path is protected. *)
Theorem logout_header_skips_verification (request : http_request) (s : State) :
  ctx_info s = None ->
  nonempty (httpmessage_REQUEST request str_authenticate) = true ->
  _authn_connector_verify P amod request s = Some (ESUCCESS, s)
  /\ _authn_connector P amod request s
     = if unprotected P (mod_config amod) (utils_urldecode P (req_uri request))
       then Some (EREJECT, s)
       else _authn_challenge P amod (utils_urldecode P (req_uri request)) request s.
Proof.
  intros Hinfo Hh.
  assert (Hv : _authn_connector_verify P amod request s = Some (ESUCCESS, s)).
  { unfold _authn_connector_verify. rewrite Hh. reflexivity. }
  split; [exact Hv|].
  apply _authn_connector_after_verify with (code := ESUCCESS);
    [exact Hinfo | exact Hv | discriminate].
Qed.

(** ** What a computation adds to the trace *)

Section Steps.

Variable q : event -> bool.

Lemma steps_ret (A : Type) (a : A) : steps q (ret a : Monad A).
Proof.
  intros s a' s' H. injection H as _ <-. exists []. now rewrite app_nil_r.
Qed.

Lemma steps_crash (A : Type) : steps q (@crash backends rand_state A).
Proof. intros s a s' H. discriminate. Qed.

Lemma steps_gets (A : Type) (f : State -> A) : steps q (gets f).
Proof.
  intros s a' s' H. injection H as _ <-. exists []. now rewrite app_nil_r.
Qed.

Lemma steps_modify (f : State -> State) :
  (forall s, trace (f s) = trace s) -> steps q (modify f).
Proof.
  intros Hf s a' s' H. injection H as _ <-. exists [].
  now rewrite Hf, app_nil_r.
Qed.

Lemma steps_emit (e : event) : q e = true -> steps q (emit e : Monad unit).
Proof.
  intros He s a' s' H. injection H as _ <-. exists [e]. simpl.
  now rewrite He.
Qed.

Lemma steps_bind (A B : Type) (m : Monad A) (k : A -> Monad B) :
  steps q m -> (forall a, steps q (k a)) -> steps q (bind m k).
Proof.
  intros Hm Hk s b s' H.
  destruct (bind_inv _ _ _ H) as (a & s0 & H1 & H2).
  destruct (Hm _ _ _ H1) as (e1 & T1 & Q1).
  destruct (Hk a _ _ _ H2) as (e2 & T2 & Q2).
  exists (e1 ++ e2)%list. split.
  - now rewrite T2, T1, app_assoc.
  - now rewrite forallb_app, Q1, Q2.
Qed.

(** Events that are neither a check nor a challenge. *)
Hypothesis quiet : forall e, is_check e = false -> is_challenge e = false -> q e = true.

Ltac steps_tac :=
  repeat first
    [ match goal with
      | H : context [steps] |- steps _ _ => apply H
      end
    | apply steps_ret | apply steps_crash | apply steps_gets
    | apply steps_modify; intros; reflexivity
    | apply steps_emit; first [apply quiet; reflexivity | solve [auto]]
    | apply steps_bind; [|intros]
    | match goal with
      | |- steps _ (match ?x with _ => _ end) => destruct x
      end ].

Lemma fill_nonce_steps (n : nat) : steps q (fill_nonce P n).
Proof.
  induction n as [|n IH]; cbn [fill_nonce].
  - apply steps_ret.
  - unfold call_random. steps_tac.
Qed.

Lemma new_session_steps (user : string) : steps q (new_session P amod user).
Proof.
  unfold new_session, call_generatetoken, authz_generatetoken, call_join.
  pose proof (fill_nonce_steps 6) as Hn.
  steps_tac.
Qed.

Lemma _authn_setauthorization_steps (authorization : option string)
    (info : authsession_t) (setter : _httpmessage_set) :
  steps q (_authn_setauthorization P authorization info setter).
Proof. unfold _authn_setauthorization. steps_tac. Qed.

Lemma change_user_steps (user : string) : steps q (change_user P user).
Proof. unfold change_user, warn. steps_tac. Qed.

Lemma _authn_getauthorization_steps (request : http_request) :
  steps q (_authn_getauthorization P amod request).
Proof. unfold _authn_getauthorization, err. steps_tac. Qed.

Lemma _authn_checkauthorization_steps (authorization method uri : string) :
  (forall m u a, q (EvCheck m u a) = true) ->
  steps q (_authn_checkauthorization P amod authorization method uri).
Proof.
  intros Hcheck. unfold _authn_checkauthorization, call_check, authn_rules_of_mod, warn.
  pose proof new_session_steps as Hn.
  pose proof _authn_setauthorization_steps as Hs.
  pose proof change_user_steps as Hu.
  steps_tac.
Qed.

Lemma _authn_connector_verify_steps (request : http_request) :
  (forall m u a, q (EvCheck m u a) = true) ->
  steps q (_authn_connector_verify P amod request).
Proof.
  intros Hcheck. unfold _authn_connector_verify.
  pose proof (_authn_getauthorization_steps request) as Hg.
  pose proof (fun a m u => @_authn_checkauthorization_steps a m u Hcheck) as Hc.
  destruct (nonempty _); cbn [retcode_eqb]; steps_tac.
Qed.

(** What follows an accepted check adds no other check to the trace. *)
Lemma accepted_steps (authorization : string) (user : string) :
  steps q
    (bind (gets (@ctx_info backends rand_state))
       (fun cached =>
          bind (match cached with
                | Some info => ret info
                | None => new_session P amod user
                end)
            (fun info =>
               bind (if has_flag (az_type (mod_authz amod)) (AUTHZ_HEADER_E P)
                     then bind (_authn_setauthorization P (Some authorization) info
                                  httpmessage_addheader) (fun _ => ret tt)
                     else if has_flag (az_type (mod_authz amod)) (AUTHZ_COOKIE_E P)
                     then bind (_authn_setauthorization P (Some authorization) info
                                  cookie_set) (fun _ => ret tt)
                     else ret tt)
                 (fun _ =>
                    bind (if has_flag (az_type (mod_authz amod)) (AUTHZ_UNIX_E P)
                          then change_user P (info_user info)
                          else ret tt)
                      (fun _ => bind (warn "user accepted")
                                  (fun _ => ret EREJECT)))))).
Proof.
  pose proof new_session_steps as Hn.
  pose proof _authn_setauthorization_steps as Hs.
  pose proof change_user_steps as Hu.
  unfold warn. steps_tac.
Qed.

End Steps.


Lemma quiet_not_challenge (e : event) :
  is_check e = false -> is_challenge e = false -> negb (is_challenge e) = true.
Proof. intros _ H. now rewrite H. Qed.

Lemma forallb_not_filter (A : Type) (p : A -> bool) (l : list A) :
  forallb (fun x => negb (p x)) l = true -> filter p l = [].
Proof.
  induction l as [|x l IH]; simpl; [reflexivity|].
  destruct (p x); simpl; [discriminate | exact IH].
Qed.

(** ** The check of the credentials *)

Lemma call_check_inv (method uri authentication : string) (s s0 : State)
    (user : option string) :
  call_check amod method uri authentication s = Some (user, s0) ->
  exists rules,
    an_rules (mod_authn amod) = Some rules
    /\ user = fst (authn_check rules (memory s) method uri authentication)
    /\ s0 = put_memory
              (snd (authn_check rules (memory s) method uri authentication))
              (add_event (EvCheck method uri authentication) s).
Proof.
  unfold call_check, authn_rules_of_mod.
  destruct (an_rules (mod_authn amod)) as [rules|]; [|discriminate].
  rewrite bind_ret, bind_emit, bind_gets. cbn [memory add_event].
  destruct (authn_check rules (memory s) method uri authentication)
    as [u b'] eqn:E.
  unfold set_memory. rewrite bind_modify. unfold ret.
  intros H. injection H as <- <-. exists rules. rewrite ?E. repeat split.
Qed.

Lemma call_check_run (rules : authn_rules_t backends authn_config_t)
    (method uri authentication : string) (s : State) :
  an_rules (mod_authn amod) = Some rules ->
  call_check amod method uri authentication s
  = Some (fst (authn_check rules (memory s) method uri authentication),
          put_memory
            (snd (authn_check rules (memory s) method uri authentication))
            (add_event (EvCheck method uri authentication) s)).
Proof.
  intros H. unfold call_check, authn_rules_of_mod. rewrite H.
  rewrite bind_ret, bind_emit, bind_gets. cbn [memory add_event].
  destruct (authn_check rules (memory s) method uri authentication) as [u b'].
  reflexivity.
Qed.


(** ** A verification without identity *)

Lemma _authn_getauthorization_keeps (request : http_request) (s s0 : State)
    (a : option string) :
  _authn_getauthorization P amod request s = Some (a, s0) ->
  response s0 = response s /\ ctx_info s0 = ctx_info s.
Proof.
  unfold _authn_getauthorization, err, emit, modify, bind, ret.
  cbn [nonempty negb].
  repeat (cbn beta iota;
          match goal with
          | |- context [match ?c with _ => _ end] =>
              lazymatch c with
              | context [match _ with _ => _ end] => fail
              | _ => destruct c; cbn [negb]
              end
          end);
    intros H; injection H as _ <-; split; reflexivity.
Qed.

(** A check that does not end with EREJECT found no user, and left
    the response and the context as they were. *)
Lemma _authn_checkauthorization_rejects (authorization method uri : string)
    (s s1 : State) (code : retcode) :
  _authn_checkauthorization P amod authorization method uri s = Some (code, s1) ->
  code <> EREJECT ->
  response s1 = response s /\ ctx_info s1 = ctx_info s.
Proof.
  unfold _authn_checkauthorization. intros H Hne.
  destruct (bind_inv _ _ _ H) as (user & s0 & Hc & Hk).
  destruct (call_check_inv _ _ _ _ Hc) as (rules & _ & _ & ->).
  destruct user as [user|].
  - exfalso. apply Hne.
    destruct (bind_inv _ _ _ Hk) as (cached & sa & _ & Hk1).
    destruct (bind_inv _ _ _ Hk1) as (info & sb & _ & Hk2).
    destruct (bind_inv _ _ _ Hk2) as (u1 & sc & _ & Hk3).
    destruct (bind_inv _ _ _ Hk3) as (u2 & sd & _ & Hk4).
    destruct (bind_inv _ _ _ Hk4) as (u3 & se & _ & Hk5).
    now injection Hk5 as <- _.
  - injection Hk as _ <-. split; reflexivity.
Qed.

Lemma _authn_connector_verify_rejects (request : http_request) (s s1 : State)
    (code : retcode) :
  _authn_connector_verify P amod request s = Some (code, s1) ->
  code <> EREJECT ->
  response s1 = response s
  /\ ctx_info s1 = ctx_info s
  /\ exists evs, trace s1 = (trace s ++ evs)%list /\ filter is_challenge evs = [].
Proof.
  intros H Hne.
  assert (T : exists evs,
             trace s1 = (trace s ++ evs)%list /\ filter is_challenge evs = []).
  { destruct (@_authn_connector_verify_steps (fun e => negb (is_challenge e))
                quiet_not_challenge request (fun _ _ _ => eq_refl) _ _ _ H)
      as (evs & T & Q).
    exists evs. split; [exact T | now apply forallb_not_filter]. }
  unfold _authn_connector_verify in H.
  destruct (nonempty (httpmessage_REQUEST request str_authenticate)).
  - injection H as _ <-. repeat split; exact T.
  - cbn [retcode_eqb] in H.
    destruct (bind_inv _ _ _ H) as (a & s0 & Hg & Hk).
    destruct (_authn_getauthorization_keeps _ _ Hg) as [R0 I0].
    destruct a as [a|].
    + destruct (an_ctx (mod_authn amod)).
      * destruct (_authn_checkauthorization_rejects _ _ _ _ Hk Hne) as [R1 I1].
        rewrite R1, I1, R0, I0. repeat split; exact T.
      * injection Hk as _ <-. rewrite R0, I0. repeat split; exact T.
    + injection Hk as _ <-. rewrite R0, I0. repeat split; exact T.
Qed.

(** [mod_auth_create] replaces a missing or empty [protect] by the
    wildcard. *)
Lemma mod_auth_create_protect (now : Z)
    (config : mod_auth_t authn_config_t authz_config_t)
    (created_mod : _mod_auth_t backends authn_config_t authz_config_t) :
  cr_mod (mod_auth_create P now (Some config)) = Some created_mod ->
  protect (mod_config created_mod)
  = if nonempty (protect config) then protect config else Some str_wilcard.
Proof.
  unfold mod_auth_create.
  destruct (entry _ _) as [rz|]; [|discriminate].
  destruct (AUTHZ_JWT P);
    [|destruct (has_flag _ _ && _)];
    cbn beta iota;
    (destruct (authz_create rz _) as [store|]; [|discriminate]);
    destruct (select_hash P _) as [hash logh];
    (destruct (entry (authn_rules P) _) as [rn|]; [|discriminate]);
    cbn [authn_config authz_config with_authz_type];
    (destruct (authn_create rn hash _ store) as [b|]; [|discriminate]);
    cbn [cr_mod protect with_authz_type];
    intros H; injection H as <-; cbn [mod_config];
    destruct (nonempty (protect config)); reflexivity.
Qed.

(** The status that the fallback of the challenge sets. *)
Lemma _authn_challenge_fallback_status (uri : string) (request : http_request)
    (s s1 : State) :
  call_challenge amod request s = Some (ECONTINUE, s1) ->
  (forall url, redirect (mod_config amod) = Some url -> redirect_path url <> None) ->
  exists status,
    _authn_challenge P amod uri request s
    = Some (ESUCCESS,
            put_response
              {| result := Some status;
                 headers :=
                   (headers (response s1)
                    ++ (if Z.eqb status RESULT_302
                        then match redirect (mod_config amod) with
                             | Some url =>
                                 [(str_location, url);
                                  (str_cachecontrol, "no-cache"%string)]
                             | None => []
                             end
                        else []))%list;
                 cookies := cookies (response s1) |} s1)
    /\ In status [RESULT_403; RESULT_302; RESULT_401; RESULT_200].
Proof.
  intros Hc Hpath. unfold _authn_challenge. rewrite (bind_run _ Hc).
  cbn [retcode_eqb].
  destruct (is_xhr request).
  - exists RESULT_403. split; [|now left].
    unfold on_response, set_response. monad_simpl. unfold ret.
    unfold httpmessage_result. cbn [response Z.eqb RESULT_403 RESULT_302].
    now rewrite app_nil_r.
  - destruct (redirect (mod_config amod)) as [url|] eqn:Hr.
    + destruct (redirect_path url) as [path|] eqn:Hp;
        [|exfalso; exact (Hpath url eq_refl Hp)].
      destruct (retcode_eqb (utils_searchexp P uri (Some (skip_slash path)))
                  ESUCCESS).
      * exists RESULT_200. split; [|now right; right; right; left].
        unfold on_response, set_response. monad_simpl. unfold ret.
        unfold httpmessage_result. cbn [response Z.eqb RESULT_200 RESULT_302].
        now rewrite app_nil_r.
      * exists RESULT_302. split; [|now right; left].
        unfold on_response, set_response. monad_simpl. unfold ret.
        unfold httpmessage_result, httpmessage_addheader.
        cbn [response put_response result headers cookies Z.eqb RESULT_302
             Pos.eqb].
        now rewrite <- app_assoc.
    + exists RESULT_401. split; [|now right; right; left].
      unfold on_response, set_response. monad_simpl. unfold ret.
      unfold httpmessage_result. cbn [response Z.eqb RESULT_401 RESULT_302].
      now rewrite app_nil_r.
Qed.

(** X28.  The decision on the path, and the challenge that it leads to.
    After a verification that produced no identity (its result is not
    EREJECT), on a connection without identity: the verification has
    not touched the response and has called no challenge.  When the
    decoded path does not match [protect] or matches [unprotect], the
    connector returns EREJECT in the state the verification left, so
    without challenge.  Otherwise, with a scheme installed and a login
    url that has a path component when there is one, the connector
    returns, having called the scheme's challenge exactly once: with
    the result and the response of the scheme when the scheme does
    not return ECONTINUE, and else with ESUCCESS and one of the
    statuses 403, 302, 401 and 200 on the response that the scheme
    left.  [protect] is the wildcard in a module built from a
    configuration whose [protect] is unset or empty. *)
Theorem path_decision (request : http_request) (s s1 : State) (code : retcode)
    (rules : authn_rules_t backends authn_config_t) :
  ctx_info s = None ->
  _authn_connector_verify P amod request s = Some (code, s1) ->
  code <> EREJECT ->
  an_rules (mod_authn amod) = Some rules ->
  (forall url, redirect (mod_config amod) = Some url -> redirect_path url <> None) ->
  let uri := utils_urldecode P (req_uri request) in
  let answer := authn_challenge rules (memory s1) request (response s1) in
  (response s1 = response s
   /\ ctx_info s1 = None
   /\ exists evs, trace s1 = (trace s ++ evs)%list /\ filter is_challenge evs = [])
  /\ (unprotected P (mod_config amod) uri = true ->
      _authn_connector P amod request s = Some (EREJECT, s1))
  /\ (unprotected P (mod_config amod) uri = false ->
      exists c s2,
        _authn_connector P amod request s = Some (c, s2)
        /\ trace s2 = (trace s1 ++ [EvChallenge])%list
        /\ memory s2 = snd answer
        /\ ctx_info s2 = None
        /\ (fst (fst answer) <> ECONTINUE ->
            c = fst (fst answer) /\ response s2 = snd (fst answer))
        /\ (fst (fst answer) = ECONTINUE ->
            c = ESUCCESS
            /\ headers (snd (fst answer)) = firstn
                 (List.length (headers (snd (fst answer)))) (headers (response s2))
            /\ exists status,
                 result (response s2) = Some status
                 /\ In status [RESULT_403; RESULT_302; RESULT_401; RESULT_200]))
  /\ (forall now config created_mod,
         cr_mod (mod_auth_create P now (Some config)) = Some created_mod ->
         nonempty (protect config) = false ->
         protect (mod_config created_mod) = Some str_wilcard).
Proof.
  intros Hinfo Hv Hne Hrules Hpath uri answer.
  pose proof (@_authn_connector_after_verify request s s1 code Hinfo Hv Hne) as Hc.
  fold uri in Hc.
  destruct (@_authn_connector_verify_rejects request s s1 code Hv Hne) as (R & I & T).
  split; [|split; [|split]].
  - rewrite I, Hinfo. repeat split; [exact R | exact T].
  - intros Hu. now rewrite Hu in Hc.
  - intros Hu. rewrite Hu in Hc. rewrite Hc.
    assert (Hcall : call_challenge amod request s1
                    = Some (fst (fst answer),
                            put_memory (snd answer)
                              (put_response (snd (fst answer))
                                 (add_event EvChallenge s1)))).
    { unfold call_challenge, authn_rules_of_mod. rewrite Hrules.
      rewrite bind_ret, bind_emit, !bind_gets.
      cbn [memory response add_event]. fold answer.
      destruct answer as [[c0 r0] b0]. unfold set_response, set_memory.
      rewrite !bind_modify. reflexivity. }
    destruct (retcode_eqb_spec (fst (fst answer)) ECONTINUE) as [E|E].
    + rewrite E in Hcall.
      destruct (@_authn_challenge_fallback_status uri request _ _ Hcall Hpath)
        as (status & Hrun & Hin).
      eexists _, _. split; [exact Hrun|].
      cbn [trace memory ctx_info response put_response put_memory add_event
           result headers].
      rewrite I, Hinfo. repeat split; try reflexivity; try contradiction.
      * now rewrite firstn_app, firstn_all, Nat.sub_diag, app_nil_r.
      * exists status. split; [reflexivity | exact Hin].
    + eexists _, _. split.
      * unfold _authn_challenge. rewrite (bind_run _ Hcall).
        destruct (retcode_eqb_spec (fst (fst answer)) ECONTINUE) as [E'|_];
          [contradiction | reflexivity].
      * cbn [trace memory ctx_info response put_response put_memory add_event].
        rewrite I, Hinfo. repeat split; try reflexivity; contradiction.
  - intros now config created_mod Hm Hp.
    rewrite (@mod_auth_create_protect now config created_mod Hm), Hp. reflexivity.
Qed.

(** ** The token of a first verification *)

Lemma draw_length (n : nat) (g : rand_state) :
  List.length (fst (draw P n g)) = (4 * n)%nat.
Proof.
  revert g; induction n as [|n IH]; intros g; cbn [draw]; [reflexivity|].
  destruct (random P g) as [r g1]. specialize (IH g1).
  destruct (draw P n g1) as [rest g2]. cbn [fst] in *.
  rewrite length_app, IH. cbn [int_bytes List.length]. lia.
Qed.

Lemma fill_nonce_run (n : nat) (s : State) :
  fill_nonce P n s
  = Some (fst (draw P n (rand s)), put_rand (snd (draw P n (rand s))) s).
Proof.
  revert s; induction n as [|n IH]; intros s; cbn [fill_nonce draw].
  - cbn [fst snd]. now rewrite put_rand_same.
  - unfold call_random. rewrite bind_bind, bind_gets.
    destruct (random P (rand s)) as [r g1].
    unfold set_rand. rewrite bind_bind, bind_modify, bind_ret.
    rewrite (bind_run _ (IH (put_rand g1 s))). cbn [rand put_rand].
    destruct (draw P n g1) as [rest g2]. reflexivity.
Qed.

Lemma new_session_with_token (user : string) (s : State) :
  AUTH_TOKEN P = true ->
  has_flag (az_type (mod_authz amod)) (AUTHZ_TOKEN_E P) = true ->
  az_generatetoken (mod_authz amod) = Some Authz_generatetoken ->
  let token := Base64.encode (fst (draw P 6 (rand s))) in
  let s_j := joined amod (CString.strncpy (sizeof_user P) user) token
               (put_rand (snd (draw P 6 (rand s))) s) in
  let info := session_info P amod (Some token) (memory s_j) user in
  new_session P amod user s = Some (info, put_ctx_info (Some info) s_j).
Proof.
  intros Ht Hf Hg token s_j info. subst info s_j token.
  unfold new_session, call_generatetoken, authz_generatetoken, joined,
    session_info, call_join.
  rewrite Ht, Hf, Hg. cbn [andb].
  rewrite !bind_bind. rewrite (bind_run _ (fill_nonce_run 6 s)), bind_ret.
  destruct (authz_join (az_rules (mod_authz amod))) as [join|].
  - monad_simpl. cbn [memory add_event put_rand info_user].
    destruct (join _ _ _ _) as [z b']. cbn [snd].
    unfold set_memory, set_ctx_info. monad_simpl.
    unfold ret. cbn [memory put_memory].
    destruct (authz_group _) as [group_of|], (authz_home _) as [home_of|];
      try destruct (group_of b' user); try destruct (home_of b' user);
      reflexivity.
  - unfold set_ctx_info. monad_simpl. unfold ret. cbn [memory put_rand].
    destruct (authz_group _) as [group_of|], (authz_home _) as [home_of|];
      try destruct (group_of (memory s) user);
      try destruct (home_of (memory s) user);
      reflexivity.
Qed.

Lemma change_user_run (user : string) (s : State) :
  change_user P user s = Some (tt, add_events (change_user_events P user) s).
Proof.
  unfold change_user, change_user_events, warn.
  destruct (getpwnam P user) as [[pw_uid pw_gid]|]; [|reflexivity].
  destruct (seteuid P (getuid P)), (setegid P pw_gid), (seteuid P pw_uid);
    reflexivity.
Qed.

(** An accepted check, from the state in which the session is built
    or found to the final state. *)
Lemma accepted_run (authorization user : string) (info : authsession_t)
    (s s_n : State) :
  (match ctx_info s with
   | Some cached => ret cached
   | None => new_session P amod user
   end) s = Some (info, s_n) ->
  bind (gets (@ctx_info backends rand_state))
    (fun cached =>
       bind (match cached with
             | Some info => ret info
             | None => new_session P amod user
             end)
         (fun info =>
            bind (if has_flag (az_type (mod_authz amod)) (AUTHZ_HEADER_E P)
                  then bind (_authn_setauthorization P (Some authorization) info
                               httpmessage_addheader) (fun _ => ret tt)
                  else if has_flag (az_type (mod_authz amod)) (AUTHZ_COOKIE_E P)
                  then bind (_authn_setauthorization P (Some authorization) info
                               cookie_set) (fun _ => ret tt)
                  else ret tt)
              (fun _ =>
                 bind (if has_flag (az_type (mod_authz amod)) (AUTHZ_UNIX_E P)
                       then change_user P (info_user info)
                       else ret tt)
                   (fun _ => bind (warn "user accepted")
                               (fun _ => ret EREJECT))))) s
  = Some (EREJECT,
          add_event (EvWarn "user accepted")
            (add_events
               (if has_flag (az_type (mod_authz amod)) (AUTHZ_UNIX_E P)
                then change_user_events P (info_user info) else [])
               (put_response
                  (propagate P amod (Some authorization) info (response s_n))
                  s_n))).
Proof.
  intros Hn. rewrite bind_gets. rewrite (bind_run _ Hn).
  assert (Hp : forall (B : Type) (k : unit -> Monad B),
             bind (if has_flag (az_type (mod_authz amod)) (AUTHZ_HEADER_E P)
                   then bind (_authn_setauthorization P (Some authorization) info
                                httpmessage_addheader) (fun _ => ret tt)
                   else if has_flag (az_type (mod_authz amod)) (AUTHZ_COOKIE_E P)
                   then bind (_authn_setauthorization P (Some authorization) info
                                cookie_set) (fun _ => ret tt)
                   else ret tt) k s_n
             = k tt (put_response
                       (propagate P amod (Some authorization) info (response s_n))
                       s_n)).
  { intros B k. unfold propagate.
    destruct (has_flag _ (AUTHZ_HEADER_E P)).
    - unfold bind. now rewrite _authn_setauthorization_run.
    - destruct (has_flag _ (AUTHZ_COOKIE_E P)).
      + unfold bind. now rewrite _authn_setauthorization_run.
      + rewrite bind_ret. now rewrite put_response_same. }
  rewrite Hp.
  destruct (has_flag _ (AUTHZ_UNIX_E P)).
  - rewrite (bind_run _ (change_user_run _ _)). reflexivity.
  - reflexivity.
Qed.

Lemma _authn_checkauthorization_accepts
    (rules : authn_rules_t backends authn_config_t)
    (authorization method uri user : string) (info : authsession_t)
    (s s_n : State) :
  an_rules (mod_authn amod) = Some rules ->
  fst (authn_check rules (memory s) (method_checked amod method) uri
         (credential authorization)) = Some user ->
  (match ctx_info s with
   | Some cached => ret cached
   | None => new_session P amod user
   end) (checked amod rules authorization method uri s) = Some (info, s_n) ->
  _authn_checkauthorization P amod authorization method uri s
  = Some (EREJECT,
          add_event (EvWarn "user accepted")
            (add_events
               (if has_flag (az_type (mod_authz amod)) (AUTHZ_UNIX_E P)
                then change_user_events P (info_user info) else [])
               (put_response
                  (propagate P amod (Some authorization) info (response s_n))
                  s_n))).
Proof.
  intros Hr Hu Hn. unfold _authn_checkauthorization.
  fold (credential authorization). fold (method_checked amod method).
  rewrite (bind_run _ (call_check_run _ _ _ s Hr)). rewrite Hu.
  fold (checked amod rules authorization method uri s).
  apply accepted_run. exact Hn.
Qed.

(** C8, amended.  On a first successful verification with AUTHZ_TOKEN_E,
    tokens compiled in and the generic generator installed, of a user
    whose name fits the array of the session with its final NUL: six
    calls of [random] give the 24 bytes of the nonce, the token is
    their URL-safe base64 encoding, a string of 32 characters; the
    store's [join], when there is one, is called with the user, that
    token and the configured expiry; the token is in the session kept
    by the connection, with the name of the user; and the response
    carries the token as X-Auth-Token, in the headers with
    AUTHZ_HEADER_E, else in the cookies with AUTHZ_COOKIE_E. *)
Theorem first_verification_issues_token
    (rules : authn_rules_t backends authn_config_t)
    (authorization method uri user : string) (s : State) :
  AUTH_TOKEN P = true ->
  has_flag (az_type (mod_authz amod)) (AUTHZ_TOKEN_E P) = true ->
  az_generatetoken (mod_authz amod) = Some Authz_generatetoken ->
  an_rules (mod_authn amod) = Some rules ->
  ctx_info s = None ->
  fst (authn_check rules (memory s) (method_checked amod method) uri
         (credential authorization)) = Some user ->
  (String.length user < sizeof_user P)%nat ->
  let nonce := fst (draw P 6 (rand s)) in
  let token := Base64.encode nonce in
  List.length nonce = 24%nat
  /\ String.length token = 32%nat
  /\ exists info s',
      _authn_checkauthorization P amod authorization method uri s
      = Some (EREJECT, s')
      /\ ctx_info s' = Some info
      /\ info_user info = user
      /\ info_token info = Some token
      /\ rand s' = snd (draw P 6 (rand s))
      /\ (forall join,
            authz_join (az_rules (mod_authz amod)) = Some join ->
            In (EvJoin user token (expire (mod_config amod)))
               (trace s'))
      /\ (has_flag (az_type (mod_authz amod)) (AUTHZ_HEADER_E P) = true ->
          In (str_xtoken, token) (headers (response s')))
      /\ (has_flag (az_type (mod_authz amod)) (AUTHZ_HEADER_E P) = false ->
          has_flag (az_type (mod_authz amod)) (AUTHZ_COOKIE_E P) = true ->
          In (str_xtoken, token) (cookies (response s'))).
Proof.
  intros Ht Hf Hg Hr Hi Hu Hfit nonce token.
  assert (Hcopy : CString.strncpy (sizeof_user P) user = user)
    by (apply strncpy_fits; lia).
  assert (Hlen : List.length nonce = 24%nat) by apply (draw_length 6).
  split; [exact Hlen|].
  split; [apply (encode_length 8); exact Hlen|].
  pose (s_c := checked amod rules authorization method uri s).
  pose proof (new_session_with_token user s_c Ht Hf Hg) as Hn.
  cbn zeta in Hn. change (rand s_c) with (rand s) in Hn.
  fold nonce in Hn. fold token in Hn.
  set (s_j := joined amod (CString.strncpy (sizeof_user P) user) token
                (put_rand (snd (draw P 6 (rand s))) s_c)) in Hn.
  set (info := session_info P amod (Some token) (memory s_j) user) in Hn.
  assert (Hn' : (match ctx_info s with
                 | Some cached => ret cached
                 | None => new_session P amod user
                 end) s_c = Some (info, put_ctx_info (Some info) s_j))
    by (rewrite Hi; exact Hn).
  pose proof (_authn_checkauthorization_accepts _ _ _ _ Hr Hu Hn') as Hrun.
  eexists info, _. split; [exact Hrun|].
  set (unix := if has_flag _ (AUTHZ_UNIX_E P) then _ else _).
  destruct (add_events_fields unix
              (put_response
                 (propagate P amod (Some authorization) info
                    (response (put_ctx_info (Some info) s_j)))
                 (put_ctx_info (Some info) s_j)))
    as (F1 & F2 & F3 & F4 & F5).
  cbn [ctx_info response rand add_event].
  rewrite F1, F3, F5. cbn [ctx_info response rand put_response put_ctx_info].
  assert (Hrand : rand s_j = snd (draw P 6 (rand s))).
  { unfold s_j, joined. destruct (authz_join _); reflexivity. }
  assert (Hresp : response s_j = response s).
  { unfold s_j, joined. destruct (authz_join _); reflexivity. }
  repeat split; try reflexivity; try exact Hrand.
  - exact Hcopy.
  - intros join Hj. cbn [trace add_event]. rewrite add_events_trace.
    apply in_or_app. left. apply in_or_app. left.
    cbn [trace put_response put_ctx_info].
    unfold s_j, joined. rewrite Hj. cbn [trace put_memory add_event put_rand].
    apply in_or_app. right. left. now rewrite Hcopy.
  - intros Hh. unfold propagate. rewrite Hh, set_fields_addheader.
    cbn [headers]. apply in_or_app. right.
    unfold identity_fields. rewrite Ht. cbn [info_token info session_info].
    left. reflexivity.
  - intros Hh Hc. unfold propagate. rewrite Hh, Hc, set_fields_cookie_set.
    cbn [cookies]. apply in_or_app. right.
    unfold identity_fields. rewrite Ht. cbn [info_token info session_info].
    left. reflexivity.
Qed.

(** ** The response of an accepted verification *)

Lemma call_generatetoken_keeps (config : mod_auth_t authn_config_t authz_config_t)
    (info : authsession_t) (s s' : State) (token : string) :
  call_generatetoken P amod config info s = Some (token, s') ->
  response s' = response s.
Proof.
  unfold call_generatetoken, authz_generatetoken.
  destruct (az_generatetoken (mod_authz amod)) as [[|]|]; [| |discriminate].
  - rewrite (bind_run _ (fill_nonce_run 6 s)). unfold ret.
    generalize (draw P 6 (rand s)). intros d H.
    injection H as _ <-. reflexivity.
  - unfold ret. intros H. injection H as _ <-. reflexivity.
Qed.

Lemma new_session_keeps (user : string) (s s' : State) (info : authsession_t) :
  new_session P amod user s = Some (info, s') ->
  response s' = response s /\ ctx_info s' = Some info.
Proof.
  unfold new_session. intros H.
  destruct (bind_inv _ _ _ H) as (info1 & s1 & H1 & H2). clear H.
  assert (R1 : response s1 = response s).
  { destruct (AUTH_TOKEN P && has_flag _ _); [|now injection H1 as _ <-].
    destruct (bind_inv _ _ _ H1) as (token & sa & Ha & Hb).
    rewrite <- (call_generatetoken_keeps _ _ _ Ha).
    destruct (bind_inv _ _ _ Hb) as (u & sb & Hc & Hd).
    injection Hd as _ <-.
    destruct (authz_join _) as [join|]; [|now injection Hc as _ <-].
    unfold call_join in Hc. rewrite bind_emit, bind_gets in Hc.
    destruct (join _ _ _ _) as [z b']. now injection Hc as _ <-. }
  rewrite bind_gets in H2. unfold set_ctx_info in H2.
  rewrite bind_modify in H2. injection H2 as <- <-.
  split; [exact R1 | reflexivity].
Qed.

(** An accepted verification leaves in the response what was there
    and the identity, propagated through the configured transport. *)
Lemma _authn_checkauthorization_response (authorization method uri : string)
    (s s' : State) :
  _authn_checkauthorization P amod authorization method uri s = Some (EREJECT, s') ->
  exists info,
    ctx_info s' = Some info
    /\ response s'
       = propagate P amod (Some authorization) info (response s).
Proof.
  intros H. unfold _authn_checkauthorization in H.
  destruct (bind_inv _ _ _ H) as (user & s0 & Hc & Hk). clear H.
  destruct (call_check_inv _ _ _ _ Hc) as (rules & Hr & _ & ->).
  destruct user as [user|]; [|discriminate].
  set (s_c := put_memory _ _) in Hk.
  destruct (ctx_info s_c) as [cached|] eqn:Hi.
  - pose proof (@accepted_run authorization user cached s_c s_c) as Hrun.
    rewrite Hi in Hrun. rewrite (Hrun eq_refl) in Hk.
    injection Hk as <-. exists cached.
    cbn [ctx_info response add_event].
    match goal with
    | |- context [add_events ?evs ?x] =>
        destruct (add_events_fields evs x) as (F1 & _ & F3 & _)
    end.
    rewrite F1, F3. split; [exact Hi | reflexivity].
  - destruct (new_session P amod user s_c) as [[info s_n]|] eqn:Hn.
    + destruct (new_session_keeps _ _ Hn) as [Rn In].
      pose proof (@accepted_run authorization user info s_c s_n) as Hrun.
      rewrite Hi in Hrun. rewrite (Hrun Hn) in Hk.
      injection Hk as <-. exists info.
      cbn [ctx_info response add_event].
      match goal with
      | |- context [add_events ?evs ?x] =>
          destruct (add_events_fields evs x) as (F1 & _ & F3 & _)
      end.
      rewrite F1, F3. cbn [ctx_info response put_response]. rewrite Rn.
      split; [exact In | reflexivity].
    + rewrite bind_gets, Hi in Hk. unfold bind at 1 in Hk.
      rewrite Hn in Hk. discriminate.
Qed.

(** C10.  Whenever an identity with a non-empty home is propagated onto a
    response, the only X-Remote-Home field written is the literal
    "~/", whatever the home of the identity is: this is what
    [_authn_setauthorization] writes through either setter; a first
    successful verification adds to the response exactly the fields of
    the identity it binds, through the configured transport; and so
    does every request of a bound connection. *)
Theorem remote_home_is_literal (authorization : option string)
    (info : authsession_t) (setter : _httpmessage_set)
    (request : http_request) (s : State) :
  info_home info <> EmptyString ->
  _authn_setauthorization P authorization info setter s
  = Some (ESUCCESS,
          put_response
            (set_fields setter (identity_fields P authorization info) (response s))
            s)
  /\ filter (fun kv => String.eqb (fst kv) str_xhome)
            (identity_fields P authorization info)
     = [(str_xhome, "~/"%string)]
  /\ (forall credentials s',
         _authn_checkauthorization P amod credentials
           (req_method request) (req_uri request) s = Some (EREJECT, s') ->
         exists bound_info,
           ctx_info s' = Some bound_info
           /\ response s'
              = propagate P amod (Some credentials) bound_info (response s)
           /\ filter (fun kv => String.eqb (fst kv) str_xhome)
                     (identity_fields P (Some credentials) bound_info)
              = [(str_xhome, "~/"%string)])
  /\ (ctx_info s = Some info ->
      _authn_connector P amod request s
      = Some (EREJECT, put_response (propagate P amod None info (response s)) s)).
Proof.
  intros _. split; [apply _authn_setauthorization_run|].
  split; [apply xhome_of_identity_fields|]. split.
  - intros credentials s' H.
    destruct (@_authn_checkauthorization_response _ _ _ _ _ H) as (i & Hi & Hr).
    exists i. split; [exact Hi|]. split; [exact Hr|].
    apply xhome_of_identity_fields.
  - apply _authn_connector_bound.
Qed.

(** ** Construction *)

Lemma clear_flag (t flag : Z) : has_flag (Z.land t (Z.lnot flag)) flag = false.
Proof.
  unfold has_flag.
  rewrite <- Z.land_assoc, (Z.land_comm (Z.lnot flag)), Z.land_lnot_diag,
    Z.land_0_r.
  reflexivity.
Qed.

(** A module that is not returned is not registered. *)
Lemma mod_auth_create_null (now : Z)
    (config : option (mod_auth_t authn_config_t authz_config_t)) :
  cr_mod (mod_auth_create P now config) = None ->
  filter is_addmod (cr_trace (mod_auth_create P now config)) = [].
Proof.
  unfold mod_auth_create, select_hash.
  destruct config as [config|]; [|reflexivity].
  destruct (entry _ _) as [rz|]; [|reflexivity].
  repeat (cbn beta iota;
          match goal with
          | |- context [match ?c with _ => _ end] =>
              lazymatch c with
              | context [match _ with _ => _ end] => fail
              | _ => destruct c
              end
          end);
    cbn [cr_mod cr_trace]; try discriminate; reflexivity.
Qed.

(** C7, amended.  For a configuration whose two types are indexes of the
    tables [authz_rules] and [authn_rules].  Without identity store
    for the configured type, [mod_auth_create] logs the error and
    returns NULL.  Without
    credential scheme for the configured type it returns NULL, having
    logged the error once the identity store is created.  A module that
    is not returned is never registered with the server, so that no
    connector is ever added for it.  AUTHZ_TOKEN_E with a store that
    has no [join] (and the JWT store not compiled in) is no failure:
    the error is logged first, AUTHZ_TOKEN_E is cleared in the
    configuration, and the module is built and registered whenever the
    two backends can be created. *)
Theorem mod_auth_create_failures (now : Z)
    (config : mod_auth_t authn_config_t authz_config_t) :
  (Z.to_nat (Z.land (authz_type config) (AUTHZ_TYPE_MASK P))
   < List.length (authz_rules P))%nat ->
  (authn_type config < List.length (authn_rules P))%nat ->
  let made := mod_auth_create P now (Some config) in
  let rules_of_authz :=
    entry (authz_rules P)
      (Z.to_nat (Z.land (authz_type config) (AUTHZ_TYPE_MASK P))) in
  (rules_of_authz = None ->
   cr_mod made = None
   /\ cr_trace made
      = [EvErr "authentication storage not set, change configuration"])
  /\ (entry (authn_rules P) (authn_type config) = None ->
      cr_mod made = None
      /\ forall rz store,
           rules_of_authz = Some rz ->
           authz_create rz (authz_config config) = Some store ->
           In (EvErr "authentication type is not availlable, change configuration")
              (cr_trace made))
  /\ (cr_mod made = None -> filter is_addmod (cr_trace made) = [])
  /\ (forall rz,
         AUTHZ_JWT P = false ->
         rules_of_authz = Some rz ->
         has_flag (authz_type config) (AUTHZ_TOKEN_E P) = true ->
         authz_join rz = None ->
         hd_error (cr_trace made)
         = Some (EvErr "Please use other authz module (sqlite) to enable token")
         /\ (exists cleared,
               cr_config made = Some cleared
               /\ has_flag (authz_type cleared) (AUTHZ_TOKEN_E P) = false)
         /\ forall store rn b,
              authz_create rz (authz_config config) = Some store ->
              entry (authn_rules P) (authn_type config) = Some rn ->
              authn_create rn (fst (select_hash P (algo config)))
                (authn_config config) store = Some b ->
              (exists created_mod, cr_mod made = Some created_mod)
              /\ In EvAddmod (cr_trace made)).
Proof.
  intros _ _ made rules_of_authz. subst made rules_of_authz.
  split; [|split; [|split]].
  - intros H. unfold mod_auth_create. rewrite H. split; reflexivity.
  - intros H. unfold mod_auth_create.
    destruct (entry (authz_rules P) _) as [rz|];
      [|split; [reflexivity | intros rz store E; discriminate]].
    destruct (AUTHZ_JWT P); [|destruct (has_flag _ _ && _)]; cbn beta iota;
      cbn [authz_config authn_config algo authn_type with_authz_type];
      rewrite H;
      (destruct (authz_create rz (authz_config config)) as [store|] eqn:Hs;
       [|split; [reflexivity | intros rz' st' E1 E2; congruence]]);
      destruct (select_hash P (algo config)) as [hash logh];
      (split; [reflexivity|]); intros _ _ _ _;
      cbn [cr_trace]; apply in_or_app; right; left; reflexivity.
  - apply mod_auth_create_null.
  - intros rz Hjwt Hrz Hflag Hjoin. unfold mod_auth_create.
    rewrite Hrz, Hjwt, Hflag, Hjoin. cbn [andb]. cbn beta iota.
    cbn [authz_config authn_config algo authn_type with_authz_type].
    destruct (authz_create rz (authz_config config)) as [store|].
    + destruct (select_hash P (algo config)) as [hash logh] eqn:Hh.
      destruct (entry (authn_rules P) (authn_type config)) as [rn|].
      * destruct (authn_create rn hash (authn_config config) store) as [b|] eqn:Hc.
        -- split; [reflexivity|]. split.
           ++ eexists. split; [reflexivity|].
              cbn [protect with_authz_type].
              destruct (negb (nonempty (protect config)));
                cbn [authz_type with_protect with_authz_type]; apply clear_flag.
           ++ intros store' rn' b' E1 E2 E3. split; [eexists; reflexivity|].
              cbn [cr_trace]. apply in_or_app. right.
              apply in_or_app. right. apply in_or_app. right. left. reflexivity.
        -- split; [reflexivity|]. split.
           ++ eexists. split; [reflexivity|]. apply clear_flag.
           ++ intros store' rn' b' E1 E2 E3.
              injection E1 as <-. injection E2 as <-. cbn [fst] in E3.
              congruence.
      * split; [reflexivity|]. split.
        -- eexists. split; [reflexivity|]. apply clear_flag.
        -- intros store' rn' b' E1 E2 E3. discriminate.
    + split; [reflexivity|]. split.
      * eexists. split; [reflexivity|]. apply clear_flag.
      * intros store' rn' b' E1 E2 E3. discriminate.
Qed.

End Properties.

(** * The properties on the installation of [Scenario] *)

Import Scenario.


Lemma bound_connection_never_checks_witness :
  ctx_info bound = Some alice
  /\ exists s',
      serve linux (engine basic_simple)
        [request "GET" "private/doc" [(str_authenticate, "logout")];
         request "POST" "private/form" [(str_authorization, alice_basic)]]
        bound
      = Some ([(EREJECT, propagate linux (engine basic_simple) None alice empty_response);
               (EREJECT, propagate linux (engine basic_simple) None alice empty_response)],
              s')
      /\ trace s' = trace bound.
Proof.
  split; [reflexivity|].
  destruct (@bound_connection_never_checks _ _ _ _ linux (engine basic_simple)
              [request "GET" "private/doc" [(str_authenticate, "logout")];
               request "POST" "private/form" [(str_authorization, alice_basic)]]
              bound alice eq_refl)
    as (s' & Hrun & _ & _ & Ht & _).
  exists s'. split; [exact Hrun | exact Ht].
Defined.

Lemma path_decision_witness :
  unprotected linux (mod_config (engine basic_simple)) "private/doc" = false
  /\ exists s2,
       _authn_connector linux (engine basic_simple)
         (request "GET" "private/doc" [(str_authorization, "Basic YWxpY2U6d3Jvbmc=")])
         fresh
       = Some (ESUCCESS, s2)
       /\ filter is_challenge (trace s2) = [EvChallenge]
       /\ result (response s2) = Some RESULT_401.
Proof.
  split; [reflexivity|].
  destruct (proj1 (proj2 (proj2
              (@path_decision _ _ _ _ linux (engine basic_simple)
                 (request "GET" "private/doc"
                    [(str_authorization, "Basic YWxpY2U6d3Jvbmc=")])
                 fresh
                 (checked (engine basic_simple) basic_rules
                    "Basic YWxpY2U6d3Jvbmc=" "GET" "private/doc" fresh)
                 ECONTINUE basic_rules eq_refl eq_refl
                 ltac:(discriminate) eq_refl ltac:(discriminate))))
            eq_refl)
    as (c & s2 & Hrun & Htrace & _ & _ & Hscheme & _).
  destruct (Hscheme ltac:(discriminate)) as [Hc Hr].
  exists s2. rewrite Hc in Hrun. split; [exact Hrun|].
  split; [now rewrite Htrace | now rewrite Hr].
Defined.

Lemma generic_challenge_fallback_witness :
  exists s1,
    call_challenge (engine login_page) (request "GET" "private/doc" []) fresh
    = Some (ECONTINUE, s1)
    /\ _authn_challenge linux (engine login_page) "private/doc"
         (request "GET" "private/doc" []) fresh
       = Some (ESUCCESS,
               put_response
                 (httpmessage_result
                    (httpmessage_addheader
                       (httpmessage_addheader (response s1) str_location "/login")
                       str_cachecontrol "no-cache")
                    RESULT_302) s1).
Proof.
  eexists. split; [reflexivity|].
  refine (proj1 (proj2
            (@generic_challenge_fallback _ _ _ _ linux (engine login_page)
               "private/doc" (request "GET" "private/doc" []) fresh _ eq_refl))
            eq_refl "/login" "/login" eq_refl eq_refl _).
  discriminate.
Defined.


Lemma logout_header_skips_verification_witness :
  ctx_info fresh = None
  /\ nonempty (httpmessage_REQUEST
                 (request "GET" "private/doc"
                    [(str_authenticate, "logout"); (str_authorization, alice_basic)])
                 str_authenticate) = true
  /\ _authn_connector_verify linux (engine basic_simple)
       (request "GET" "private/doc"
          [(str_authenticate, "logout"); (str_authorization, alice_basic)])
       fresh = Some (ESUCCESS, fresh).
Proof.
  split; [reflexivity|]. split; [reflexivity|].
  exact (proj1 (@logout_header_skips_verification _ _ _ _ linux
                  (engine basic_simple)
                  (request "GET" "private/doc"
                     [(str_authenticate, "logout"); (str_authorization, alice_basic)])
                  fresh eq_refl eq_refl)).
Defined.


Lemma remote_home_is_literal_witness :
  info_home alice <> EmptyString
  /\ filter (fun kv => String.eqb (fst kv) str_xhome)
            (identity_fields linux (Some alice_basic) alice)
     = [(str_xhome, "~/"%string)].
Proof.
  assert (H : info_home alice <> EmptyString) by discriminate.
  split; [exact H|].
  exact (proj1 (proj2 (@remote_home_is_literal _ _ _ _ linux (engine basic_simple)
                         (Some alice_basic) alice httpmessage_addheader
                         (request "GET" "private/doc" []) fresh H))).
Defined.

Lemma mod_auth_create_failures_witness :
  AUTHZ_JWT linux = false
  /\ has_flag (authz_type token_simple) (AUTHZ_TOKEN_E linux) = true
  /\ authz_join simple_rules = None
  /\ nth_error (authn_rules linux) 2 = Some None
  /\ hd_error (cr_trace (mod_auth_create linux 2026 (Some token_simple)))
     = Some (EvErr "Please use other authz module (sqlite) to enable token")
  /\ (cr_mod (mod_auth_create linux 2026
                (Some (configuration 2 (Z.lor 1 64) None))) = None
      /\ filter is_addmod
           (cr_trace (mod_auth_create linux 2026
                        (Some (configuration 2 (Z.lor 1 64) None)))) = []).
Proof.
  split; [reflexivity|]. split; [reflexivity|]. split; [reflexivity|].
  split; [reflexivity|]. split.
  - exact (proj1 (proj2 (proj2 (proj2
             (@mod_auth_create_failures _ _ _ _ linux 2026 token_simple
                ltac:(vm_compute; lia) ltac:(vm_compute; lia))))
             simple_rules eq_refl eq_refl eq_refl eq_refl)).
  - pose proof (@mod_auth_create_failures _ _ _ _ linux 2026
                  (configuration 2 (Z.lor 1 64) None)
                  ltac:(vm_compute; lia) ltac:(vm_compute; lia))
      as (_ & H2 & H3 & _).
    split; [exact (proj1 (H2 eq_refl)) | exact (H3 (proj1 (H2 eq_refl)))].
Defined.

Lemma first_verification_issues_token_witness :
  AUTH_TOKEN linux = true
  /\ has_flag (az_type (mod_authz (engine token_sqlite))) (AUTHZ_TOKEN_E linux) = true
  /\ az_generatetoken (mod_authz (engine token_sqlite)) = Some Authz_generatetoken
  /\ an_rules (mod_authn (engine token_sqlite)) = Some basic_rules
  /\ ctx_info fresh = None
  /\ (String.length "alice" < sizeof_user linux)%nat
  /\ String.length (Base64.encode (fst (draw linux 6 (rand fresh)))) = 32%nat
  /\ exists info s',
      _authn_checkauthorization linux (engine token_sqlite) alice_basic
        "GET" "private/doc" fresh = Some (EREJECT, s')
      /\ ctx_info s' = Some info
      /\ info_token info = Some (Base64.encode (fst (draw linux 6 (rand fresh))))
      /\ In (EvJoin "alice"
               (Base64.encode (fst (draw linux 6 (rand fresh)))) 3600)
            (trace s')
      /\ In (str_xtoken, Base64.encode (fst (draw linux 6 (rand fresh))))
            (headers (response s')).
Proof.
  split; [reflexivity|]. split; [reflexivity|]. split; [reflexivity|].
  split; [reflexivity|]. split; [reflexivity|].
  split; [vm_compute; lia|].
  destruct (@first_verification_issues_token _ _ _ _ linux (engine token_sqlite)
              basic_rules alice_basic "GET" "private/doc" "alice" fresh
              eq_refl eq_refl eq_refl eq_refl eq_refl eq_refl
              ltac:(vm_compute; lia))
    as (_ & Hlen & info & s' & Hrun & Hinfo & _ & Htok & _ & Hjoin & Hhdr & _).
  split; [exact Hlen|].
  exists info, s'. split; [exact Hrun|]. split; [exact Hinfo|].
  split; [exact Htok|]. split.
  - exact (Hjoin _ eq_refl).
  - exact (Hhdr eq_refl).
Defined.

(** ** Where the code and the claims part *)

(** C2.  A request without credentials for a protected path, in a module
    without scheme whose login url is http://host: the verification
    gives no identity, the path matches [protect] and not [unprotect],
    and the connector has no outcome at all, neither pass-through nor
    Unauthorized.  The scheme's challenge is called and returns
    ECONTINUE, and the fallback then reads the NULL that the search
    for the path component of the login url returned; the same
    request has its 302 when the login url is /login. *)
Theorem protected_path_without_outcome :
  ctx_info fresh = None
  /\ (exists s1 s2,
        _authn_connector_verify linux (engine login_host)
          (request "GET" "private/doc" []) fresh
        = Some (ECONTINUE, s1)
        /\ ctx_info s1 = None
        /\ call_challenge (engine login_host)
             (request "GET" "private/doc" []) s1
           = Some (ECONTINUE, s2))
  /\ unprotected linux (mod_config (engine login_host))
       (utils_urldecode linux "private/doc") = false
  /\ redirect (mod_config (engine login_host)) = Some "http://host"
  /\ _authn_connector linux (engine login_host)
       (request "GET" "private/doc" []) fresh = None
  /\ exists s',
       _authn_connector linux (engine login_page)
         (request "GET" "private/doc" []) fresh = Some (ESUCCESS, s')
       /\ result (response s') = Some RESULT_302.
Proof.
  split; [reflexivity|].
  split; [eexists _, _; repeat split; reflexivity|]. split; [reflexivity|].
  split; [reflexivity|]. split; [reflexivity|].
  eexists. split; [vm_compute; reflexivity | reflexivity].
Qed.

(** C3.  The fallback of the challenge with the login url http://host, a
    scheme whose challenge returns ECONTINUE and a request without
    X-Requested-With: a login url is configured and the path of the
    request is not its path component, since it has none, yet no 302
    follows and no status at all.  [strchr] finds no slash after the
    host and its NULL is read at the test of the first character. *)
Theorem redirect_without_path_gives_no_status :
  exists s1,
    call_challenge (engine login_host) (request "GET" "private/doc" []) fresh
    = Some (ECONTINUE, s1)
    /\ is_xhr (request "GET" "private/doc" []) = false
    /\ redirect (mod_config (engine login_host)) = Some "http://host"
    /\ CString.strstr "http://host" "://" = Some "://host"
    /\ CString.strchr "host" "/" = None
    /\ redirect_path "http://host" = None
    /\ _authn_challenge linux (engine login_host) "private/doc"
         (request "GET" "private/doc" []) fresh = None.
Proof.
  eexists. split; [reflexivity|]. repeat split; reflexivity.
Qed.

(** C4.  Redirection to /login, no credentials, request for the login page
    itself: the status is set to 200, and the connector returns
    ESUCCESS, which claims the request, where the comment in the
    source and the assignment [ret = EREJECT] mean to leave it to the
    next module. *)
Theorem login_page_request_is_claimed :
  exists s',
    _authn_connector linux (engine login_page) (request "GET" "login" []) fresh
    = Some (ESUCCESS, s')
    /\ result (response s') = Some RESULT_200
    /\ headers (response s') = []
    /\ ESUCCESS <> EREJECT.
Proof.
  eexists. split; [vm_compute; reflexivity|].
  split; [reflexivity|]. split; [reflexivity | discriminate].
Qed.

(** C6 as stated fails: on a connection bound to alice, a request with a
    non-empty WWW-Authenticate header is answered from the cached
    identity, with neither check nor challenge. *)
Lemma logout_header_ignored_when_bound :
  ctx_info bound = Some alice
  /\ nonempty (httpmessage_REQUEST
                (request "GET" "private/doc" [(str_authenticate, "logout")])
                str_authenticate) = true
  /\ exists s',
      _authn_connector linux (engine basic_simple)
        (request "GET" "private/doc" [(str_authenticate, "logout")])
        (put_response empty_response bound)
      = Some (EREJECT, s')
      /\ filter (fun e => is_check e || is_challenge e) (trace s') = []
      /\ ctx_info s' = Some alice
      /\ headers (response s')
         = [(str_xuser, "alice"); (str_xgroup, "users"); (str_xhome, "~/")]%string.
Proof.
  split; [reflexivity|]. split; [reflexivity|].
  eexists. split; [vm_compute; reflexivity|].
  repeat split; reflexivity.
Qed.

(** C7 as stated fails: with AUTHZ_TOKEN_E and a store without [join],
    the module is built and registered. *)
Lemma token_without_join_is_built :
  AUTHZ_JWT linux = false
  /\ has_flag (authz_type token_simple) (AUTHZ_TOKEN_E linux) = true
  /\ entry (authz_rules linux)
       (Z.to_nat (Z.land (authz_type token_simple) (AUTHZ_TYPE_MASK linux)))
     = Some simple_rules
  /\ authz_join simple_rules = None
  /\ cr_mod (mod_auth_create linux 2026 (Some token_simple)) <> None
  /\ cr_trace (mod_auth_create linux 2026 (Some token_simple))
     = [EvErr "Please use other authz module (sqlite) to enable token"; EvAddmod].
Proof.
  repeat split; try reflexivity. discriminate.
Qed.

(** C8 as stated fails on the length: the token of a first verification
    has 32 characters, not 36. *)
Lemma token_has_32_characters :
  exists s' info token,
    _authn_connector linux (engine token_sqlite)
      (request "GET" "private/doc" [(str_authorization, alice_basic)]) fresh
    = Some (EREJECT, s')
    /\ ctx_info s' = Some info
    /\ info_token info = Some token
    /\ lookup str_xtoken (headers (response s')) = Some token
    /\ String.length token = 32%nat
    /\ String.length token <> 36%nat.
Proof.
  eexists _, _, _. split; [vm_compute; reflexivity|].
  split; [reflexivity|]. split; [reflexivity|]. split; [reflexivity|].
  split; [reflexivity | discriminate].
Qed.

(** * Further properties of mod_auth.c *)

Lemma strncmp_flip (a b : string) (n : nat) :
  CString.strncmp a b n = Eq <-> CString.strncmp b a n = Eq.
Proof.
  revert a b; induction n as [|n IH]; intros a b.
  - destruct a, b; simpl; tauto.
  - destruct a as [|c a], b as [|d b]; simpl;
      try tauto; try (split; discriminate).
    destruct (Ascii.eqb_spec c d) as [->|Hne].
    + rewrite Ascii.eqb_refl. apply IH.
    + destruct (Ascii.eqb_spec d c) as [E|_]; [symmetry in E; contradiction|].
      split; intros H; apply Nat.compare_eq in H;
        apply (f_equal ascii_of_nat) in H;
        rewrite !ascii_nat_embedding in H; congruence.
Qed.

Lemma strncmp_scheme (a scheme : string) :
  CString.strncmp a scheme (String.length scheme) = Eq
  <-> String.prefix scheme a = true.
Proof. rewrite strncmp_flip. apply strncmp_prefix. Qed.

Section Credentials.

Variables backends authn_config_t authz_config_t rand_state : Type.
Variable P : platform backends authn_config_t authz_config_t rand_state.
Variable amod : _mod_auth_t backends authn_config_t authz_config_t.

Local Abbreviation State := (state backends rand_state).

(** The tokens are looked for: compiled in and enabled. *)
Local Abbreviation tokens :=
  (AUTH_TOKEN P && has_flag (az_type (mod_authz amod)) (AUTHZ_TOKEN_E P)).

Ltac monad_simpl :=
  repeat (cbn beta;
          first [ rewrite bind_bind | rewrite bind_ret | rewrite bind_gets
                | rewrite bind_modify | rewrite bind_emit ]).

Ltac split_cases :=
  repeat (cbn beta iota;
          match goal with
          | |- context [match ?c with _ => _ end] =>
              lazymatch c with
              | context [match _ with _ => _ end] => fail
              | _ => destruct c eqn:?; cbn [negb andb]
              end
          end).

(** A non-empty Authorization header of the module's scheme is the
    credential, and nothing is logged. *)
Lemma _authn_getauthorization_header (request : http_request) (s : State)
    (h : string) :
  httpmessage_REQUEST request str_authorization = Some h ->
  nonempty (Some h) = true ->
  CString.strncmp h (mod_type amod) (mod_typelength amod) = Eq ->
  _authn_getauthorization P amod request s = Some (Some h, s).
Proof.
  intros Hh Hn Hs. unfold _authn_getauthorization. cbn [nonempty negb].
  rewrite Hh, Hn. cbn [negb]. rewrite bind_ret, Hs. cbn [is_eq negb].
  rewrite bind_ret, Hn. cbn [negb]. rewrite andb_false_r. reflexivity.
Qed.

(** A non-empty Authorization header of another scheme is dropped,
    with one message, and the cookie is not read. *)
Lemma _authn_getauthorization_other (request : http_request) (s : State)
    (h : string) :
  httpmessage_REQUEST request str_authorization = Some h ->
  nonempty (Some h) = true ->
  CString.strncmp h (mod_type amod) (mod_typelength amod) <> Eq ->
  _authn_getauthorization P amod request s
  = Some (if tokens
          then if has_flag (az_type (mod_authz amod)) (AUTHZ_HEADER_E P)
               then httpmessage_REQUEST request str_xtoken
               else cookie_get request str_xtoken
          else None,
          add_event (EvErr "authorization type") s).
Proof.
  intros Hh Hn Hs. unfold _authn_getauthorization, err. cbn [nonempty negb].
  rewrite Hh, Hn. cbn [negb]. rewrite bind_ret.
  destruct (CString.strncmp h _ _); try contradiction; cbn [is_eq negb];
    monad_simpl; cbn [nonempty negb];
    rewrite andb_true_r;
    destruct (AUTH_TOKEN P), (has_flag _ (AUTHZ_TOKEN_E P)); cbn [andb];
    try reflexivity;
    destruct (has_flag _ (AUTHZ_HEADER_E P)); reflexivity.
Qed.

(** X1.  Without tokens, the credentials that [_authn_getauthorization]
    returns always begin with the name of the module's scheme, and
    they are the Authorization header when the request has a non-empty
    one, the Authorization cookie only otherwise: a header of another
    scheme hides a valid cookie. *)
Theorem getauthorization_scheme_and_source (request : http_request)
    (s s' : State) (a : string) :
  tokens = false ->
  mod_typelength amod = String.length (mod_type amod) ->
  _authn_getauthorization P amod request s = Some (Some a, s') ->
  String.prefix (mod_type amod) a = true
  /\ Some a
     = (if nonempty (httpmessage_REQUEST request str_authorization)
        then httpmessage_REQUEST request str_authorization
        else cookie_get request str_authorization).
Proof.
  intros Ht Hl. unfold _authn_getauthorization, err, emit, modify, bind, ret.
  cbn [nonempty negb].
  assert (Hx : forall x, AUTH_TOKEN P && x
                         && has_flag (az_type (mod_authz amod)) (AUTHZ_TOKEN_E P)
                         = false).
  { intros x. destruct (AUTH_TOKEN P), x; cbn [andb] in *;
      try reflexivity; exact Ht. }
  destruct (nonempty (httpmessage_REQUEST request str_authorization)) eqn:Hn;
    cbn [negb]; cbn beta iota.
  - destruct (httpmessage_REQUEST request str_authorization) as [h|];
      [|discriminate].
    destruct (is_eq (CString.strncmp h _ _)) eqn:Hs; cbn [negb]; cbn beta iota;
      rewrite Hx; intros H; [|discriminate].
    injection H as <- _. split; [|reflexivity].
    apply strncmp_scheme. rewrite <- Hl.
    destruct (CString.strncmp h _ _); try discriminate. reflexivity.
  - destruct (cookie_get request str_authorization) as [c|]; cbn beta iota.
    + destruct (is_eq (CString.strncmp c _ _)) eqn:Hs; cbn [negb]; cbn beta iota;
        rewrite Hx; intros H; [|discriminate].
      injection H as <- _. split; [|reflexivity].
      apply strncmp_scheme. rewrite <- Hl.
      destruct (CString.strncmp c _ _); try discriminate. reflexivity.
    + rewrite Hx. intros H. discriminate.
Qed.

(** X2.  With tokens, a request without credentials, or with credentials
    of another scheme, falls back on X-Auth-Token: read in the headers
    with AUTHZ_HEADER_E and in the cookies otherwise, and returned as
    it is, without any test of its scheme. *)
Theorem getauthorization_token_fallback (request : http_request) (s : State) :
  tokens = true ->
  let token :=
    if has_flag (az_type (mod_authz amod)) (AUTHZ_HEADER_E P)
    then httpmessage_REQUEST request str_xtoken
    else cookie_get request str_xtoken in
  (nonempty (httpmessage_REQUEST request str_authorization) = false ->
   cookie_get request str_authorization = None ->
   _authn_getauthorization P amod request s
   = Some (token, add_event (EvErr "cookie get") s))
  /\ (forall h,
        httpmessage_REQUEST request str_authorization = Some h ->
        nonempty (Some h) = true ->
        CString.strncmp h (mod_type amod) (mod_typelength amod) <> Eq ->
        _authn_getauthorization P amod request s
        = Some (token, add_event (EvErr "authorization type") s)).
Proof.
  intros Ht token. subst token. split.
  - intros Hh Hc. unfold _authn_getauthorization, err. cbn [nonempty negb].
    rewrite Hh. cbn [negb]. monad_simpl. rewrite Hc.
    monad_simpl. cbn [nonempty negb]. rewrite andb_true_r.
    apply andb_prop in Ht. destruct Ht as [-> ->]. cbn [andb].
    destruct (has_flag _ (AUTHZ_HEADER_E P)); reflexivity.
  - intros h Hh Hn Hs.
    rewrite (_authn_getauthorization_other request s Hh Hn Hs), Ht.
    reflexivity.
Qed.

(** ** A request with credentials *)


(** The session that [new_session] returns is built from the user, the
    token and the store as it is once the token is joined. *)
Lemma new_session_info (user : string) (s s' : State) (info : authsession_t) :
  new_session P amod user s = Some (info, s') ->
  info = session_info P amod (info_token info) (memory s') user.
Proof.
  unfold new_session. intros H.
  destruct (bind_inv _ _ _ H) as (info1 & s1 & H1 & H2). clear H.
  assert (F : info_type info1 = CString.strncpy (sizeof_type P) (mod_type amod)
              /\ info_user info1 = CString.strncpy (sizeof_user P) user
              /\ info_group info1 = EmptyString
              /\ info_home info1 = EmptyString).
  { destruct tokens; [|injection H1 as <- _; repeat split].
    destruct (bind_inv _ _ _ H1) as (token & sa & _ & Hb).
    destruct (bind_inv _ _ _ Hb) as (u & sb & _ & Hd).
    injection Hd as <- _. repeat split. }
  destruct info1 as [t1 u1 g1 h1 k1]. cbn in F.
  destruct F as (-> & -> & -> & ->).
  rewrite bind_gets in H2. unfold set_ctx_info in H2.
  rewrite bind_modify in H2. unfold ret in H2.
  cbn [info_type info_user info_group info_home info_token] in H2.
  injection H2 as <- <-.
  cbn [memory put_ctx_info]. unfold session_info.
  destruct (authz_group _) as [group_of|], (authz_home _) as [home_of|];
    try destruct (group_of (memory s1) user);
    try destruct (home_of (memory s1) user);
    reflexivity.
Qed.

(** One call of [check], and no challenge, in a verification. *)
Lemma _authn_checkauthorization_trace (authorization method uri : string)
    (s s' : State) (code : retcode) :
  _authn_checkauthorization P amod authorization method uri s = Some (code, s') ->
  exists evs,
    trace s'
    = (trace s
       ++ EvCheck (method_checked amod method) uri (credential authorization)
          :: evs)%list
    /\ filter is_check evs = []
    /\ filter is_challenge evs = [].
Proof.
  intros H. unfold _authn_checkauthorization in H.
  fold (credential authorization) in H. fold (method_checked amod method) in H.
  destruct (bind_inv _ _ _ H) as (user & s0 & Hc & Hk).
  destruct (call_check_inv _ _ _ _ _ Hc) as (rules & _ & _ & ->).
  destruct user as [user|].
  - destruct (@accepted_steps _ _ _ _ P amod
                (fun e => negb (is_check e) && negb (is_challenge e))
                ltac:(intros e E1 E2; cbn beta; now rewrite E1, E2)
                authorization user _ _ _ Hk) as (evs & T & Q).
    exists evs. split.
    + rewrite T. cbn [trace put_memory add_event]. now rewrite <- app_assoc.
    + split; apply forallb_not_filter; rewrite forallb_forall in *;
        intros e He; specialize (Q e He);
        apply andb_prop in Q; tauto.
  - injection Hk as _ <-. exists []. repeat split.
Qed.


(** ** A request that does not bind *)

(** X4.  Without tokens, credentials of another scheme are never handed to
    [check]: the connector logs the mismatch and decides on the path
    alone, EREJECT for an unprotected path and the challenge
    otherwise, the connection staying as it was. *)
Theorem other_scheme_is_not_checked (request : http_request) (s : State)
    (h : string) :
  ctx_info s = None ->
  nonempty (httpmessage_REQUEST request str_authenticate) = false ->
  httpmessage_REQUEST request str_authorization = Some h ->
  nonempty (Some h) = true ->
  CString.strncmp h (mod_type amod) (mod_typelength amod) <> Eq ->
  tokens = false ->
  let s1 := add_event (EvErr "authorization type") s in
  let uri := utils_urldecode P (req_uri request) in
  _authn_connector_verify P amod request s = Some (ECONTINUE, s1)
  /\ _authn_connector P amod request s
     = if unprotected P (mod_config amod) uri
       then Some (EREJECT, s1)
       else _authn_challenge P amod uri request s1.
Proof.
  intros Hi Hl Hh Hn Hs Ht s1 uri.
  assert (Hv : _authn_connector_verify P amod request s = Some (ECONTINUE, s1)).
  { unfold _authn_connector_verify. rewrite Hl. cbn [retcode_eqb].
    rewrite (bind_run _ _ _ (_authn_getauthorization_other request s Hh Hn Hs)).
    rewrite Ht. reflexivity. }
  split; [exact Hv|].
  apply (_authn_connector_after_verify P amod request s Hi Hv). discriminate.
Qed.

(** X5.  Credentials that [check] refuses change nothing but the memory of
    the backends and the trace: the connection stays without identity,
    the response is untouched, and the connector decides on the path,
    EREJECT for an unprotected path and the challenge otherwise. *)
Theorem refused_credentials_leave_unbound (request : http_request) (s : State)
    (h : string) (rules : authn_rules_t backends authn_config_t) :
  ctx_info s = None ->
  nonempty (httpmessage_REQUEST request str_authenticate) = false ->
  httpmessage_REQUEST request str_authorization = Some h ->
  nonempty (Some h) = true ->
  CString.strncmp h (mod_type amod) (mod_typelength amod) = Eq ->
  an_ctx (mod_authn amod) = true ->
  an_rules (mod_authn amod) = Some rules ->
  fst (authn_check rules (memory s) (method_checked amod (req_method request))
         (req_uri request) (credential h)) = None ->
  let s1 := checked amod rules h (req_method request) (req_uri request) s in
  let uri := utils_urldecode P (req_uri request) in
  ctx_info s1 = None
  /\ session s1 = session s
  /\ response s1 = response s
  /\ _authn_connector P amod request s
     = if unprotected P (mod_config amod) uri
       then Some (EREJECT, s1)
       else _authn_challenge P amod uri request s1.
Proof.
  intros Hi Hl Hh Hn Hs Hctx Hr Hu s1 uri.
  assert (Hv : _authn_connector_verify P amod request s = Some (ECONTINUE, s1)).
  { unfold _authn_connector_verify. rewrite Hl. cbn [retcode_eqb].
    rewrite (bind_run _ _ _ (_authn_getauthorization_header request s Hh Hn Hs)).
    rewrite Hctx. unfold _authn_checkauthorization.
    fold (credential h). fold (method_checked amod (req_method request)).
    rewrite (bind_run _ _ _ (call_check_run amod _ _ _ s Hr)), Hu.
    reflexivity. }
  split; [exact Hi|]. split; [reflexivity|]. split; [reflexivity|].
  apply (_authn_connector_after_verify P amod request s Hi Hv). discriminate.
Qed.

(** ** What the connector returns and when it binds *)

Lemma _authn_challenge_result (uri : string) (request : http_request)
    (s s' : State) (code : retcode) :
  _authn_challenge P amod uri request s = Some (code, s') ->
  code <> ECONTINUE
  /\ ctx_info s' = ctx_info s
  /\ session s' = session s
  /\ trace s' = (trace s ++ [EvChallenge])%list.
Proof.
  unfold _authn_challenge. intros H.
  destruct (bind_inv _ _ _ H) as (c0 & s0 & H0 & Hk). clear H.
  destruct (call_challenge_trace _ _ _ H0) as (T & I & S).
  rewrite <- T, <- I, <- S. clear H0 T I S.
  destruct (retcode_eqb_spec c0 ECONTINUE) as [->|Hne].
  - destruct (bind_inv _ _ _ Hk) as (c1 & s3 & H1 & Hk1).
    injection Hk1 as <- <-. split; [discriminate|].
    destruct (is_xhr request); [injection H1 as _ <-; repeat split|].
    destruct (redirect (mod_config amod)) as [url|];
      [|injection H1 as _ <-; repeat split].
    destruct (redirect_path url) as [path|]; [|discriminate].
    destruct (retcode_eqb _ ESUCCESS); injection H1 as _ <-; repeat split.
  - injection Hk as <- <-. repeat split. exact Hne.
Qed.

(** X6.  The connector always decides: whatever the request and the state,
    it never returns ECONTINUE, although the scheme's challenge may. *)
Theorem connector_never_continues (request : http_request) (s s' : State)
    (code : retcode) :
  _authn_connector P amod request s = Some (code, s') ->
  code <> ECONTINUE.
Proof.
  unfold _authn_connector. rewrite bind_gets.
  destruct (ctx_info s) as [info|].
  - intros H. destruct (bind_inv _ _ _ H) as (u & s0 & _ & Hk).
    injection Hk as <- _. discriminate.
  - intros H. destruct (bind_inv _ _ _ H) as (c1 & s1 & _ & Hk). clear H.
    destruct (bind_inv _ _ _ Hk) as (c2 & s2 & H2 & H3). clear Hk.
    destruct (retcode_eqb_spec c2 EREJECT) as [->|Hne]; cbn [negb] in H3.
    + injection H3 as <- _. discriminate.
    + exact (proj1 (_authn_challenge_result _ _ _ H3)).
Qed.

(** How a connection without identity gets one. *)
Lemma _authn_connector_binding (request : http_request) (s s' : State)
    (code : retcode) (info : authsession_t) :
  ctx_info s = None ->
  _authn_connector P amod request s = Some (code, s') ->
  ctx_info s' = Some info ->
  code = EREJECT
  /\ session s' = Some info
  /\ exists a evs,
      trace s' = (trace s ++ evs)%list
      /\ filter is_check evs
         = [EvCheck (method_checked amod (req_method request)) (req_uri request)
              (credential a)]
      /\ filter is_challenge evs = [].
Proof.
  intros Hi H Hs'. unfold _authn_connector in H. rewrite bind_gets, Hi in H.
  destruct (bind_inv _ _ _ H) as (c1 & s1 & Hv & Hk). clear H.
  destruct (retcode_eqb_spec c1 EREJECT) as [->|Hne].
  - (* the verification accepted *)
    unfold httpmessage_SESSION in Hk.
    rewrite bind_bind, bind_gets in Hk.
    assert (Hfin : code = EREJECT /\ ctx_info s1 = Some info
                   /\ s' = put_session (Some info) s1).
    { destruct (ctx_info s1) as [i1|] eqn:E1.
      - rewrite bind_bind, bind_bind, bind_modify, !bind_ret in Hk.
        cbn [retcode_eqb negb] in Hk. injection Hk as <- <-.
        cbn [ctx_info put_session] in Hs'. rewrite E1 in Hs'.
        injection Hs' as ->. repeat split.
      - rewrite bind_bind, bind_gets, !bind_ret in Hk.
        cbn [retcode_eqb negb] in Hk. injection Hk as <- <-. congruence. }
    destruct Hfin as (-> & Hi1 & ->). split; [reflexivity|].
    split; [reflexivity|]. cbn [trace put_session].
    unfold _authn_connector_verify in Hv.
    destruct (nonempty (httpmessage_REQUEST request str_authenticate));
      [discriminate|]. cbn [retcode_eqb] in Hv.
    destruct (bind_inv _ _ _ Hv) as (a & s0 & Hg & Hc). clear Hv.
    destruct a as [a|]; [|discriminate].
    destruct (an_ctx (mod_authn amod)); [|discriminate].
    destruct (@_authn_getauthorization_steps _ _ _ _ P amod
                (fun e => negb (is_check e) && negb (is_challenge e))
                ltac:(intros e E1 E2; cbn beta; now rewrite E1, E2)
                request _ _ _ Hg) as (e0 & T0 & Q0).
    destruct (_authn_checkauthorization_trace _ _ _ _ Hc) as (e1 & T1 & Q1 & Q2).
    exists a, (e0 ++ EvCheck (method_checked amod (req_method request))
                       (req_uri request) (credential a) :: e1)%list.
    assert (F0 : filter is_check e0 = [] /\ filter is_challenge e0 = []).
    { split; apply forallb_not_filter; rewrite forallb_forall in *;
        intros e He; specialize (Q0 e He); apply andb_prop in Q0; tauto. }
    destruct F0 as [F0 F0'].
    split; [now rewrite T1, T0, app_assoc|].
    rewrite !filter_app, F0, F0'. cbn [filter is_check is_challenge app].
    now rewrite Q1, Q2.
  - (* it did not: the identity cannot appear afterwards *)
    exfalso.
    destruct (_authn_connector_verify_rejects _ _ _ _ Hv Hne) as (_ & I1 & _).
    rewrite Hi in I1.
    destruct (bind_inv _ _ _ Hk) as (c2 & s2 & H2 & H3). clear Hk.
    assert (I2 : ctx_info s2 = None).
    { destruct (retcode_eqb_spec c1 EREJECT) as [E|_]; [contradiction|].
      destruct (negb _); [now injection H2 as _ <-|].
      destruct (retcode_eqb _ ESUCCESS); now injection H2 as _ <-. }
    destruct (retcode_eqb_spec c2 EREJECT) as [->|Hne2]; cbn [negb] in H3.
    + injection H3 as _ <-. congruence.
    + destruct (_authn_challenge_result _ _ _ H3) as (_ & I3 & _). congruence.
Qed.

(** X7.  An identity appears on a connection only through an accepted
    call of [check]: when a request leaves an identity where there was
    none, the connector has returned EREJECT, has called [check]
    exactly once, with the uri of the request and with the method that
    the module hands to [check], HEAD when a login url is configured
    and the method of the request otherwise, has not challenged, and
    has put the same identity in the client's session. *)
Theorem identity_bound_only_by_check (request : http_request) (s s' : State)
    (code : retcode) (info : authsession_t) :
  ctx_info s = None ->
  _authn_connector P amod request s = Some (code, s') ->
  ctx_info s' = Some info ->
  code = EREJECT
  /\ session s' = Some info
  /\ exists a evs,
      trace s' = (trace s ++ evs)%list
      /\ filter is_check evs
         = [EvCheck (method_checked amod (req_method request)) (req_uri request)
              (credential a)]
      /\ filter is_challenge evs = [].
Proof.
  intros Hi H Hs'.
  destruct (@_authn_connector_binding request s s' code info Hi H Hs')
    as (Hcode & Hsession & a & evs & T & Q1 & Q2).
  split; [exact Hcode|]. split; [exact Hsession|].
  exists a, evs. split; [exact T|]. split; [exact Q1 | exact Q2].
Qed.

(** The requests that follow on a bound connection. *)
Lemma serve_bound (requests : list http_request) (s : State)
    (info : authsession_t) :
  ctx_info s = Some info ->
  exists s',
    serve P amod requests s
    = Some (map (fun _ => (EREJECT, propagate P amod None info empty_response))
                requests, s')
    /\ ctx_info s' = Some info
    /\ session s' = session s
    /\ trace s' = trace s.
Proof.
  revert s. induction requests as [|request rest IH]; intros s H.
  - exists s. repeat split. exact H.
  - pose (s1 := put_response (propagate P amod None info empty_response) s).
    destruct (IH s1 H) as (s' & Hrun & Hinfo & Hsess & Htrace).
    exists s'. split; [|repeat split; assumption].
    cbn [serve map]. unfold start_response, set_response.
    rewrite bind_modify.
    rewrite (bind_run _ _ _
               (_authn_connector_bound P amod request
                  (put_response empty_response s) H)).
    rewrite bind_gets.
    change (put_response _ (put_response empty_response s)) with s1.
    rewrite (bind_run _ _ _ Hrun). reflexivity.
Qed.

(** X8.  One verification serves a whole connection.  When the first
    request of a sequence leaves an identity on a connection that had
    none, every later request of the sequence is answered EREJECT with
    that identity propagated from the cache, the identity and the
    session entry are still the same at the end, and [check] has been
    called once in all. *)
Theorem one_check_per_connection (request : http_request)
    (rest : list http_request) (s s1 : State) (code : retcode)
    (info : authsession_t) :
  ctx_info s = None ->
  _authn_connector P amod request (put_response empty_response s)
  = Some (code, s1) ->
  ctx_info s1 = Some info ->
  exists s',
    serve P amod (request :: rest) s
    = Some ((EREJECT, response s1)
            :: map (fun _ => (EREJECT, propagate P amod None info empty_response))
                 rest, s')
    /\ ctx_info s' = Some info
    /\ session s' = Some info
    /\ List.length (filter is_check (trace s'))
       = S (List.length (filter is_check (trace s))).
Proof.
  intros Hi H Hs1.
  destruct (@_authn_connector_binding request
              (put_response empty_response s) s1 code info Hi H Hs1)
    as (-> & Hsession & a & evs & T & Q1 & _).
  destruct (@serve_bound rest s1 info Hs1) as (s' & Hrun & Hinfo & Hsess & Htrace).
  exists s'. split.
  - cbn [serve]. unfold start_response, set_response.
    rewrite bind_modify, (bind_run _ _ _ H), bind_gets, (bind_run _ _ _ Hrun).
    reflexivity.
  - split; [exact Hinfo|]. split; [congruence|].
    rewrite Htrace, T. cbn [trace put_response].
    rewrite filter_app, Q1, length_app. cbn [List.length]. lia.
Qed.


(** ** The session of a first verification *)

(** X9.  The session built at a first verification holds what the backends
    gave, as long as it fits the fields with their final NUL: the user
    name that [check] returned, the group and the home of that user in
    the store as it is after the token is joined, and an empty string
    for an attribute that the store does not know or cannot give. *)
Theorem session_holds_store_attributes (user : string) (s s' : State)
    (info : authsession_t) :
  new_session P amod user s = Some (info, s') ->
  (String.length user < sizeof_user P)%nat ->
  info_user info = user
  /\ ctx_info s' = Some info
  /\ (forall group_of group,
        authz_group (az_rules (mod_authz amod)) = Some group_of ->
        group_of (memory s') user = Some group ->
        (String.length group < sizeof_group P)%nat ->
        info_group info = group)
  /\ (forall home_of home,
        authz_home (az_rules (mod_authz amod)) = Some home_of ->
        home_of (memory s') user = Some home ->
        (String.length home < sizeof_home P)%nat ->
        info_home info = home)
  /\ ((authz_group (az_rules (mod_authz amod)) = None
       \/ exists group_of,
            authz_group (az_rules (mod_authz amod)) = Some group_of
            /\ group_of (memory s') user = None) ->
      info_group info = EmptyString)
  /\ ((authz_home (az_rules (mod_authz amod)) = None
       \/ exists home_of,
            authz_home (az_rules (mod_authz amod)) = Some home_of
            /\ home_of (memory s') user = None) ->
      info_home info = EmptyString).
Proof.
  intros H Hu. pose proof (new_session_info _ _ H) as E.
  destruct (new_session_keeps _ _ _ _ H) as [_ Hk].
  split; [|split; [exact Hk|]].
  - rewrite E. cbn [info_user session_info]. apply strncpy_fits. lia.
  - repeat split.
    + intros group_of group Hg Hv Hl. rewrite E. cbn [info_group session_info].
      rewrite Hg, Hv. apply strncpy_fits. lia.
    + intros home_of home Hg Hv Hl. rewrite E. cbn [info_home session_info].
      rewrite Hg, Hv. apply strncpy_fits. lia.
    + intros [Hg | (group_of & Hg & Hv)]; rewrite E;
        cbn [info_group session_info]; rewrite Hg; [|rewrite Hv]; reflexivity.
    + intros [Hg | (home_of & Hg & Hv)]; rewrite E;
        cbn [info_home session_info]; rewrite Hg; [|rewrite Hv]; reflexivity.
Qed.

(** ** The home connector after the verification *)

(** X10.  The home connector reads what the auth connector has written.
    Once a request has left an identity with a non-empty home on a
    connection that had none, a later request that is not a WebSocket
    request and whose decoded path does not begin with that home is
    redirected by the home connector, 301 to the home followed by a
    slash; on a connection whose session is empty the home connector
    lets every request through. *)
Theorem home_redirect_follows_verification (first next : http_request)
    (s s1 : State) (code : retcode) (info : authsession_t) :
  have_RESULT_301 P = true ->
  ctx_info s = None ->
  _authn_connector P amod first s = Some (code, s1) ->
  ctx_info s1 = Some info ->
  info_home info <> EmptyString ->
  nonempty (httpmessage_REQUEST next "Sec-WebSocket-Version") = false ->
  String.prefix (CString.advance 1 (info_home info))
    (utils_urldecode P (req_uri next)) = false ->
  _home_connector P next (put_response empty_response s1)
  = Some (ESUCCESS,
          put_response
            {| result := Some RESULT_301;
               headers := [(str_location, info_home info ++ "/")];
               cookies := [] |} s1)
  /\ (session s = None -> _home_connector P first s = Some (EREJECT, s)).
Proof.
  intros H301 Hi H Hs1 Hhome Hws Hpre.
  destruct (@_authn_connector_binding first s s1 code info Hi H Hs1)
    as (_ & Hsession & _).
  split.
  - unfold _home_connector, httpmessage_SESSION. rewrite bind_gets.
    cbn [session put_response]. rewrite Hsession, Hws, H301.
    rewrite under_home_test, Hpre.
    destruct (info_home info) as [|c r]; [contradiction|].
    reflexivity.
  - intros Hn. unfold _home_connector, httpmessage_SESSION.
    rewrite bind_gets, Hn. reflexivity.
Qed.

End Credentials.

(** * Further properties of the construction *)

Section Built.

Variables backends authn_config_t authz_config_t rand_state : Type.
Variable P : platform backends authn_config_t authz_config_t rand_state.

Local Abbreviation State := (state backends rand_state).
Local Abbreviation Config := (mod_auth_t authn_config_t authz_config_t).
Local Abbreviation Module := (_mod_auth_t backends authn_config_t authz_config_t).

Lemma select_hash_log (algo : option string) :
  filter is_addmod (snd (select_hash P algo)) = [].
Proof.
  unfold select_hash.
  destruct algo as [name|]; [|now destruct (hash_md5 P)].
  repeat match goal with
         | |- context [if ?c then _ else _] => destruct c
         end;
    repeat match goal with
           | |- context [match ?c with _ => _ end] => destruct c
           end; reflexivity.
Qed.

(** What [mod_auth_create] has gone through when it returns a module. *)
Lemma mod_auth_create_built (now : Z) (config : Config) (m : Module) :
  cr_mod (mod_auth_create P now (Some config)) = Some m ->
  exists rz store rn b,
    entry (authz_rules P)
      (Z.to_nat (Z.land (authz_type config) (AUTHZ_TYPE_MASK P))) = Some rz
    /\ authz_create rz (authz_config config) = Some store
    /\ entry (authn_rules P) (authn_type config) = Some rn
    /\ authn_create rn (fst (select_hash P (algo config))) (authn_config config)
         store = Some b
    /\ cr_memory (mod_auth_create P now (Some config)) = Some b
    /\ cr_config (mod_auth_create P now (Some config)) = Some (mod_config m)
    /\ filter is_addmod (cr_trace (mod_auth_create P now (Some config)))
       = [EvAddmod]
    /\ mod_type m = nth (authn_type config) str_authenticate_types EmptyString
    /\ mod_typelength m = String.length (mod_type m)
    /\ mod_authn m
       = {| an_type := authn_type config; an_rules := Some rn; an_ctx := true;
            an_hash := fst (select_hash P (algo config)) |}
    /\ az_type (mod_authz m) = authz_type config
    /\ az_rules (mod_authz m) = rz
    /\ az_generatetoken (mod_authz m)
       = (if AUTHZ_JWT P then Some Authz_generatejwtoken
          else if has_flag (authz_type config) (AUTHZ_TOKEN_E P)
                  && match authz_join rz with None => true | Some _ => false end
               then None
               else Some Authz_generatetoken).
Proof.
  unfold mod_auth_create.
  destruct (entry (authz_rules P) _) as [rz|]; [|discriminate].
  pose proof (select_hash_log (algo config)) as Hlog.
  destruct (AUTHZ_JWT P); [|destruct (has_flag _ _ && _) eqn:Hf]; cbn beta iota;
    cbn [authz_config authn_config algo authn_type with_authz_type];
    (destruct (authz_create rz (authz_config config)) as [store|] eqn:Hs;
     [|discriminate]);
    destruct (select_hash P (algo config)) as [hash logh];
    (destruct (entry (authn_rules P) (authn_type config)) as [rn|];
     [|discriminate]);
    (destruct (authn_create rn hash (authn_config config) store) as [b|] eqn:Hc;
     [|discriminate]);
    cbn [cr_mod cr_memory cr_config cr_trace]; intros H; injection H as <-;
    exists rz, store, rn, b; cbn [fst snd] in *;
    repeat split; try exact Hc; try exact Hs;
    try (rewrite !filter_app, Hlog; reflexivity);
    cbn [mod_config mod_type mod_typelength mod_authn mod_authz az_type
         az_rules az_generatetoken authn_type with_protect with_authz_type];
    try reflexivity;
    try (rewrite Hf; reflexivity);
    try (destruct (negb (nonempty (protect _))); reflexivity).
Qed.

(** X11.  For a configuration whose two types are indexes of the tables:
    [mod_auth_create] returns a module exactly when the two tables
    have an entry for the configured store and scheme and both
    [create] succeed, the scheme being created after the store and
    with the selected hash.  The module is then registered once, knows
    the length of its scheme's name, keeps the store's flags as they
    were configured, and a new connection gets its connectors without
    reading a NULL pointer: the home connector first when AUTHZ_HOME_E
    is configured, then the auth connector, and after it the
    connectors that the [setup] of the scheme adds to the client, when
    the scheme has one. *)
Theorem mod_auth_create_returns_a_module_iff (now : Z) (config : Config) :
  (Z.to_nat (Z.land (authz_type config) (AUTHZ_TYPE_MASK P))
   < List.length (authz_rules P))%nat ->
  (authn_type config < List.length (authn_rules P))%nat ->
  let made := mod_auth_create P now (Some config) in
  (cr_mod made <> None
   <-> exists rz store rn b,
       entry (authz_rules P)
         (Z.to_nat (Z.land (authz_type config) (AUTHZ_TYPE_MASK P))) = Some rz
       /\ authz_create rz (authz_config config) = Some store
       /\ entry (authn_rules P) (authn_type config) = Some rn
       /\ authn_create rn (fst (select_hash P (algo config)))
            (authn_config config) store = Some b)
  /\ (forall m,
        cr_mod made = Some m ->
        filter is_addmod (cr_trace made) = [EvAddmod]
        /\ mod_typelength m = String.length (mod_type m)
        /\ an_ctx (mod_authn m) = true
        /\ an_rules (mod_authn m) = entry (authn_rules P) (authn_type config)
        /\ az_type (mod_authz m) = authz_type config
        /\ forall b, exists added b',
             _mod_auth_getctx P m b
             = Some ((((if has_flag (authz_type config) (AUTHZ_HOME_E P)
                        then [Home_connector] else [])
                       ++ [Authn_connector])
                      ++ map Scheme_connector added)%list, b')
             /\ forall rn,
                  entry (authn_rules P) (authn_type config) = Some rn ->
                  (added, b')
                  = match authn_setup rn with
                    | Some setup => setup b
                    | None => ([], b)
                    end).
Proof.
  intros _ _ made. subst made. split; [split|].
  - intros H. destruct (cr_mod _) as [m|] eqn:Hm; [|contradiction].
    destruct (mod_auth_create_built _ _ Hm)
      as (rz & store & rn & b & H1 & H2 & H3 & H4 & _).
    exists rz, store, rn, b. repeat split; assumption.
  - intros (rz & store & rn & b & H1 & H2 & H3 & H4).
    unfold mod_auth_create. rewrite H1.
    destruct (AUTHZ_JWT P); [|destruct (has_flag _ _ && _)]; cbn beta iota;
      cbn [authz_config authn_config algo authn_type with_authz_type];
      rewrite H2; destruct (select_hash P (algo config)) as [hash logh];
      rewrite H3; cbn [fst] in H4; rewrite H4; discriminate.
  - intros m Hm.
    destruct (mod_auth_create_built _ _ Hm)
      as (rz & store & rn & b & H1 & H2 & H3 & H4 & _ & _ & Hadd & _ & Hlen
          & Hn & Hz & _).
    split; [exact Hadd|]. split; [exact Hlen|].
    rewrite Hn. cbn [an_ctx an_rules]. split; [reflexivity|].
    split; [now rewrite H3|]. split; [exact Hz|].
    intros b0. unfold _mod_auth_getctx. rewrite Hn, Hz. cbn [an_rules].
    destruct (authn_setup rn) as [setup|] eqn:Hsetup.
    + destruct (setup b0) as [added b'] eqn:Hrun. exists added, b'.
      split; [reflexivity|]. intros rn' Hrn'.
      assert (rn' = rn) by congruence. subst rn'. now rewrite Hsetup, Hrun.
    + exists [], b0. split; [now rewrite app_nil_r|].
      intros rn' Hrn'. assert (rn' = rn) by congruence. subst rn'.
      now rewrite Hsetup.
Qed.

(** X12.  Tokens asked of a store that cannot join them leave a module that
    cannot verify.  [mod_auth_create] clears AUTHZ_TOKEN_E in the
    configuration only: the module it returns still has the flag in
    its own copy of the type, and no token generator, so that, with
    tokens compiled in, a first verification that [check] accepts
    calls a NULL function. *)
Theorem token_without_join_cannot_verify (now : Z) (config : Config)
    (m : Module) (rz : authz_rules_t backends authz_config_t) :
  AUTH_TOKEN P = true ->
  AUTHZ_JWT P = false ->
  entry (authz_rules P)
    (Z.to_nat (Z.land (authz_type config) (AUTHZ_TYPE_MASK P))) = Some rz ->
  has_flag (authz_type config) (AUTHZ_TOKEN_E P) = true ->
  authz_join rz = None ->
  cr_mod (mod_auth_create P now (Some config)) = Some m ->
  has_flag (authz_type (mod_config m)) (AUTHZ_TOKEN_E P) = false
  /\ has_flag (az_type (mod_authz m)) (AUTHZ_TOKEN_E P) = true
  /\ az_generatetoken (mod_authz m) = None
  /\ forall authorization method uri user rules (s : State),
       an_rules (mod_authn m) = Some rules ->
       ctx_info s = None ->
       fst (authn_check rules (memory s) (method_checked m method) uri
              (credential authorization)) = Some user ->
       _authn_checkauthorization P m authorization method uri s = None.
Proof.
  intros Ht Hjwt Hrz Hflag Hjoin Hm.
  destruct (mod_auth_create_built _ _ Hm)
    as (rz' & store & rn & b & H1 & _ & _ & _ & _ & Hcfg & _ & _ & _ & _
        & Hz & _ & Hgen).
  rewrite Hrz in H1. injection H1 as <-.
  rewrite Hjwt, Hflag, Hjoin in Hgen. cbn [andb] in Hgen.
  assert (Hclear : has_flag (authz_type (mod_config m)) (AUTHZ_TOKEN_E P) = false).
  { unfold mod_auth_create in Hcfg, Hm.
    rewrite Hrz, Hjwt, Hflag, Hjoin in Hcfg, Hm. cbn [andb] in Hcfg, Hm.
    cbn beta iota in Hcfg, Hm.
    cbn [authz_config authn_config algo authn_type with_authz_type] in Hcfg, Hm.
    destruct (authz_create rz (authz_config config)); [|discriminate].
    destruct (select_hash P (algo config)) as [hash logh].
    destruct (entry (authn_rules P) (authn_type config)); [|discriminate].
    destruct (authn_create _ hash _ _); [|discriminate].
    injection Hm as <-. cbn [mod_config protect with_authz_type].
    destruct (negb (nonempty (protect config)));
      cbn [authz_type with_protect with_authz_type]; apply clear_flag. }
  split; [exact Hclear|]. split; [now rewrite Hz|]. split; [exact Hgen|].
  intros authorization method uri user rules s Hr Hi Hu.
  unfold _authn_checkauthorization.
  fold (credential authorization). fold (method_checked m method).
  rewrite (bind_run _ _ _ (call_check_run m _ _ _ s Hr)), Hu.
  rewrite bind_gets. cbn [ctx_info put_memory add_event]. rewrite Hi.
  unfold new_session, call_generatetoken. rewrite Ht, Hz, Hflag, Hgen.
  reflexivity.
Qed.

(** X13.  The hash of the scheme.  A configured algorithm is used when no
    warning is printed, and then it has the configured name; a warning
    means that MD5 is used instead, which is also what an unset
    algorithm gives, without warning.  So a hash is selected whenever
    MD5 is available. *)
Theorem select_hash_choice (algo : option string) :
  (forall name,
      algo = Some name ->
      snd (select_hash P algo) = [] ->
      exists h, fst (select_hash P algo) = Some h /\ hash_name h = name)
  /\ (snd (select_hash P algo) <> [] ->
      algo <> None
      /\ fst (select_hash P algo) = hash_md5 P
      /\ snd (select_hash P algo) = [EvWarn "auth: bad algorithm"])
  /\ (algo = None -> select_hash P algo = (hash_md5 P, []))
  /\ (fst (select_hash P algo) = None -> hash_md5 P = None).
Proof.
  assert (Hn : forall h name,
             hash_named h name = true ->
             exists x, h = Some x /\ hash_name x = name).
  { intros [x|] name H; [|discriminate]. exists x. split; [reflexivity|].
    symmetry. now apply String.eqb_eq. }
  unfold select_hash.
  destruct algo as [name|].
  - repeat match goal with
           | |- context [if hash_named ?h name then _ else _] =>
               let E := fresh "E" in
               destruct (hash_named h name) eqn:E;
               [destruct (Hn _ _ E) as (x & -> & Hx); cbn [fst snd];
                repeat split; intros; try congruence;
                eexists; split; [reflexivity | congruence]
               |]
           end.
    destruct (hash_md5 P); cbn [fst snd]; repeat split; intros; congruence.
  - destruct (hash_md5 P); cbn [fst snd]; repeat split; intros; congruence.
Qed.

End Built.

(** * The callers in main.c *)

Lemma strcmp_eq (a b : string) : LibC.strcmp a b = Eq <-> a = b.
Proof.
  revert b; induction a as [|c a IH]; intros [|d b]; simpl;
    try (split; [discriminate|discriminate]); try tauto.
  destruct (Ascii.eqb_spec c d) as [->|Hne].
  - rewrite IH. split; [now intros ->|now intros [= ->]].
  - split.
    + intros H. apply Nat.compare_eq_iff in H. exfalso. apply Hne.
      rewrite <- (ascii_nat_embedding c), <- (ascii_nat_embedding d).
      now rewrite H.
    + intros [= -> _]. contradiction.
Qed.

Lemma same_eq (a b : string) : LibC.same a b = true <-> a = b.
Proof.
  unfold LibC.same. rewrite <- strcmp_eq.
  destruct (LibC.strcmp a b); split; congruence.
Qed.

Lemma same_neq (a b : string) : LibC.same a b = false <-> a <> b.
Proof.
  rewrite <- same_eq. destruct (LibC.same a b); split; congruence.
Qed.

Section Owner.

Variables backends authn_config_t authz_config_t rand_state : Type.
Variable P : platform backends authn_config_t authz_config_t rand_state.
Variable amod : _mod_auth_t backends authn_config_t authz_config_t.

Local Abbreviation State := (state backends rand_state).

(** X14.  What a module reads with [auth_info] is what the auth connector
    stored.  Once a request has left an identity on a connection that
    had none, the keys user, group, type and home give the fields of
    that identity, every other key gives NULL, the token among them,
    and the call changes nothing; as long as the session of the client
    is empty every key gives NULL. *)
Theorem auth_info_reads_the_verified_identity (request : http_request)
    (s s' : State) (code : retcode) (info : authsession_t) :
  ctx_info s = None ->
  _authn_connector P amod request s = Some (code, s') ->
  ctx_info s' = Some info ->
  auth_info "user" s' = Some (Some (info_user info), s')
  /\ auth_info "group" s' = Some (Some (info_group info), s')
  /\ auth_info "type" s' = Some (Some (info_type info), s')
  /\ auth_info "home" s' = Some (Some (info_home info), s')
  /\ (forall key,
        key <> "user" -> key <> "group" -> key <> "type" -> key <> "home" ->
        auth_info key s' = Some (None, s'))
  /\ (session s = None -> forall key, auth_info key s = Some (None, s)).
Proof.
  intros Hi H Hs'.
  destruct (@_authn_connector_binding _ _ _ _ P amod request s s' code info
              Hi H Hs') as (_ & Hsession & _).
  assert (R : forall key,
             auth_info key s'
             = Some ((if LibC.same key "home" then Some (info_home info)
                      else if LibC.same key "type" then Some (info_type info)
                      else if LibC.same key "group" then Some (info_group info)
                      else if LibC.same key "user" then Some (info_user info)
                      else None), s')).
  { intros key. unfold auth_info, httpmessage_SESSION.
    rewrite bind_gets, Hsession. unfold ret.
    destruct (LibC.same key "home"), (LibC.same key "type"),
      (LibC.same key "group"), (LibC.same key "user"); reflexivity. }
  repeat split; try (rewrite R; reflexivity).
  - intros key Hu Hg Ht Hh. rewrite R.
    apply same_neq in Hu, Hg, Ht, Hh. now rewrite Hu, Hg, Ht, Hh.
  - intros Hn key. unfold auth_info, httpmessage_SESSION.
    now rewrite bind_gets, Hn.
Qed.

(** The events of [auth_setowner] for a user of the system. *)
Lemma auth_setowner_run (user : string) (pw_uid pw_gid : Z) (s : State) :
  getpwnam P user = Some (pw_uid, pw_gid) ->
  auth_setowner P true user s
  = Some
      ((if seteuid P (getuid P) && setegid P pw_gid && seteuid P pw_uid
        then ESUCCESS else EREJECT),
       add_events
         (EvSeteuid (getuid P)
          :: (if seteuid P (getuid P)
              then EvSetegid pw_gid
                   :: (if setegid P pw_gid
                       then EvSeteuid pw_uid
                            :: (if seteuid P pw_uid then []
                                else [EvWarn "not enought rights to change user"])
                       else [EvWarn "not enought rights to change group"])
              else [EvWarn "not enought rights to change user"])) s).
Proof.
  intros Hpw. unfold auth_setowner, warn. rewrite Hpw.
  rewrite bind_emit.
  destruct (seteuid P (getuid P)) eqn:E1; cbn [negb andb].
  - rewrite bind_emit.
    destruct (setegid P pw_gid) eqn:E2; cbn [negb andb].
    + rewrite bind_emit.
      destruct (seteuid P pw_uid) eqn:E3; cbn [negb andb].
      * reflexivity.
      * rewrite bind_emit. reflexivity.
    + rewrite bind_emit. reflexivity.
  - rewrite bind_emit. reflexivity.
Qed.

(** X15.  [auth_setowner] stops at the first refusal, and succeeds only
    when the whole transition is made.  For a user of the system it
    calls seteuid with the current uid, setegid with the group of the
    user and seteuid with the uid of the user in this order, makes no
    call after one that fails, and returns ESUCCESS exactly when the
    three succeed; only the log changes.  A user that the system does
    not know gives EREJECT without any call. *)
Theorem auth_setowner_stops_at_first_refusal (user : string) (s : State) :
  exists code evs,
    auth_setowner P true user s = Some (code, add_events evs s)
    /\ match getpwnam P user with
       | Some (pw_uid, pw_gid) =>
           filter is_setid evs
           = (if seteuid P (getuid P)
              then if setegid P pw_gid
                   then [EvSeteuid (getuid P); EvSetegid pw_gid; EvSeteuid pw_uid]
                   else [EvSeteuid (getuid P); EvSetegid pw_gid]
              else [EvSeteuid (getuid P)])
           /\ (code = ESUCCESS <->
               seteuid P (getuid P) = true /\ setegid P pw_gid = true
               /\ seteuid P pw_uid = true)
       | None => evs = [] /\ code = EREJECT
       end
    /\ (code = ESUCCESS \/ code = EREJECT).
Proof.
  destruct (getpwnam P user) as [[pw_uid pw_gid]|] eqn:Hpw.
  - eexists _, _. split; [exact (auth_setowner_run _ s Hpw)|].
    destruct (seteuid P (getuid P)), (setegid P pw_gid), (seteuid P pw_uid);
      cbn [andb filter is_setid]; repeat split; intros; try tauto;
      try discriminate; try (right; reflexivity); try (left; reflexivity);
      intuition discriminate.
  - exists EREJECT, []. split.
    + unfold auth_setowner. now rewrite Hpw.
    + split; [split; reflexivity | right; reflexivity].
Qed.

(** X16.  The transition of the auth connector does not stop.  When the
    user of a verified connection is a user of the system and the
    module changes the owner, [change_user] makes the three calls
    whatever they return: a refused seteuid or setegid is logged and
    the next call is made all the same, unlike [auth_setowner]. *)
Theorem change_user_makes_every_call (user : string) (pw_uid pw_gid : Z)
    (s : State) :
  getpwnam P user = Some (pw_uid, pw_gid) ->
  exists evs,
    change_user P user s = Some (tt, add_events evs s)
    /\ filter is_setid evs
       = [EvSeteuid (getuid P); EvSetegid pw_gid; EvSeteuid pw_uid]
    /\ (seteuid P (getuid P) = false ->
        exists evs',
          auth_setowner P true user s = Some (EREJECT, add_events evs' s)
          /\ filter is_setid evs' = [EvSeteuid (getuid P)]).
Proof.
  intros Hpw. exists (change_user_events P user). split; [apply change_user_run|].
  split.
  - unfold change_user_events. rewrite Hpw.
    destruct (seteuid P (getuid P)), (setegid P pw_gid), (seteuid P pw_uid);
      reflexivity.
  - intros E1. eexists. rewrite (auth_setowner_run _ s Hpw), E1.
    cbn [andb]. split; reflexivity.
Qed.

End Owner.

(** ** The registry of the modules and the modules of a server *)

Section Registry.

Variables obj cfg parser : Type.
Variable Q : main_platform.

Local Abbreviation Module := (module_t obj cfg parser).
Local Abbreviation Entry := (mod_t obj cfg parser).
Local Abbreviation Configure := (configure_t obj cfg parser).
Local Abbreviation calloc := (@empty_modules obj cfg parser Q).

Lemma registered_iff (g : list Module) (name : string) :
  registered g name = true <-> In name (map (@module_name _ _ _) g).
Proof.
  induction g as [|m g IH]; simpl.
  - split; [discriminate | tauto].
  - destruct (LibC.same (module_name m) name) eqn:E.
    + apply same_eq in E. tauto.
    + apply same_neq in E. rewrite IH. tauto.
Qed.

Lemma ouistiti_registermodule_list (g : list Module) (m : Module) :
  fst (ouistiti_registermodule g m)
  = if registered g (module_name m) then g else m :: g.
Proof.
  unfold ouistiti_registermodule. now destruct (registered g (module_name m)).
Qed.

Lemma ouistiti_registermodule_twice (g : list Module) (m : Module) :
  registered g (module_name m) = true ->
  ouistiti_registermodule g m
  = (g, [MWarn obj cfg "module loaded twice" (module_name m)]).
Proof. intros H. unfold ouistiti_registermodule. now rewrite H. Qed.

Lemma register_fold (modules g : list Module) :
  NoDup (map (@module_name _ _ _) g) ->
  let g' := fold_left (fun g m => fst (ouistiti_registermodule g m)) modules g in
  NoDup (map (@module_name _ _ _) g')
  /\ (forall name,
        In name (map (@module_name _ _ _) g') <->
        In name (map (@module_name _ _ _) g)
        \/ In name (map (@module_name _ _ _) modules))
  /\ (forall m, In m g' -> In m g \/ In m modules)
  /\ (forall m, In m g -> In m g').
Proof.
  revert g; induction modules as [|m modules IH]; intros g Hg; simpl.
  - intuition.
  - rewrite ouistiti_registermodule_list.
    destruct (registered g (module_name m)) eqn:E.
    + apply registered_iff in E.
      destruct (IH g Hg) as (N & I & J & K). repeat split; try assumption.
      * intros H. apply I in H. tauto.
      * intros [H|[<-|H]]; apply I; tauto.
      * intros x H. apply J in H. tauto.
    + assert (Hn : NoDup (map (@module_name _ _ _) (m :: g))).
      { simpl. constructor; [|exact Hg]. intros H.
        apply registered_iff in H. congruence. }
      destruct (IH (m :: g) Hn) as (N & I & J & K).
      repeat split; try assumption.
      * intros H. apply I in H. simpl in H. tauto.
      * intros H. apply I. simpl. tauto.
      * intros x H. apply J in H. simpl in H. tauto.
      * intros x H. apply K. now right.
Qed.

(** Modules of distinct names are in [g_modules] in the reverse order
    of their registration: each one is put in front. *)
Lemma register_fold_rev (modules g : list Module) :
  NoDup (map (@module_name _ _ _) modules) ->
  (forall m, In m modules ->
     ~ In (module_name m) (map (@module_name _ _ _) g)) ->
  fold_left (fun g m => fst (ouistiti_registermodule g m)) modules g
  = (rev modules ++ g)%list.
Proof.
  revert g; induction modules as [|m modules IH]; intros g Hnd Hnew;
    [reflexivity|].
  cbn [fold_left map rev] in *. rewrite ouistiti_registermodule_list.
  assert (E : registered g (module_name m) = false).
  { destruct (registered g (module_name m)) eqn:E; [|reflexivity].
    apply registered_iff in E. exfalso. exact (Hnew m (or_introl eq_refl) E). }
  rewrite E. inversion Hnd as [|x l Hx Hl]; subst.
  rewrite IH; [now rewrite <- app_assoc | exact Hl |].
  intros m' Hm' [Heq | Hin].
  - apply Hx. rewrite Heq. now apply in_map.
  - exact (Hnew m' (or_intror Hm') Hin).
Qed.

(** X17.  No name is registered twice.  Whatever modules are registered
    and in whatever order, the names in [g_modules] are pairwise
    distinct, every module of the list was given to
    [ouistiti_registermodule], and every name given is in the list;
    a module whose name is already there leaves the list as it is and
    is reported, so that the first module of a name is the one kept. *)
Theorem registered_names_are_distinct (modules : list Module) :
  NoDup (map (@module_name _ _ _) (register_all modules))
  /\ (forall m, In m (register_all modules) -> In m modules)
  /\ (forall m, In m modules ->
        registered (register_all modules) (module_name m) = true)
  /\ (forall m,
        registered (register_all modules) (module_name m) = true ->
        ouistiti_registermodule (register_all modules) m
        = (register_all modules, [MWarn obj cfg "module loaded twice" (module_name m)]))
  /\ (forall first later,
        module_name later = module_name first ->
        In first (register_all (first :: modules ++ [later]))).
Proof.
  unfold register_all.
  destruct (@register_fold modules [] (NoDup_nil _)) as (N & I & J & K).
  cbv zeta in N, I, J, K.
  split; [exact N|]. split.
  { intros m H. apply J in H. simpl in H. tauto. }
  split.
  { intros m H. apply registered_iff, I. right. now apply in_map. }
  split.
  { intros m H. now apply ouistiti_registermodule_twice. }
  intros first later Hname. cbn [fold_left].
  rewrite fold_left_app. cbn [fold_left].
  rewrite (ouistiti_registermodule_list [] first). cbn [registered].
  assert (N1 : NoDup (map (@module_name obj cfg parser) [first])).
  { simpl. constructor; [tauto | constructor]. }
  destruct (@register_fold modules [first] N1) as (_ & I1 & _ & K1).
  cbv zeta in I1, K1.
  rewrite ouistiti_registermodule_list.
  assert (R : registered
                (fold_left (fun g m => fst (ouistiti_registermodule g m))
                   modules [first]) (module_name later) = true).
  { apply registered_iff, I1. left. simpl. now left. }
  rewrite R. apply K1. now left.
Qed.

(** *** The array of a server *)

Lemma first_free_packed (pre post : list Entry) (limit : nat) :
  forallb (@is_full _ _ _) pre = true ->
  forallb (@is_free _ _ _) post = true ->
  first_free (pre ++ post) limit = Nat.min (List.length pre) limit.
Proof.
  revert limit; induction pre as [|e pre IH]; intros limit Hpre Hpost.
  - simpl. destruct limit as [|limit], post as [|e post]; try reflexivity.
    simpl in Hpost. apply andb_prop in Hpost. destruct Hpost as [He _].
    unfold is_free in He. simpl. now destruct (slot_obj e).
  - destruct limit as [|limit]; [reflexivity|]. simpl in Hpre. apply andb_prop in Hpre. destruct Hpre as [He Hpre].
    simpl. unfold is_full in He.
    destruct (slot_obj e); [|discriminate]. now rewrite IH.
Qed.

Lemma store_at_app (pre post : list Entry) (e m : Entry) :
  store_at (pre ++ e :: post) (List.length pre) m = (pre ++ m :: post)%list.
Proof. induction pre as [|x pre IH]; simpl; [reflexivity | now rewrite IH]. Qed.

Lemma entries_of_full (configure : option Configure) (p : parser)
    (g : list Module) :
  forallb (@is_full _ _ _) (entries_of Q configure p g) = true.
Proof.
  induction g as [|m g IH]; [reflexivity|].
  unfold entries_of in *. cbn [flat_map]. rewrite forallb_app, IH, andb_true_r.
  destruct (has_flag _ _); [reflexivity|].
  now destruct (module_create m _).
Qed.

Lemma entries_of_cons (configure : option Configure) (p : parser)
    (m : Module) (g : list Module) :
  entries_of Q configure p (m :: g)
  = (entries_of Q configure p [m] ++ entries_of Q configure p g)%list.
Proof. unfold entries_of. cbn [flat_map]. now rewrite app_nil_r. Qed.

Lemma entries_of_one (configure : option Configure) (p : parser) (m : Module) :
  (List.length (entries_of Q configure p [m]) <= 1)%nat.
Proof.
  unfold entries_of. cbn [flat_map]. rewrite app_nil_r.
  destruct (has_flag _ _); [simpl; lia|].
  destruct (module_create _ _); simpl; lia.
Qed.

Lemma forallb_firstn (A : Type) (f : A -> bool) (n : nat) (l : list A) :
  forallb f l = true -> forallb f (firstn n l) = true.
Proof.
  revert n; induction l as [|x l IH]; intros [|n] H; try reflexivity.
  simpl in *. apply andb_prop in H. destruct H as [-> H]. now apply IH.
Qed.

(** One module loaded in an array whose objects come first. *)
Lemma ouistiti_loadmodule_packed (pre post : list Entry) (module : Module)
    (configure : option Configure) (p : parser) :
  forallb (@is_full _ _ _) pre = true ->
  forallb (@is_free _ _ _) post = true ->
  (MAX_MODULES < List.length (pre ++ post))%nat ->
  exists post',
    snd (fst (ouistiti_loadmodule Q (pre ++ post) module configure p))
    = ((pre ++ firstn (MAX_MODULES - List.length pre)
                 (entries_of Q configure p [module])) ++ post')%list
    /\ forallb (@is_free _ _ _) post' = true
    /\ List.length (snd (fst (ouistiti_loadmodule Q (pre ++ post) module configure p)))
       = List.length (pre ++ post).
Proof.
  intros Hpre Hpost Hlen. unfold ouistiti_loadmodule.
  rewrite (@first_free_packed pre post MAX_MODULES Hpre Hpost).
  destruct (Nat.eqb_spec (Nat.min (List.length pre) MAX_MODULES) MAX_MODULES) as [E|E].
  - exists post. cbn [fst snd].
    replace (MAX_MODULES - List.length pre)%nat with 0%nat by lia.
    cbn [firstn]. now rewrite app_nil_r.
  - assert (Hlt : (List.length pre < MAX_MODULES)%nat) by lia.
    replace (Nat.min (List.length pre) MAX_MODULES) with (List.length pre) by lia.
    unfold entries_of, config_of. cbn [flat_map]. rewrite app_nil_r.
    destruct (has_flag (module_version module) (MODULE_VERSION_DEPRECATED Q)).
    + exists post. cbn [fst snd firstn].
      rewrite firstn_nil, app_nil_r. auto.
    + destruct post as [|e post].
      { rewrite app_nil_r in Hlen. lia. }
      cbn [fst snd]. rewrite store_at_app.
      simpl in Hpost. apply andb_prop in Hpost. destruct Hpost as [_ Hpost].
      set (config := match module_configure module with
                     | Some own => own p
                     | None => match configure with
                               | Some given => given p module
                               | None => None
                               end
                     end).
      destruct (module_create module config) as [o|].
      * exists post.
        replace (MAX_MODULES - List.length pre)%nat
          with (S (MAX_MODULES - List.length pre - 1)) by lia.
        cbn [firstn]. rewrite firstn_nil, <- app_assoc. cbn [app].
        split; [reflexivity|]. split; [exact Hpost|].
        rewrite !length_app. reflexivity.
      * exists ({| slot_obj := None; slot_ops := Some module |} :: post).
        rewrite firstn_nil, app_nil_r.
        split; [reflexivity|]. split; [exact Hpost|].
        rewrite !length_app. reflexivity.
Qed.

Lemma ouistiti_setmodules_packed (g : list Module) (pre post : list Entry)
    (configure : option Configure) (p : parser) :
  forallb (@is_full _ _ _) pre = true ->
  forallb (@is_free _ _ _) post = true ->
  (MAX_MODULES < List.length (pre ++ post))%nat ->
  exists post',
    fst (ouistiti_setmodules Q g (pre ++ post) configure p)
    = ((pre ++ firstn (MAX_MODULES - List.length pre) (entries_of Q configure p g))
       ++ post')%list
    /\ forallb (@is_free _ _ _) post' = true
    /\ List.length (fst (ouistiti_setmodules Q g (pre ++ post) configure p))
       = List.length (pre ++ post).
Proof.
  revert pre post; induction g as [|m g IH]; intros pre post Hpre Hpost Hlen.
  - exists post. cbn [ouistiti_setmodules fst entries_of flat_map].
    now rewrite firstn_nil, app_nil_r.
  - cbn [ouistiti_setmodules].
    destruct (@ouistiti_loadmodule_packed pre post m configure p Hpre Hpost Hlen)
      as (post1 & E1 & F1 & L1).
    destruct (ouistiti_loadmodule Q (pre ++ post) m configure p)
      as [[code modules1] log1].
    cbn [fst snd] in E1, L1. subst modules1.
    set (e1 := entries_of Q configure p [m]) in *.
    assert (Hfull1 : forallb (@is_full _ _ _)
                       (pre ++ firstn (MAX_MODULES - List.length pre) e1) = true).
    { rewrite forallb_app, Hpre. apply forallb_firstn, entries_of_full. }
    assert (Hlen1 : (MAX_MODULES
                     < List.length ((pre ++ firstn (MAX_MODULES - List.length pre) e1)
                               ++ post1))%nat) by lia.
    destruct (IH _ _ Hfull1 F1 Hlen1) as (post2 & E2 & F2 & L2).
    destruct (ouistiti_setmodules Q g _ configure p) as [modules2 log2].
    cbn [fst] in *. exists post2. split; [|split; [exact F2 | lia]].
    rewrite E2. f_equal. rewrite <- app_assoc. f_equal.
    rewrite (entries_of_cons configure p m g). fold e1.
    rewrite firstn_app. f_equal. rewrite List.length_app, length_firstn.
    pose proof (entries_of_one configure p m) as Hl. fold e1 in Hl.
    destruct (Nat.le_gt_cases (List.length e1) (MAX_MODULES - List.length pre)).
    + f_equal. lia.
    + replace (MAX_MODULES - List.length pre - List.length e1)%nat
        with 0%nat by lia.
      replace (MAX_MODULES
               - (List.length pre
                  + Nat.min (MAX_MODULES - List.length pre) (List.length e1)))%nat
        with 0%nat by lia.
      reflexivity.
Qed.

Lemma destroy_modules_packed (pre post : list Entry) (e : Entry) :
  forallb (@is_full _ _ _) pre = true ->
  is_free e = true ->
  destroy_modules (pre ++ e :: post) = Some (destroyed pre).
Proof.
  intros Hpre He. induction pre as [|x pre IH]; simpl.
  - unfold is_free in He. now destruct (slot_obj e).
  - simpl in Hpre. apply andb_prop in Hpre. destruct Hpre as [Hx Hpre].
    unfold is_full in Hx. unfold destroyed. cbn [flat_map].
    destruct (slot_obj x); [|discriminate].
    destruct (slot_ops x); [|discriminate].
    now rewrite (IH Hpre).
Qed.

Lemma loaded_packed (pre post : list Entry) :
  forallb (@is_full _ _ _) pre = true ->
  forallb (@is_free _ _ _) post = true ->
  loaded (pre ++ post) = pre.
Proof.
  intros Hpre Hpost. unfold loaded. rewrite filter_app.
  assert (F1 : forall l : list Entry, forallb (@is_full _ _ _) l = true ->
                 filter (fun m => match slot_obj m with
                                  | Some _ => true | None => false end) l = l).
  { induction l as [|x l IH]; [reflexivity|]. simpl. intros H.
    apply andb_prop in H. destruct H as [Hx H]. unfold is_full in Hx.
    destruct (slot_obj x); [|discriminate]. now rewrite IH. }
  assert (F2 : forall l : list Entry, forallb (@is_free _ _ _) l = true ->
                 filter (fun m => match slot_obj m with
                                  | Some _ => true | None => false end) l = []).
  { induction l as [|x l IH]; [reflexivity|]. simpl. intros H.
    apply andb_prop in H. destruct H as [Hx H]. unfold is_free in Hx.
    destruct (slot_obj x); [discriminate|]. now apply IH. }
  now rewrite F1, F2, app_nil_r.
Qed.

(** X18.  The modules of a server fill the array from its first entry and
    are destroyed once each.  After [ouistiti_setmodules] on the array
    that [calloc] gives, the entries with an object are the first
    ones, in the order of [g_modules]: one for each module that is not
    deprecated and whose [create] gave an object, sixteen at most, the
    modules beyond being dropped.  [g_modules] holds the modules in
    the reverse order of their registration, so that the module
    registered last is loaded first.  When MAX_SERVERS is not zero an
    entry without object follows the loaded ones, the scan of
    [main_destroy] stops there, inside the array, and [destroy] has
    been called exactly once for each object whose module has this
    operation, in the order of creation. *)
Theorem modules_fill_a_prefix_and_are_destroyed_once (g : list Module)
    (configure : option Configure) (p : parser) :
  (0 < MAX_SERVERS Q)%nat ->
  let modules := fst (ouistiti_setmodules Q g calloc configure p) in
  let kept := firstn MAX_MODULES (entries_of Q configure p g) in
  loaded modules = kept
  /\ (exists rest, modules = (kept ++ rest)%list
                   /\ forallb (@is_free _ _ _) rest = true)
  /\ List.length modules = (MAX_MODULES + MAX_SERVERS Q)%nat
  /\ (List.length kept <= MAX_MODULES)%nat
  /\ destroy_modules modules = Some (destroyed kept)
  /\ (forall registrations : list Module,
        NoDup (map (@module_name _ _ _) registrations) ->
        register_all registrations = rev registrations).
Proof.
  intros Hs modules kept.
  assert (Hfree : forallb (@is_free obj cfg parser) calloc = true).
  { unfold empty_modules. induction (MAX_MODULES + MAX_SERVERS Q)%nat;
      [reflexivity | exact IHn]. }
  assert (Hlen : (MAX_MODULES
                  < List.length (([] : list Entry) ++ calloc))%nat).
  { cbn [app]. unfold empty_modules. rewrite repeat_length. lia. }
  destruct (@ouistiti_setmodules_packed g [] calloc configure p
              eq_refl Hfree Hlen) as (rest & E & F & L).
  cbn [app List.length] in E, L. rewrite Nat.sub_0_r in E.
  fold modules in E, L. fold kept in E.
  assert (Hk : forallb (@is_full _ _ _) kept = true)
    by apply forallb_firstn, entries_of_full.
  assert (Hkl : (List.length kept <= MAX_MODULES)%nat).
  { unfold kept. rewrite length_firstn. lia. }
  split; [rewrite E; now apply loaded_packed|].
  split; [now exists rest|].
  split; [rewrite L; unfold empty_modules; now rewrite repeat_length|].
  split; [exact Hkl|].
  split.
  - destruct rest as [|e rest].
    + exfalso. rewrite E, app_nil_r in L. unfold empty_modules in L.
      rewrite repeat_length in L. lia.
    + rewrite E. simpl in F. apply andb_prop in F. destruct F as [He _].
      now apply destroy_modules_packed.
  - intros registrations Hnd. unfold register_all.
    rewrite (@register_fold_rev registrations [] Hnd); [apply app_nil_r|].
    intros m _ [].
Qed.

End Registry.

(** ** The servers *)

Section Servers.

Variables obj cfg parser : Type.
Variable Q : main_platform.
Variables srv settings : Type.
Variable httpserver_create : Z -> settings -> option srv.

Local Abbreviation Module := (module_t obj cfg parser).
Local Abbreviation Server := (server_t obj cfg parser srv settings).
Local Abbreviation Config := (serverconfig_t parser settings).

Variable g_modules : list Module.
Variable g_default_port : Z.
Variable g_first : option Server.

Local Abbreviation loadserver :=
  (ouistiti_loadserver Q httpserver_create g_modules g_default_port g_first).
Local Abbreviation loadservers_from' :=
  (loadservers_from Q httpserver_create g_modules g_default_port g_first).

(** What a loaded server holds. *)
Lemma ouistiti_loadserver_some (config : Config) (id : Z) (s : Server) :
  fst (loadserver config id) = Some s ->
  0 <= id ->
  server_id s = id
  /\ port (server_config s)
     = (if port config =? 0 then g_default_port else port config)
  /\ modulesconfig (server_config s) = modulesconfig config
  /\ httpserver_create (port (server_config s)) (server_settings config)
     = Some (server_http s)
  /\ server_modules s
     = fst (ouistiti_setmodules Q g_modules (@empty_modules obj cfg parser Q)
              None (modulesconfig config)).
Proof.
  intros H Hid. unfold ouistiti_loadserver in H.
  assert (Eid : (match g_first with
                 | Some _ => id
                 | None => if id =? -1 then 0 else id
                 end) = id).
  { destruct g_first; [reflexivity|].
    destruct (Z.eqb_spec id (-1)); [lia | reflexivity]. }
  rewrite Eid in H.
  destruct (match g_first with
            | Some f => server_id f =? Z.of_nat (MAX_SERVERS Q)
            | None => false
            end); [discriminate|].
  set (config' := if port config =? 0
                  then {| port := g_default_port;
                          server_settings := server_settings config;
                          modulesconfig := modulesconfig config |}
                  else config) in *.
  assert (Hc : port config'
               = (if port config =? 0 then g_default_port else port config)
               /\ server_settings config' = server_settings config
               /\ modulesconfig config' = modulesconfig config).
  { unfold config'. destruct (port config =? 0); repeat split. }
  destruct Hc as (Hp & Hs & Hm).
  destruct (httpserver_create (port config') (server_settings config'))
    as [h|] eqn:Eh; [|discriminate].
  destruct (ouistiti_setmodules Q g_modules _ None (modulesconfig config'))
    as [modules log] eqn:Em.
  cbn [fst] in H. injection H as <-. cbn [server_id server_config server_http
                                            server_modules].
  destruct (Z.eqb_spec id (-1)); [lia|].
  rewrite <- Hp, <- Hm, <- Hs, Eh, Em. repeat split.
Qed.

(** The non-NULL entries of the array. *)
Lemma loadservers_from_all (configs : list (option Config)) (i id : Z)
    (first : list Server) :
  0 <= id ->
  NoDup (map (@server_id _ _ _ _ _) first) ->
  (forall s, In s first -> server_id s < id) ->
  let servers := loadservers_from' configs (-1) i id first in
  NoDup (map (@server_id _ _ _ _ _) servers)
  /\ (forall s, In s servers ->
        In s first
        \/ (id <= server_id s < id + Z.of_nat (List.length configs)
            /\ exists config,
                 In (Some config) configs
                 /\ fst (loadserver config (server_id s)) = Some s)).
Proof.
  revert i id first; induction configs as [|entry_i configs IH];
    intros i id first Hid Hnd Hlt.
  - cbn. split; [exact Hnd | tauto].
  - cbn [loadservers_from]. cbn [Z.eqb negb andb].
    destruct entry_i as [config|].
    + set (first' := match fst (loadserver config id) with
                     | Some server => server :: first
                     | None => first
                     end).
      assert (H' : NoDup (map (@server_id _ _ _ _ _) first')
                   /\ (forall s, In s first' -> server_id s < id + 1)
                   /\ (forall s, In s first' ->
                         In s first
                         \/ (server_id s = id
                             /\ fst (loadserver config id) = Some s))).
      { unfold first'.
        destruct (fst (loadserver config id)) as [server|] eqn:E.
        - destruct (@ouistiti_loadserver_some _ _ _ E Hid) as (Es & _).
          split; [|split].
          + cbn [map]. constructor; [|exact Hnd]. rewrite Es. intros Hin.
            apply in_map_iff in Hin. destruct Hin as (x & Ex & Hx).
            specialize (Hlt x Hx). lia.
          + intros s [<-|Hs]; [lia|]. specialize (Hlt s Hs). lia.
          + intros s [<-|Hs]; [right; split; [exact Es | reflexivity] | now left].
        - split; [exact Hnd|]. split; [|now left].
          intros s Hs. specialize (Hlt s Hs). lia. }
      destruct H' as (Hnd' & Hlt' & Hor').
      destruct (IH (i + 1) (id + 1) first' ltac:(lia) Hnd' Hlt') as (N & I).
      split; [exact N|]. intros s Hs. destruct (I s Hs) as [Hin|(Hr & c & Hc & Hl)].
      * destruct (Hor' s Hin) as [Hf|(Es & El)]; [now left|]. right.
        split; [cbn [List.length]; lia|]. exists config.
        split; [now left | now rewrite Es].
      * right. split; [cbn [List.length]; lia|]. exists c. split; [now right | exact Hl].
    + destruct (IH (i + 1) id first Hid Hnd Hlt) as (N & I).
      split; [exact N|]. intros s Hs. destruct (I s Hs) as [Hin|(Hr & c & Hc & Hl)].
      * now left.
      * right. split; [cbn [List.length]; lia|]. exists c. split; [now right | exact Hl].
Qed.

(** Every configured entry is tried, with its rank. *)
Lemma loadservers_from_ranked (configs : list (option Config)) (i id : Z)
    (first : list Server) :
  loadservers_from' configs (-1) i id first
  = (rev (flat_map
            (fun rc => match fst (loadserver (snd rc) (fst rc)) with
                       | Some server => [server]
                       | None => []
                       end)
            (ranked configs id)) ++ first)%list.
Proof.
  revert i id first; induction configs as [|entry_i configs IH];
    intros i id first; [reflexivity|].
  cbn [loadservers_from ranked]. change (-1 =? -1) with true.
  cbn [negb andb]. destruct entry_i as [config|]; [|apply IH].
  rewrite IH. cbn [flat_map fst snd rev].
  destruct (fst (loadserver config id)) as [server|].
  - cbn [app rev]. now rewrite <- app_assoc.
  - reflexivity.
Qed.

(** One entry of the array selected. *)
Lemma loadservers_from_one (configs : list (option Config))
    (serverid i id : Z) (first : list Server) :
  0 <= i -> serverid <> -1 ->
  loadservers_from' configs serverid i id first
  = if serverid <? i then first
    else
      match nth_error configs (Z.to_nat (serverid - i)) with
      | Some (Some config) =>
          match fst (loadserver config id) with
          | Some server => server :: first
          | None => first
          end
      | _ => first
      end.
Proof.
  intros Hi Hs. revert i id first Hi;
    induction configs as [|entry_i configs IH]; intros i id first Hi.
  - cbn [loadservers_from]. destruct (serverid <? i); [reflexivity|].
    now destruct (Z.to_nat (serverid - i)).
  - cbn [loadservers_from].
    destruct (Z.eqb_spec serverid (-1)) as [|_]; [contradiction|].
    cbn [negb andb]. destruct (Z.eqb_spec i serverid) as [->|Hne]; cbn [negb].
    + rewrite Z.ltb_irrefl, Z.sub_diag. cbn [Z.to_nat nth_error].
      assert (R : forall id' first',
                 loadservers_from' configs serverid (serverid + 1) id' first'
                 = first').
      { intros id' first'. rewrite IH by lia.
        destruct (Z.ltb_spec serverid (serverid + 1)); [reflexivity | lia]. }
      destruct entry_i as [config|]; now rewrite R.
    + rewrite IH by lia.
      destruct (Z.ltb_spec serverid i) as [Hlt|Hge].
      * destruct (Z.ltb_spec serverid (i + 1)); [reflexivity | lia].
      * destruct (Z.ltb_spec serverid (i + 1)); [lia|].
        replace (Z.to_nat (serverid - i)) with (S (Z.to_nat (serverid - (i + 1))))
          by lia.
        reflexivity.
Qed.

(** X19.  The servers and their ids.  [ouistiti_loadservers] gives
    pairwise distinct ids; each server is what [ouistiti_loadserver]
    made of a configured entry and of its id, with the default port
    in place of a port 0.  With -1 every configured entry is tried,
    with its rank among the configured entries as id, whether the
    creations before it failed or not, and the list is in the reverse
    order of the array.  With a server selected, at most this one is
    loaded, with 0 as id, and an index outside the array or on an
    empty entry loads nothing. *)
Theorem servers_are_numbered_from_zero (configs : list (option Config))
    (serverid : Z) :
  let servers :=
    ouistiti_loadservers Q httpserver_create g_modules g_default_port g_first
      configs serverid in
  NoDup (map (@server_id _ _ _ _ _) servers)
  /\ (forall s, In s servers ->
        0 <= server_id s < Z.of_nat (List.length configs)
        /\ exists config,
             In (Some config) configs
             /\ fst (loadserver config (server_id s)) = Some s
             /\ modulesconfig (server_config s) = modulesconfig config
             /\ port (server_config s)
                = (if port config =? 0 then g_default_port else port config))
  /\ (serverid = -1 ->
      servers
      = rev (flat_map
               (fun rc => match fst (loadserver (snd rc) (fst rc)) with
                          | Some server => [server]
                          | None => []
                          end)
               (ranked configs 0)))
  /\ (serverid <> -1 ->
      servers
      = match (if serverid <? 0 then None
               else nth_error configs (Z.to_nat serverid)) with
        | Some (Some config) =>
            match fst (loadserver config 0) with
            | Some server => [server]
            | None => []
            end
        | _ => []
        end).
Proof.
  intros servers. unfold ouistiti_loadservers in servers.
  assert (Hsel : serverid <> -1 ->
                 servers
                 = match (if serverid <? 0 then None
                          else nth_error configs (Z.to_nat serverid)) with
                   | Some (Some config) =>
                       match fst (loadserver config 0) with
                       | Some server => [server]
                       | None => []
                       end
                   | _ => []
                   end).
  { intros Hs. unfold servers.
    rewrite (@loadservers_from_one configs serverid 0 0 [] ltac:(lia) Hs).
    rewrite Z.sub_0_r. now destruct (serverid <? 0). }
  destruct (Z.eq_dec serverid (-1)) as [E|Hs].
  - subst serverid.
    destruct (@loadservers_from_all configs 0 0 [] ltac:(lia) (NoDup_nil _)
                ltac:(intros s []))
      as (N & I).
    fold servers in N, I. split; [exact N|].
    split; [|split; [intros _; unfold servers;
                     now rewrite loadservers_from_ranked, app_nil_r
                    | exact Hsel]].
    intros s Hin. destruct (I s Hin) as [[]|(Hr & c & Hc & Hl)].
    split; [lia|]. exists c. split; [exact Hc|]. split; [exact Hl|].
    destruct (@ouistiti_loadserver_some _ _ _ Hl ltac:(lia)) as (_ & Hp & Hm & _).
    split; [exact Hm | exact Hp].
  - specialize (Hsel Hs).
    destruct (Z.ltb_spec serverid 0) as [Hneg|Hpos].
    + rewrite Hsel. split; [constructor|].
      split; [intros s [] | split; [contradiction | reflexivity]].
    + destruct (nth_error configs (Z.to_nat serverid)) as [[config|]|] eqn:En;
        try (rewrite Hsel; split; [constructor|];
             split; [intros s [] | split; [contradiction | reflexivity]]).
      destruct (fst (loadserver config 0)) as [server|] eqn:El;
        try (rewrite Hsel; split; [constructor|];
             split; [intros s [] | split; [contradiction | reflexivity]]).
      rewrite Hsel.
      destruct (@ouistiti_loadserver_some _ _ _ El ltac:(lia))
        as (Es & Hp & Hm & _).
      split; [cbn [map]; constructor; [intros [] | constructor]|].
      split; [|split; [contradiction | reflexivity]].
      intros s [<-|[]]. rewrite Es.
      assert (Hlen : (Z.to_nat serverid < List.length configs)%nat).
      { apply nth_error_Some. congruence. }
      split; [lia|]. exists config.
      split; [exact (nth_error_In _ _ En)|].
      split; [exact El|]. split; [exact Hm | exact Hp].
Qed.

End Servers.

(** * mod_filestorage.c *)

Section Files.

Variable F : file_platform.
Variable docroot : string.

Local Abbreviation connector := (filestorage_connector F docroot).
Local Abbreviation calls := (file_calls F docroot).
Local Abbreviation refused := (refusal F).

Ltac file_compute H :=
  cbv [filestorage_connector filestorage_checkname fbind fgets fret log_file
       set_private release file_crash
       private path_info filepath fd file_trace] in H.

Ltac file_run :=
  cbv [filestorage_connector filestorage_checkname fbind fgets fret log_file
       set_private release file_crash
       private path_info filepath fd file_trace].

Ltac file_cases H :=
  repeat (cbv beta iota in H;
          match type of H with
          | context [match ?c with _ => _ end] =>
              lazymatch c with
              | context [match _ with _ => _ end] => fail
              | _ => destruct c eqn:?
              end
          end).

Lemma filestorage_checkname_dot (s : file_state) (name : string) :
  path_info (private s) = Some name ->
  LibC.first_char name = "."%char ->
  filestorage_checkname F s
  = Some (ESUCCESS,
          answered (fd (private s))
            [FWarn "file name not allowed" name; FResult refused] s).
Proof.
  intros Hp Hc. destruct s as [[pi fp d] tr].
  cbv [private path_info fd] in *. subst pi. file_run.
  rewrite Hc. change (Ascii.eqb "." ".") with true. cbv beta iota.
  unfold answered. cbn [file_trace]. now rewrite <- app_assoc.
Qed.

(** X20.  A name that begins with a dot is refused before anything is
    done.  For PUT, and for POST and DELETE when no file is open, a
    request on such a name is answered at once: the status of a
    refusal is set, no content is given, a warning is logged, no call
    is made on the files, and the names of the exchange are released;
    an open descriptor is left as it is. *)
Theorem dotted_names_are_refused (request : file_request) (s : file_state)
    (name : string) :
  path_info (private s) = Some name ->
  LibC.first_char name = "."%char ->
  file_method request = "PUT"
  \/ (fd (private s) = 0
      /\ (file_method request = "POST" \/ file_method request = "DELETE")) ->
  connector request s
  = Some (ESUCCESS,
          answered (fd (private s))
            [FWarn "file name not allowed" name; FResult refused] s).
Proof.
  intros Hp Hc Hm.
  pose proof (filestorage_checkname_dot s Hp Hc) as Hk.
  unfold filestorage_connector.
  unfold fbind at 1. unfold fgets at 1. rewrite Hp.
  destruct Hm as [Hm | (Hfd & [Hm | Hm])]; rewrite Hm.
  - change (LibC.same "PUT" "PUT") with true. cbv iota.
    unfold fbind at 1. rewrite Hk. reflexivity.
  - change (LibC.same "POST" "PUT") with false.
    change (LibC.same "POST" "POST") with true. rewrite Hfd in Hk |- *.
    cbn [Z.eqb andb]. unfold fbind at 1. rewrite Hk. reflexivity.
  - change (LibC.same "DELETE" "PUT") with false.
    change (LibC.same "DELETE" "POST") with false.
    change (LibC.same "DELETE" "DELETE") with true. rewrite Hfd in Hk |- *.
    cbn [Z.eqb andb]. unfold fbind at 1. rewrite Hk. reflexivity.
Qed.

(** The cases of the connector. *)
Lemma filestorage_connector_cases (request : file_request) (s s' : file_state)
    (code : retcode) :
  connector request s = Some (code, s') ->
  exists events,
    file_trace s' = (file_trace s ++ events)%list
    /\ match code with
       | EREJECT => s' = s
       | ESUCCESS =>
           path_info (private s') = None /\ filepath (private s') = None
           /\ filter answers events <> []
       | EINCOMPLETE =>
           file_method request = "PUT"
           /\ 0 < fd (private s')
           /\ path_info (private s) <> None
           /\ path_info (private s') = path_info (private s)
           /\ filter answers events = []
       | ECONTINUE => False
       end.
Proof.
  intros H. destruct s as [[pi fp d] tr]. file_compute H. file_cases H;
    try discriminate; injection H as <- <-.
  all: cbv [private path_info filepath fd file_trace].
  all: repeat match goal with
         | H : LibC.same _ _ = true |- _ => apply same_eq in H
         | H : (0 <? _) = true |- _ => apply Z.ltb_lt in H
         end.
  all: first [ now (exists []; rewrite app_nil_r)
             | rewrite <- ?app_assoc; cbn [app]; eexists;
               (split; [reflexivity|]);
               cbn [filter answers]; repeat split;
               try assumption; discriminate ].
Qed.

(** X21.  What each result of the connector means.  EREJECT: nothing at all
    has changed, neither the names, the descriptor nor the log, and
    nothing was called.  ESUCCESS: the names of the exchange are
    released and the response has been given a status or a content.
    EINCOMPLETE: the method is PUT, a descriptor is open, the name is
    kept and the response has not been touched.  ECONTINUE is never
    returned. *)
Theorem connector_outcomes (request : file_request) (s s' : file_state)
    (code : retcode) :
  connector request s = Some (code, s') ->
  exists events,
    file_trace s' = (file_trace s ++ events)%list
    /\ match code with
       | EREJECT => s' = s
       | ESUCCESS =>
           path_info (private s') = None /\ filepath (private s') = None
           /\ filter answers events <> []
       | EINCOMPLETE =>
           file_method request = "PUT"
           /\ 0 < fd (private s')
           /\ path_info (private s) <> None
           /\ path_info (private s') = path_info (private s)
           /\ filter answers events = []
       | ECONTINUE => False
       end.
Proof.
  intros H.
  destruct (filestorage_connector_cases _ _ H) as (events & Htrace & Hcode).
  exists events. split; [exact Htrace|].
  destruct code.
  - destruct Hcode as (Hp & Hf & Ha). repeat split; assumption.
  - destruct Hcode as (Hm & Hfd & Hn & Hk & Ha). repeat split; assumption.
  - exact Hcode.
  - exact Hcode.
Qed.

(** The connector on an exchange that is over. *)
Lemma connector_released (request : file_request) (s : file_state) :
  path_info (private s) = None ->
  connector request s = Some (EREJECT, s).
Proof.
  intros H. destruct s as [[pi fp d] tr]. cbv [path_info private] in H.
  now subst pi.
Qed.

(** X22.  An answered exchange is over.  Once the connector has returned
    ESUCCESS, every later call on the same connection returns EREJECT
    and changes nothing, whatever the requests: no file is opened,
    written, created or removed after the answer, and nothing is
    added to the response. *)
Theorem answered_exchange_is_over (request : file_request)
    (later : list file_request) (s s' : file_state) :
  connector request s = Some (ESUCCESS, s') ->
  calls later s' = Some (map (fun _ => EREJECT) later, s').
Proof.
  intros H.
  destruct (filestorage_connector_cases _ _ H) as (events & _ & Hp & _).
  induction later as [|r later IH]; [reflexivity|].
  cbn [file_calls map]. unfold fbind at 1.
  rewrite (connector_released r _ Hp).
  unfold fbind at 1. rewrite IH. reflexivity.
Qed.

(** X23.  A PUT on an empty name is decided by a byte that is not part of
    the name.  The name check lets the empty name through, and the
    test of the last character reads the byte in front of the name.
    When this byte is a slash the connector calls mkdir on the path
    built from the document root and the empty name; with any other
    byte it opens that path and, when open gives a descriptor,
    returns EINCOMPLETE, so that an upload onto that path is under
    way. *)
Theorem empty_name_is_decided_outside_the_name (request : file_request)
    (s : file_state) :
  path_info (private s) = Some EmptyString ->
  file_method request = "PUT" ->
  fd (private s) = 0 ->
  let path := utils_buildpath F docroot EmptyString in
  (byte_before_path_info F <> "/"%char ->
   connector request s
   = if 0 <? sys_open F path
     then
       Some (EINCOMPLETE,
             {| private := {| path_info := Some EmptyString;
                              filepath := Some path;
                              fd := sys_open F path |};
                file_trace := (file_trace s ++ [FOpen path])%list |})
     else
       Some (ESUCCESS,
             answered 0
               [FOpen path;
                FErr "file creation not allowed" EmptyString;
                FAddcontent "text/json"
                  (quoted "{'method':'PUT','result':'KO','name':'") (-1);
                FAppendcontent EmptyString (-1);
                FAppendcontent (quoted "'}") (-1);
                FResult refused] s))
  /\ (byte_before_path_info F = "/"%char ->
      exists events,
        connector request s = Some (ESUCCESS, answered 0 events s)
        /\ filter touches_files events = [FMkdir path]).
Proof.
  intros Hp Hm Hfd path. destruct s as [[pi fp d] tr].
  cbv [private path_info fd file_trace] in *. subst pi d. split.
  - intros Hb. file_run. rewrite Hm.
    change (LibC.same "PUT" "PUT") with true. cbv beta iota.
    cbn [LibC.first_char LibC.last_char retcode_eqb Z.eqb].
    change (Ascii.eqb zero ".") with false. cbv beta iota.
    cbn [retcode_eqb]. cbv beta iota.
    destruct (Ascii.eqb_spec (byte_before_path_info F) "/");
      [contradiction|]. cbv beta iota. fold path.
    destruct (0 <? sys_open F path); cbv beta iota; [reflexivity|].
    unfold answered. cbn [file_trace]. rewrite <- !app_assoc. reflexivity.
  - intros Hb. file_run. rewrite Hm.
    change (LibC.same "PUT" "PUT") with true. cbv beta iota.
    cbn [LibC.first_char LibC.last_char retcode_eqb Z.eqb].
    change (Ascii.eqb zero ".") with false. cbv beta iota.
    cbn [retcode_eqb]. cbv beta iota. rewrite Hb.
    change (Ascii.eqb "/" "/") with true. cbv beta iota. fold path.
    destruct (0 <? sys_mkdir F path); cbv beta iota;
      eexists; unfold answered; cbn [file_trace];
      rewrite <- !app_assoc; (split; [reflexivity|]); reflexivity.
Qed.

(** The steps of a proof by evaluation. *)
Ltac file_step :=
  cbv beta iota; cbn [retcode_eqb andb Z.eqb].

(** One part of the content written. *)
Lemma connector_write (request : file_request) (s : file_state)
    (name : string) :
  path_info (private s) = Some name ->
  LibC.first_char name <> "."%char ->
  file_method request = "PUT" ->
  0 < fd (private s) ->
  0 < inputlen request -> 0 < rest request ->
  connector request s
  = Some (EINCOMPLETE,
          {| private := private s;
             file_trace :=
               (file_trace s
                ++ [FWrite (fd (private s)) (input request) (inputlen request)])%list |}).
Proof.
  intros Hp Hc Hm Hfd Hi Hr. destruct s as [[pi fp d] tr].
  cbv [private path_info fd file_trace] in *. subst pi. file_run.
  rewrite Hm. change (LibC.same "PUT" "PUT") with true. file_step.
  destruct (Ascii.eqb_spec (LibC.first_char name) "."); [contradiction|].
  file_step.
  destruct (Z.eqb_spec d 0); [lia|]. file_step.
  destruct (Z.ltb_spec 0 d); [|lia]. file_step.
  destruct (Z.ltb_spec 0 (inputlen request)); [|lia].
  destruct (Z.ltb_spec 0 (rest request)); [|lia].
  reflexivity.
Qed.

(** The end of the content. *)
Lemma connector_close (request : file_request) (s : file_state)
    (name : string) :
  path_info (private s) = Some name ->
  LibC.first_char name <> "."%char ->
  file_method request = "PUT" ->
  0 < fd (private s) ->
  inputlen request <= 0 \/ rest request <= 0 ->
  connector request s
  = Some (ESUCCESS,
          answered 0
            [FAddcontent "text/json"
               (quoted "{'method':'PUT','result':'OK','name':'") (-1);
             FAppendcontent name (-1);
             FAppendcontent (quoted "'}") (-1);
             FClose (fd (private s))] s).
Proof.
  intros Hp Hc Hm Hfd Hr. destruct s as [[pi fp d] tr].
  cbv [private path_info fd file_trace] in *. subst pi. file_run.
  rewrite Hm. change (LibC.same "PUT" "PUT") with true. file_step.
  destruct (Ascii.eqb_spec (LibC.first_char name) "."); [contradiction|].
  file_step.
  destruct (Z.eqb_spec d 0); [lia|]. file_step.
  destruct (Z.ltb_spec 0 d); [|lia]. file_step.
  assert (E : (0 <? inputlen request) && (0 <? rest request) = false).
  { apply andb_false_iff. destruct Hr; [left | right]; now apply Z.ltb_ge. }
  rewrite E. file_step. unfold answered. cbn [file_trace].
  rewrite <- !app_assoc. reflexivity.
Qed.

(** The parts of the content one after the other, then its end. *)
Lemma calls_write (chunks : list file_request) (last : file_request)
    (s : file_state) (name : string) :
  path_info (private s) = Some name ->
  LibC.first_char name <> "."%char ->
  0 < fd (private s) ->
  (forall r, In r chunks ->
     file_method r = "PUT" /\ 0 < inputlen r /\ 0 < rest r) ->
  file_method last = "PUT" ->
  inputlen last <= 0 \/ rest last <= 0 ->
  calls (chunks ++ [last]) s
  = Some ((map (fun _ => EINCOMPLETE) chunks ++ [ESUCCESS])%list,
          answered 0
            (map (fun r => FWrite (fd (private s)) (input r) (inputlen r)) chunks
             ++ [FAddcontent "text/json"
                   (quoted "{'method':'PUT','result':'OK','name':'") (-1);
                 FAppendcontent name (-1);
                 FAppendcontent (quoted "'}") (-1);
                 FClose (fd (private s))]) s).
Proof.
  intros Hp Hc Hfd Hch Hm Hl. revert s Hp Hfd.
  induction chunks as [|r chunks IH]; intros s Hp Hfd.
  - cbn [app map file_calls]. unfold fbind at 1.
    rewrite (connector_close last s Hp Hc Hm Hfd Hl). reflexivity.
  - destruct (Hch r (or_introl eq_refl)) as (Hrm & Hri & Hrr).
    cbn [app map file_calls]. unfold fbind at 1.
    rewrite (connector_write r s Hp Hc Hrm Hfd Hri Hrr).
    unfold fbind at 1.
    rewrite IH; [|intros x Hx; apply Hch; now right|exact Hp|exact Hfd].
    cbv [fret answered private fd file_trace].
    rewrite <- app_assoc. reflexivity.
Qed.

(** X24.  An upload, call by call.  A PUT on a name that does not begin
    with a dot and does not end with a slash opens the file and
    returns EINCOMPLETE; each later call with content at hand and
    content to come writes what is at hand to that descriptor and
    returns EINCOMPLETE; the first call without one or the other
    answers OK, closes the descriptor and returns ESUCCESS.  The
    parts are written in the order of the calls, and what the first
    and the last call have at hand is not written. *)
Theorem upload_writes_the_parts_in_order (first last : file_request)
    (chunks : list file_request) (s : file_state) (name : string)
    (c : ascii) :
  path_info (private s) = Some name ->
  LibC.first_char name <> "."%char ->
  LibC.last_char name = Some c -> c <> "/"%char ->
  fd (private s) = 0 ->
  0 < sys_open F (utils_buildpath F docroot name) ->
  file_method first = "PUT" ->
  (forall r, In r chunks ->
     file_method r = "PUT" /\ 0 < inputlen r /\ 0 < rest r) ->
  file_method last = "PUT" ->
  inputlen last <= 0 \/ rest last <= 0 ->
  let path := utils_buildpath F docroot name in
  let events :=
    (FOpen path
     :: map (fun r => FWrite (sys_open F path) (input r) (inputlen r)) chunks
     ++ [FAddcontent "text/json"
           (quoted "{'method':'PUT','result':'OK','name':'") (-1);
         FAppendcontent name (-1);
         FAppendcontent (quoted "'}") (-1);
         FClose (sys_open F path)])%list in
  calls (first :: chunks ++ [last]) s
  = Some ((EINCOMPLETE :: map (fun _ => EINCOMPLETE) chunks ++ [ESUCCESS])%list,
          answered 0 events s)
  /\ filter touches_files events
     = (FOpen path
        :: map (fun r => FWrite (sys_open F path) (input r) (inputlen r)) chunks
        ++ [FClose (sys_open F path)])%list.
Proof.
  intros Hp Hc Hlast Hslash Hfd Hopen Hm Hch Hml Hl path events.
  fold path in Hopen. split.
  - assert (H1 : connector first s
                 = Some (EINCOMPLETE,
                         {| private := {| path_info := Some name;
                                          filepath := Some path;
                                          fd := sys_open F path |};
                            file_trace := (file_trace s ++ [FOpen path])%list |})).
    { destruct s as [[pi fp d] tr].
      cbv [private path_info fd file_trace] in *. subst pi d. file_run.
      rewrite Hm. change (LibC.same "PUT" "PUT") with true. file_step.
      destruct (Ascii.eqb_spec (LibC.first_char name) "."); [contradiction|].
      file_step. rewrite Hlast. file_step.
      destruct (Ascii.eqb_spec c "/"); [contradiction|]. file_step.
      fold path. destruct (Z.ltb_spec 0 (sys_open F path)); [reflexivity | lia]. }
    cbn [file_calls]. unfold fbind at 1. rewrite H1. unfold fbind at 1.
    rewrite (@calls_write chunks last
               {| private := {| path_info := Some name; filepath := Some path;
                                fd := sys_open F path |};
                  file_trace := (file_trace s ++ [FOpen path])%list |}
               name eq_refl Hc Hopen Hch Hml Hl).
    cbv [fret answered private fd file_trace]. unfold events.
    rewrite <- app_assoc. reflexivity.
  - unfold events. cbn [filter touches_files]. f_equal.
    rewrite filter_app. cbn [filter touches_files]. f_equal.
    clear. induction chunks as [|r chunks IH]; [reflexivity|].
    cbn [map filter touches_files]. now rewrite IH.
Qed.

(** X25.  A removal that fails is answered as done.  DELETE on a name
    that does not begin with a dot calls unlink once and, when unlink
    returns zero or less, the -1 of an error as well as the 0 of a
    success, gives the response the result OK and sets no status; the
    result KO and the refusal are kept for a return value above
    zero. *)
Theorem failed_removal_is_answered_as_done (request : file_request)
    (s : file_state) (name : string) :
  path_info (private s) = Some name ->
  LibC.first_char name <> "."%char ->
  fd (private s) = 0 ->
  file_method request = "DELETE" ->
  let path := utils_buildpath F docroot name in
  let events :=
    [FAddcontent "text/json" (quoted "{'method':'DELETE','name':'") (-1);
     FAppendcontent name (-1);
     FAppendcontent (quoted "','result':'") (-1);
     FUnlink path] in
  connector request s
  = Some (ESUCCESS,
          answered 0
            (events
             ++ (if 0 <? sys_unlink F path
                 then [FErr "file removing not allowed" name;
                       FAppendcontent (quoted "KO'}") (-1);
                       FResult refused]
                 else [FWarn "remove file :" name;
                       FAppendcontent (quoted "OK'}") (-1)])) s)
  /\ (sys_unlink F path <= 0 ->
      exists s' done,
        connector request s = Some (ESUCCESS, s')
        /\ file_trace s' = (file_trace s ++ done)%list
        /\ filter sets_status done = []
        /\ content_of done
           = quoted "{'method':'DELETE','name':'" ++ name
             ++ quoted "','result':'OK'}").
Proof.
  intros Hp Hc Hfd Hm path events.
  assert (R : connector request s
              = Some (ESUCCESS,
                      answered 0
                        (events
                         ++ (if 0 <? sys_unlink F path
                             then [FErr "file removing not allowed" name;
                                   FAppendcontent (quoted "KO'}") (-1);
                                   FResult refused]
                             else [FWarn "remove file :" name;
                                   FAppendcontent (quoted "OK'}") (-1)])) s)).
  { destruct s as [[pi fp d] tr].
    cbv [private path_info fd file_trace] in *. subst pi d. file_run.
    rewrite Hm. change (LibC.same "DELETE" "PUT") with false.
    change (LibC.same "DELETE" "POST") with false.
    change (LibC.same "DELETE" "DELETE") with true. file_step.
    destruct (Ascii.eqb_spec (LibC.first_char name) "."); [contradiction|].
    file_step. fold path.
    destruct (0 <? sys_unlink F path); file_step;
      unfold answered, events; cbn [file_trace];
      rewrite <- !app_assoc; reflexivity. }
  split; [exact R|]. intros Hu.
  destruct (Z.ltb_spec 0 (sys_unlink F path)) as [|_]; [lia|].
  eexists _, _. split; [exact R|]. split; [reflexivity|].
  split; [reflexivity|]. unfold events. cbn [app content_of Z.ltb Z.compare].
  reflexivity.
Qed.

(** X26.  A directory that cannot be created is answered as created.  PUT
    on a name that ends with a slash calls mkdir once, opens no file
    and, when mkdir returns zero or less, gives the response the
    result OK and sets no status, so that the answer is the same
    whether the directory was created or not. *)
Theorem failed_mkdir_is_answered_as_done (request : file_request)
    (s : file_state) (name : string) :
  path_info (private s) = Some name ->
  LibC.first_char name <> "."%char ->
  LibC.last_char name = Some "/"%char ->
  fd (private s) = 0 ->
  file_method request = "PUT" ->
  let path := utils_buildpath F docroot name in
  let events :=
    [FAddcontent "text/json" (quoted "{'method':'PUT','name':'") (-1);
     FAppendcontent name (-1);
     FAppendcontent (quoted "','result':'") (-1);
     FMkdir path;
     FWarn "directory creation" name;
     FAppendcontent (quoted "OK'}") (-1)] in
  sys_mkdir F path <= 0 ->
  connector request s = Some (ESUCCESS, answered 0 events s)
  /\ filter touches_files events = [FMkdir path]
  /\ filter sets_status events = []
  /\ content_of events
     = quoted "{'method':'PUT','name':'" ++ name ++ quoted "','result':'OK'}".
Proof.
  intros Hp Hc Hlast Hfd Hm path events Hk.
  split; [|repeat split].
  destruct s as [[pi fp d] tr].
  cbv [private path_info fd file_trace] in *. subst pi d. file_run.
  rewrite Hm. change (LibC.same "PUT" "PUT") with true. file_step.
  destruct (Ascii.eqb_spec (LibC.first_char name) "."); [contradiction|].
  file_step. rewrite Hlast. file_step.
  change (Ascii.eqb "/" "/") with true. file_step. fold path.
  destruct (Z.ltb_spec 0 (sys_mkdir F path)); [lia|]. file_step.
  unfold answered, events. cbn [file_trace].
  rewrite <- !app_assoc. reflexivity.
Qed.

(** X27.  POST changes no file.  On a name that does not begin with a dot
    and with no open descriptor it logs the path, answers OK and
    releases the names, and that is all; with a descriptor open, in
    the middle of an upload, it is rejected and nothing changes.  No
    call is made on the files in either case. *)
Theorem post_changes_no_file (request : file_request) (s : file_state)
    (name : string) :
  path_info (private s) = Some name ->
  LibC.first_char name <> "."%char ->
  file_method request = "POST" ->
  let events :=
    [FWarn "change" (utils_buildpath F docroot name);
     FAddcontent "text/json"
       (quoted "{'method':'POST','result':'OK','name':'") (-1);
     FAppendcontent name (-1);
     FAppendcontent (quoted "'}") 2] in
  connector request s
  = (if fd (private s) =? 0 then Some (ESUCCESS, answered 0 events s)
     else Some (EREJECT, s))
  /\ filter touches_files events = []
  /\ content_of events
     = quoted "{'method':'POST','result':'OK','name':'" ++ name ++ quoted "'}".
Proof.
  intros Hp Hc Hm events. split; [|split; reflexivity].
  destruct s as [[pi fp d] tr].
  cbv [private path_info fd file_trace] in *. subst pi. file_run.
  rewrite Hm. change (LibC.same "POST" "PUT") with false.
  change (LibC.same "POST" "POST") with true.
  change (LibC.same "POST" "DELETE") with false. file_step.
  destruct (d =? 0); [|reflexivity]. file_step.
  destruct (Ascii.eqb_spec (LibC.first_char name) "."); [contradiction|].
  file_step. unfold answered, events. cbn [file_trace].
  rewrite <- !app_assoc. reflexivity.
Qed.

End Files.

(** * The properties on samples *)

Import Scenario.
Import Samples.

Lemma getauthorization_scheme_and_source_witness :
  String.prefix (mod_type (engine basic_simple)) alice_basic = true
  /\ Some alice_basic = httpmessage_REQUEST alice_request str_authorization.
Proof.
  destruct (@getauthorization_scheme_and_source _ _ _ _ linux
              (engine basic_simple) alice_request fresh fresh alice_basic
              eq_refl eq_refl eq_refl) as [H1 H2].
  split; [exact H1 | exact H2].
Defined.

Lemma getauthorization_token_fallback_witness :
  _authn_getauthorization linux (engine token_sqlite)
    (request "GET" "private/doc" [(str_xtoken, "c2Vzc2lvbg")]) fresh
  = Some (Some "c2Vzc2lvbg", add_event (EvErr "cookie get") fresh).
Proof.
  exact (proj1 (@getauthorization_token_fallback _ _ _ _ linux
                  (engine token_sqlite)
                  (request "GET" "private/doc" [(str_xtoken, "c2Vzc2lvbg")])
                  fresh eq_refl) eq_refl eq_refl).
Defined.


Lemma other_scheme_is_not_checked_witness :
  _authn_connector_verify linux (engine basic_simple)
    (request "GET" "private/doc" [(str_authorization, "Bearer c2Vzc2lvbg")])
    fresh
  = Some (ECONTINUE, add_event (EvErr "authorization type") fresh).
Proof.
  refine (proj1 (@other_scheme_is_not_checked _ _ _ _ linux
                   (engine basic_simple)
                   (request "GET" "private/doc"
                      [(str_authorization, "Bearer c2Vzc2lvbg")])
                   fresh "Bearer c2Vzc2lvbg" eq_refl eq_refl eq_refl eq_refl
                   _ eq_refl)).
  discriminate.
Defined.

Lemma refused_credentials_leave_unbound_witness :
  ctx_info
    (checked (engine basic_simple) basic_rules "Basic bWFsbG9yeQ"
       "GET" "private/doc" fresh) = None
  /\ session
       (checked (engine basic_simple) basic_rules "Basic bWFsbG9yeQ"
          "GET" "private/doc" fresh) = session fresh.
Proof.
  destruct (@refused_credentials_leave_unbound _ _ _ _ linux
              (engine basic_simple)
              (request "GET" "private/doc"
                 [(str_authorization, "Basic bWFsbG9yeQ")])
              fresh "Basic bWFsbG9yeQ" basic_rules
              eq_refl eq_refl eq_refl eq_refl eq_refl eq_refl eq_refl eq_refl)
    as (H1 & H2 & _).
  split; [exact H1 | exact H2].
Defined.

Lemma connector_never_continues_witness :
  fst (after (engine login_page) (request "GET" "private/doc" []) fresh)
  <> ECONTINUE.
Proof.
  exact (@connector_never_continues _ _ _ _ linux (engine login_page)
           (request "GET" "private/doc" []) fresh
           (snd (after (engine login_page) (request "GET" "private/doc" []) fresh))
           (fst (after (engine login_page) (request "GET" "private/doc" []) fresh))
           eq_refl).
Defined.

Lemma identity_bound_only_by_check_witness :
  fst (after (engine basic_simple) alice_request fresh) = EREJECT
  /\ session (snd (after (engine basic_simple) alice_request fresh))
     = Some alice.
Proof.
  destruct (@identity_bound_only_by_check _ _ _ _ linux (engine basic_simple)
              alice_request fresh
              (snd (after (engine basic_simple) alice_request fresh))
              (fst (after (engine basic_simple) alice_request fresh))
              alice eq_refl eq_refl eq_refl) as (H1 & H2 & _).
  split; [exact H1 | exact H2].
Defined.

Lemma one_check_per_connection_witness :
  exists s',
    serve linux (engine basic_simple)
      [alice_request; request "GET" "private/other" []] fresh
    = Some ([(EREJECT,
              response
                (snd (after (engine basic_simple) alice_request
                        (put_response empty_response fresh))));
             (EREJECT,
              propagate linux (engine basic_simple) None alice empty_response)],
            s')
    /\ List.length (filter is_check (trace s')) = 1%nat.
Proof.
  destruct (@one_check_per_connection _ _ _ _ linux (engine basic_simple)
              alice_request [request "GET" "private/other" []] fresh
              (snd (after (engine basic_simple) alice_request
                      (put_response empty_response fresh)))
              (fst (after (engine basic_simple) alice_request
                      (put_response empty_response fresh)))
              alice eq_refl eq_refl eq_refl) as (s' & Hrun & _ & _ & Hn).
  exists s'. split; [exact Hrun | exact Hn].
Defined.

Lemma session_holds_store_attributes_witness :
  info_user (fst session_after) = "alice"
  /\ info_group (fst session_after) = "users"
  /\ info_home (fst session_after) = "/home/alice".
Proof.
  destruct (@session_holds_store_attributes _ _ _ _ linux (engine basic_simple)
              "alice" fresh (snd session_after) (fst session_after) eq_refl
              ltac:(vm_compute; lia))
    as (Hu & _ & Hg & Hh & _).
  split; [exact Hu|]. split.
  - exact (Hg group_of "users" eq_refl eq_refl ltac:(vm_compute; lia)).
  - exact (Hh home_of "/home/alice" eq_refl eq_refl ltac:(vm_compute; lia)).
Defined.

Lemma home_redirect_follows_verification_witness :
  _home_connector linux (request "GET" "other" [])
    (put_response empty_response
       (snd (after (engine basic_simple) alice_request fresh)))
  = Some (ESUCCESS,
          put_response
            {| result := Some RESULT_301;
               headers := [(str_location, "/home/alice/")];
               cookies := [] |}
            (snd (after (engine basic_simple) alice_request fresh))).
Proof.
  refine (proj1 (@home_redirect_follows_verification _ _ _ _ linux
                   (engine basic_simple) alice_request
                   (request "GET" "other" []) fresh
                   (snd (after (engine basic_simple) alice_request fresh))
                   (fst (after (engine basic_simple) alice_request fresh))
                   alice eq_refl eq_refl eq_refl eq_refl _ eq_refl eq_refl)).
  discriminate.
Defined.

Lemma token_without_join_cannot_verify_witness :
  az_generatetoken (mod_authz (engine token_simple)) = None
  /\ _authn_checkauthorization linux (engine token_simple) alice_basic
       "GET" "private/doc" fresh = None.
Proof.
  destruct (@token_without_join_cannot_verify _ _ _ _ linux 2026 token_simple
              (engine token_simple) simple_rules
              eq_refl eq_refl eq_refl eq_refl eq_refl eq_refl)
    as (_ & _ & H3 & H4).
  split; [exact H3|].
  exact (H4 alice_basic "GET" "private/doc" "alice" basic_rules fresh
           eq_refl eq_refl eq_refl).
Defined.

Lemma auth_info_reads_the_verified_identity_witness :
  auth_info "user" (snd (after (engine basic_simple) alice_request fresh))
  = Some (Some "alice", snd (after (engine basic_simple) alice_request fresh))
  /\ auth_info "token" (snd (after (engine basic_simple) alice_request fresh))
     = Some (None, snd (after (engine basic_simple) alice_request fresh))
  /\ auth_info "user" fresh = Some (None, fresh).
Proof.
  destruct (@auth_info_reads_the_verified_identity _ _ _ _ linux
              (engine basic_simple) alice_request fresh
              (snd (after (engine basic_simple) alice_request fresh))
              (fst (after (engine basic_simple) alice_request fresh))
              alice eq_refl eq_refl eq_refl)
    as (Hu & _ & _ & _ & Hk & Hn).
  split; [exact Hu|]. split.
  - apply Hk; discriminate.
  - exact (Hn eq_refl "user").
Defined.

Lemma change_user_makes_every_call_witness :
  exists evs,
    change_user host "alice" fresh = Some (tt, add_events evs fresh)
    /\ filter is_setid evs = [EvSeteuid 33; EvSetegid 100; EvSeteuid 1000].
Proof.
  destruct (@change_user_makes_every_call _ _ _ _ host "alice" 1000 100 fresh
              eq_refl) as (evs & Hrun & Hcalls & _).
  exists evs. split; [exact Hrun | exact Hcalls].
Defined.

Lemma modules_fill_a_prefix_and_are_destroyed_once_witness :
  destroy_modules
    (fst (ouistiti_setmodules build sample_modules
            (@empty_modules Z string unit build) None tt))
  = Some [MDestroy string "auth" 4; MDestroy string "filestorage" 11].
Proof.
  exact (proj1 (proj2 (proj2 (proj2 (proj2
           (@modules_fill_a_prefix_and_are_destroyed_once Z string unit build
              sample_modules None tt ltac:(vm_compute; lia))))))).
Defined.

Lemma dotted_names_are_refused_witness :
  filestorage_connector disk "/srv" (part "DELETE" EmptyString 0)
    (exchange ".htaccess")
  = Some (ESUCCESS,
          answered 0
            [FWarn "file name not allowed" ".htaccess"; FResult RESULT_403]
            (exchange ".htaccess")).
Proof.
  exact (@dotted_names_are_refused disk "/srv"
           (part "DELETE" EmptyString 0) (exchange ".htaccess")
           ".htaccess" eq_refl eq_refl
           (or_intror (conj eq_refl (or_intror eq_refl)))).
Defined.

Lemma connector_outcomes_witness :
  file_method (part "PUT" EmptyString 5) = "PUT"
  /\ 0 < fd (private (snd (file_after (part "PUT" EmptyString 5)
                             (exchange "notes.txt")))).
Proof.
  destruct (@connector_outcomes disk "/srv" (part "PUT" EmptyString 5)
              (exchange "notes.txt")
              (snd (file_after (part "PUT" EmptyString 5) (exchange "notes.txt")))
              (fst (file_after (part "PUT" EmptyString 5) (exchange "notes.txt")))
              eq_refl) as (events & _ & H1 & H2 & _).
  split; [exact H1 | exact H2].
Defined.

Lemma answered_exchange_is_over_witness :
  file_calls disk "/srv" [part "PUT" "again" 0; part "DELETE" EmptyString 0]
    (snd (file_after (part "DELETE" EmptyString 0) (exchange "notes.txt")))
  = Some ([EREJECT; EREJECT],
          snd (file_after (part "DELETE" EmptyString 0) (exchange "notes.txt"))).
Proof.
  exact (@answered_exchange_is_over disk "/srv" (part "DELETE" EmptyString 0)
           [part "PUT" "again" 0; part "DELETE" EmptyString 0]
           (exchange "notes.txt")
           (snd (file_after (part "DELETE" EmptyString 0) (exchange "notes.txt")))
           eq_refl).
Defined.

Lemma upload_writes_the_parts_in_order_witness :
  exists s',
    file_calls disk "/srv"
      [part "PUT" EmptyString 9; part "PUT" "hello" 4; part "PUT" "wor" 1;
       part "PUT" "d" 0]
      (exchange "notes.txt")
    = Some ([EINCOMPLETE; EINCOMPLETE; EINCOMPLETE; ESUCCESS], s')
    /\ filter touches_files (file_trace s')
       = [FOpen "/srv/notes.txt"; FWrite 5 "hello" 5; FWrite 5 "wor" 3;
          FClose 5].
Proof.
  eexists. split.
  - exact (proj1 (@upload_writes_the_parts_in_order disk "/srv"
                    (part "PUT" EmptyString 9) (part "PUT" "d" 0)
                    [part "PUT" "hello" 4; part "PUT" "wor" 1]
                    (exchange "notes.txt") "notes.txt" "t"%char
                    eq_refl ltac:(discriminate) eq_refl ltac:(discriminate)
                    eq_refl eq_refl eq_refl
                    ltac:(intros r [<-|[<-|[]]]; repeat split; reflexivity)
                    eq_refl ltac:(right; discriminate))).
  - reflexivity.
Defined.

Lemma failed_removal_is_answered_as_done_witness :
  sys_unlink disk "/srv/notes.txt" = -1
  /\ exists s' done,
       filestorage_connector disk "/srv" (part "DELETE" EmptyString 0)
         (exchange "notes.txt") = Some (ESUCCESS, s')
       /\ file_trace s' = done
       /\ filter sets_status done = []
       /\ content_of done
          = quoted "{'method':'DELETE','name':'notes.txt','result':'OK'}".
Proof.
  split; [reflexivity|].
  destruct (proj2 (@failed_removal_is_answered_as_done disk "/srv"
                     (part "DELETE" EmptyString 0) (exchange "notes.txt")
                     "notes.txt" eq_refl ltac:(discriminate) eq_refl eq_refl)
              ltac:(discriminate))
    as (s' & done & Hrun & Htrace & Hres & Hcontent).
  exists s', done. split; [exact Hrun|]. split; [exact Htrace|].
  split; [exact Hres | exact Hcontent].
Defined.

Lemma failed_mkdir_is_answered_as_done_witness :
  sys_mkdir disk "/srv/photos/" = -1
  /\ exists events,
       filestorage_connector disk "/srv" (part "PUT" EmptyString 0)
         (exchange "photos/")
       = Some (ESUCCESS, answered 0 events (exchange "photos/"))
       /\ filter sets_status events = []
       /\ content_of events
          = quoted "{'method':'PUT','name':'photos/','result':'OK'}".
Proof.
  split; [reflexivity|].
  destruct (@failed_mkdir_is_answered_as_done disk "/srv"
              (part "PUT" EmptyString 0) (exchange "photos/") "photos/"
              eq_refl ltac:(discriminate) eq_refl eq_refl eq_refl
              ltac:(discriminate)) as (Hrun & _ & Hstatus & Hcontent).
  eexists. split; [exact Hrun|]. split; [exact Hstatus | exact Hcontent].
Defined.

Lemma post_changes_no_file_witness :
  exists events,
    filestorage_connector disk "/srv" (part "POST" "text" 0)
      (exchange "notes.txt")
    = Some (ESUCCESS, answered 0 events (exchange "notes.txt"))
    /\ filter touches_files events = []
    /\ content_of events
       = quoted "{'method':'POST','result':'OK','name':'notes.txt'}".
Proof.
  destruct (@post_changes_no_file disk "/srv" (part "POST" "text" 0)
              (exchange "notes.txt") "notes.txt" eq_refl
              ltac:(discriminate) eq_refl) as (Hrun & Hfiles & Hcontent).
  eexists. split; [exact Hrun|]. split; [exact Hfiles | exact Hcontent].
Defined.


Lemma mod_auth_create_returns_a_module_iff_witness :
  filter is_addmod (cr_trace (mod_auth_create linux 2026 (Some basic_simple)))
  = [EvAddmod]
  /\ mod_typelength (engine basic_simple) = 5%nat.
Proof.
  destruct (proj2 (@mod_auth_create_returns_a_module_iff _ _ _ _ linux 2026
                     basic_simple ltac:(vm_compute; lia) ltac:(vm_compute; lia))
              (engine basic_simple) eq_refl)
    as (H1 & H2 & _).
  split; [exact H1 | exact H2].
Defined.

Lemma select_hash_choice_witness :
  exists h,
    fst (select_hash linux (Some "SHA-256")) = Some h
    /\ hash_name h = "SHA-256".
Proof.
  exact (proj1 (@select_hash_choice _ _ _ _ linux (Some "SHA-256"))
           "SHA-256" eq_refl eq_refl).
Defined.

Lemma auth_setowner_stops_at_first_refusal_witness :
  exists evs,
    auth_setowner host true "alice" fresh
    = Some (EREJECT, add_events evs fresh)
    /\ filter is_setid evs = [EvSeteuid 33; EvSetegid 100].
Proof.
  destruct (@auth_setowner_stops_at_first_refusal _ _ _ _ host "alice" fresh)
    as (code & evs & Hrun & (Hcalls & Hcode) & [Hs | Hr]).
  - apply Hcode in Hs. destruct Hs as (_ & Hg & _). discriminate Hg.
  - exists evs. rewrite Hr in Hrun. split; [exact Hrun | exact Hcalls].
Defined.

Lemma registered_names_are_distinct_witness :
  NoDup
    (map (@module_name Z string unit)
       (register_all (sample_modules ++ [sample_module "auth" 2 false])))
  /\ In (sample_module "auth" 1 true)
       (register_all (sample_modules ++ [sample_module "auth" 2 false])).
Proof.
  split.
  - exact (proj1 (@registered_names_are_distinct Z string unit
                    (sample_modules ++ [sample_module "auth" 2 false]))).
  - exact (proj2 (proj2 (proj2 (proj2
             (@registered_names_are_distinct Z string unit
                (tl sample_modules)))))
             (sample_module "auth" 1 true) (sample_module "auth" 2 false)
             eq_refl).
Defined.

Lemma servers_are_numbered_from_zero_witness :
  NoDup
    (map (@server_id Z string unit Z unit)
       (ouistiti_loadservers build sample_httpserver_create sample_modules 80
          None sample_servers (-1)))
  /\ List.length
       (ouistiti_loadservers build sample_httpserver_create sample_modules 80
          None sample_servers 2) = 1%nat.
Proof.
  split.
  - exact (proj1 (@servers_are_numbered_from_zero Z string unit build Z unit
                    sample_httpserver_create sample_modules 80 None
                    sample_servers (-1))).
  - rewrite (proj2 (proj2 (proj2 (@servers_are_numbered_from_zero Z string unit build
                             Z unit sample_httpserver_create sample_modules 80
                             None sample_servers 2))) ltac:(discriminate)).
    reflexivity.
Defined.

Lemma empty_name_is_decided_outside_the_name_witness :
  filestorage_connector disk "/srv" (part "PUT" "content" 0)
    (exchange EmptyString)
  = Some (EINCOMPLETE,
          {| private := {| path_info := Some EmptyString;
                           filepath := Some "/srv/"; fd := 5 |};
             file_trace := [FOpen "/srv/"] |}).
Proof.
  exact (proj1 (@empty_name_is_decided_outside_the_name disk "/srv"
                  (part "PUT" "content" 0) (exchange EmptyString)
                  eq_refl eq_refl eq_refl) ltac:(discriminate)).
Defined.

